(** * Entitlement ledger of the subtitle service

    A shallow embedding of [server/utils/userStore.ts], [shared/pricing.ts],
    [server/types.ts] and the billing routes of the Express server, with the
    properties of the ledger that the specification states.

    Conventions of the embedding.
    - A JavaScript [number] holding money or minutes is an exact rational
      ([Q]); rounding, infinities and NaN of IEEE doubles are outside the
      model, except for the [Number(...)] conversion of a request field,
      which can yield NaN.  Timestamps come from [Date.now()] and integral
      constants and are integers ([Z]).
    - A JavaScript string is a byte string (its UTF-8 encoding).
    - The users file is the finite map it parses to; file-system failures
      are not modelled.
    - [Date.now()] is an oracle: the n-th reading of a run is [clock n]. *)

From Stdlib Require Import ZArith QArith Qround String Ascii List Lqa.
From stdpp Require Import base option list gmap strings.

Local Open Scope string_scope.

(** ** shared/pricing.ts *)

Definition PlanId := string.

Record SubscriptionPlan := mkPlan {
  plan_id : PlanId;
  plan_name : string;
  minutesIncluded : Q;
  priceInPaise : Q;
  targetUser : string
}.

Definition PLANS_table : list SubscriptionPlan :=
  [ mkPlan "editor-basic" "Editor Basic" 200 29900 "Students / beginners";
    mkPlan "creator-pro" "Creator Pro" 500 59900
           "Freelancers handling 20-40 reels/month";
    mkPlan "editor-max" "Editor Max" 1200 99900 "Mid-level freelancers";
    mkPlan "studio-agency" "Studio/Agency" 2400 149900
           "Teams / Instagram agencies" ].

(** [PLANS[planId]]: the entry of the table, [None] for [undefined]. *)
Definition PLANS (planId : string) : option SubscriptionPlan :=
  List.find (fun p => String.eqb (plan_id p) planId) PLANS_table.

Definition LOW_BALANCE_THRESHOLD_PAISE : Q := 2000.
Definition MIN_WALLET_TOPUP_PAISE : Q := 10000.
Definition TRIAL_DURATION_MS : Z := 2 * 24 * 60 * 60 * 1000.
Definition TRIAL_MINUTES : Q := 60.
Definition WALLET_COST_PER_MINUTE_PAISE : Q := 100.

(** ** Comparisons of JavaScript numbers *)

Definition Qleb (a b : Q) : bool := Qle_bool a b.          (* a <= b *)
Definition Qgeb (a b : Q) : bool := Qle_bool b a.          (* a >= b *)
Definition Qltb (a b : Q) : bool := negb (Qle_bool b a).   (* a <  b *)
Definition Qgtb (a b : Q) : bool := negb (Qle_bool a b).   (* a >  b *)

(** [a ?? b] *)
Definition nullish {A} (a b : option A) : option A :=
  match a with Some _ => a | None => b end.

(** ** server/types.ts *)

Module TrialInfo.
Record t := mk {
  startedAt : Z;
  expiresAt : Z;
  consumedMinutes : Q;
  active : bool;
  maxMinutes : Q
}.
Definition set_active (b : bool) (x : t) : t :=
  mk (startedAt x) (expiresAt x) (consumedMinutes x) b (maxMinutes x).
Definition set_consumedMinutes (c : Q) (x : t) : t :=
  mk (startedAt x) (expiresAt x) c (active x) (maxMinutes x).
End TrialInfo.

Module ActivePlan.
Record t := mk {
  planId : PlanId;
  activatedAt : Z;
  expiresAt : option Z;          (* number | null *)
  remainingMinutes : Q
}.
Definition set_remainingMinutes (r : Q) (x : t) : t :=
  mk (planId x) (activatedAt x) (expiresAt x) r.
Definition set_expiresAt (e : option Z) (x : t) : t :=
  mk (planId x) (activatedAt x) e (remainingMinutes x).
End ActivePlan.

Inductive PaymentType := plan_payment | wallet_payment.

Module PaymentRecord.
Record t := mk {
  type : PaymentType;
  razorpayOrderId : string;
  razorpayPaymentId : string;
  amountInPaise : Q;
  planId : option PlanId;
  createdAt : Z
}.
End PaymentRecord.

Module UserAccount.
Record t := mk {
  userId : string;
  email : option string;
  name : option string;
  picture : option string;
  walletBalancePaise : Q;
  trial : option TrialInfo.t;
  activePlan : option ActivePlan.t;
  paymentHistory : list PaymentRecord.t;
  createdAt : Z;
  updatedAt : Z
}.
Definition set_profile (e n p : option string) (u : t) : t :=
  mk (userId u) e n p (walletBalancePaise u) (trial u) (activePlan u)
     (paymentHistory u) (createdAt u) (updatedAt u).
Definition set_walletBalancePaise (w : Q) (u : t) : t :=
  mk (userId u) (email u) (name u) (picture u) w (trial u) (activePlan u)
     (paymentHistory u) (createdAt u) (updatedAt u).
Definition set_trial (tr : option TrialInfo.t) (u : t) : t :=
  mk (userId u) (email u) (name u) (picture u) (walletBalancePaise u) tr
     (activePlan u) (paymentHistory u) (createdAt u) (updatedAt u).
Definition set_activePlan (p : option ActivePlan.t) (u : t) : t :=
  mk (userId u) (email u) (name u) (picture u) (walletBalancePaise u)
     (trial u) p (paymentHistory u) (createdAt u) (updatedAt u).
Definition set_paymentHistory (h : list PaymentRecord.t) (u : t) : t :=
  mk (userId u) (email u) (name u) (picture u) (walletBalancePaise u)
     (trial u) (activePlan u) h (createdAt u) (updatedAt u).
Definition set_updatedAt (z : Z) (u : t) : t :=
  mk (userId u) (email u) (name u) (picture u) (walletBalancePaise u)
     (trial u) (activePlan u) (paymentHistory u) (createdAt u) z.
End UserAccount.

(** [Pick<UserAccount, 'email' | 'name' | 'picture'>] *)
Record Profile := mkProfile {
  p_email : option string;
  p_name : option string;
  p_picture : option string
}.

(** The parsed contents of [server/data/users.json]. *)
Abbreviation Users := (gmap string UserAccount.t).

(** ** server/utils/userStore.ts *)

(** An [async] body of the store, as the sequence of its effects: reading
    and rewriting the users file, reading the clock, throwing. *)
Inductive Task (A : Type) : Type :=
| Return (a : A)
| Throw (message : string)
| ReadAll (k : Users -> Task A)
| WriteAll (data : Users) (k : Task A)
| DateNow (k : Z -> Task A).
Arguments Return {A} a.
Arguments Throw {A} message.
Arguments ReadAll {A} k.
Arguments WriteAll {A} data k.
Arguments DateNow {A} k.

Fixpoint Task_bind {A B} (t : Task A) (f : A -> Task B) : Task B :=
  match t with
  | Return a => f a
  | Throw m => Throw m
  | ReadAll k => ReadAll (fun users => Task_bind (k users) f)
  | WriteAll d k => WriteAll d (Task_bind k f)
  | DateNow k => DateNow (fun z => Task_bind (k z) f)
  end.

#[export] Instance Task_ret : MRet Task := fun A a => Return a.
#[export] Instance Task_mbind : MBind Task := fun A B f t => Task_bind t f.

Definition readAllUsers : Task Users := ReadAll Return.
Definition writeAllUsers (data : Users) : Task unit :=
  WriteAll data (Return tt).
Definition now : Task Z := DateNow Return.

(** The body that [getOrCreateUser] hands to [withLock]. *)
Definition getOrCreateUser_body (userId : string) (profile : option Profile)
  : Task UserAccount.t :=
  users ← readAllUsers;
  match users !! userId with
  | Some existing =>
      match profile with
      | Some p =>
          let existing1 :=
            UserAccount.set_profile
              (nullish (p_email p) (UserAccount.email existing))
              (nullish (p_name p) (UserAccount.name existing))
              (nullish (p_picture p) (UserAccount.picture existing))
              existing in
          t ← now;
          let existing2 := UserAccount.set_updatedAt t existing1 in
          _ ← writeAllUsers (<[userId := existing2]> users);
          mret existing2
      | None => mret existing
      end
  | None =>
      created ← now;
      updated ← now;
      let fresh :=
        UserAccount.mk userId
          (profile ≫= p_email) (profile ≫= p_name) (profile ≫= p_picture)
          0 None None [] created updated in
      _ ← writeAllUsers (<[userId := fresh]> users);
      mret fresh
  end.

(** A mutator changes the record it is given, may read the clock and may
    throw; what it did to the record before throwing is lost with it. *)
Definition Mutator := UserAccount.t -> Task UserAccount.t.

Definition updateUser_body (userId : string) (mutator : Mutator)
  : Task UserAccount.t :=
  users ← readAllUsers;
  match users !! userId with
  | None => Throw ("User " ++ userId ++ " not found")
  | Some existing =>
      existing1 ← mutator existing;
      t ← now;
      let existing2 := UserAccount.set_updatedAt t existing1 in
      _ ← writeAllUsers (<[userId := existing2]> users);
      mret existing2
  end.

(** The [data] argument of [recordPayment]. *)
Record PaymentData := mkPaymentData {
  d_type : PaymentType;
  d_amountInPaise : Q;
  d_planId : option PlanId;
  d_razorpayOrderId : string;
  d_razorpayPaymentId : string
}.

Definition recordPayment_mutator (data : PaymentData) : Mutator := fun user =>
  t ← now;
  let rec := PaymentRecord.mk (d_type data) (d_razorpayOrderId data)
               (d_razorpayPaymentId data) (d_amountInPaise data)
               (d_planId data) t in
  mret (UserAccount.set_paymentHistory
          (take 50 (rec :: UserAccount.paymentHistory user)) user).

Definition activatePlan_mutator (activePlan : ActivePlan.t) : Mutator :=
  fun user => mret (UserAccount.set_activePlan (Some activePlan) user).

Definition setTrialInfo_mutator (trial : TrialInfo.t) : Mutator :=
  fun user => mret (UserAccount.set_trial (Some trial) user).

Definition adjustWallet_mutator (deltaPaise : Q) : Mutator := fun user =>
  let next := (UserAccount.walletBalancePaise user + deltaPaise)%Q in
  if Qltb next 0 then Throw "Insufficient wallet balance"
  else mret (UserAccount.set_walletBalancePaise next user).

Definition clearTrial_mutator : Mutator :=
  fun user => mret (UserAccount.set_trial None user).

Definition ensureActivePlanMinutes_mutator (minutes : Q) : Mutator :=
  fun user =>
  match UserAccount.activePlan user with
  | None => Throw "No active plan"
  | Some plan =>
      if Qltb (ActivePlan.remainingMinutes plan) minutes
      then Throw "Insufficient plan minutes"
      else mret (UserAccount.set_activePlan
                   (Some (ActivePlan.set_remainingMinutes
                            (ActivePlan.remainingMinutes plan - minutes)%Q
                            plan)) user)
  end.

Definition consumeTrialMinutes_mutator (minutes : Q) : Mutator := fun user =>
  match UserAccount.trial user with
  | None => Throw "Trial inactive"
  | Some trial =>
      if negb (TrialInfo.active trial) then Throw "Trial inactive"
      else
        t ← now;
        if (TrialInfo.expiresAt trial <? t)%Z then
          (* user.trial.active = false; the throw discards the change *)
          let _ := UserAccount.set_trial
                     (Some (TrialInfo.set_active false trial)) user in
          Throw "Trial expired"
        else if Qgtb (TrialInfo.consumedMinutes trial + minutes)%Q
                     (TrialInfo.maxMinutes trial)
        then Throw "Trial minutes exceeded"
        else mret (UserAccount.set_trial
                     (Some (TrialInfo.set_consumedMinutes
                              (TrialInfo.consumedMinutes trial + minutes)%Q
                              trial)) user)
  end.

(** ** One request at a time

    The meaning of a task when nothing else touches the users file while it
    runs: the state is the file and the clock oracle, the outcome a value
    or the message of the thrown [Error].  The routes below are given this
    meaning too: a request is served with no other request in flight.  What
    the promise chain of [withLock] does when calls overlap is modelled
    separately, further down. *)

Record World := mkWorld {
  disk : Users;
  clock : nat -> Z;
  reads : nat
}.

Definition set_disk (d : Users) (w : World) : World :=
  mkWorld d (clock w) (reads w).
Definition tick (w : World) : World :=
  mkWorld (disk w) (clock w) (S (reads w)).

Inductive Result (A : Type) : Type :=
| Ok (a : A)
| Err (message : string).
Arguments Ok {A} a.
Arguments Err {A} message.

Definition M (A : Type) : Type := World -> Result A * World.

#[export] Instance M_ret : MRet M := fun A a w => (Ok a, w).
#[export] Instance M_mbind : MBind M := fun A B f m w =>
  match m w with
  | (Ok a, w1) => f a w1
  | (Err e, w1) => (Err e, w1)
  end.

Definition throw {A} (message : string) : M A := fun w => (Err message, w).

(** [try { body } catch (error) { handler(error.message) }] *)
Definition try_catch {A} (body : M A) (handler : string -> M A) : M A :=
  fun w =>
  match body w with
  | (Ok a, w1) => (Ok a, w1)
  | (Err e, w1) => handler e w1
  end.

(** [Date.now()] in a route. *)
Definition Date_now : M Z := fun w => (Ok (clock w (reads w)), tick w).

Fixpoint run {A} (t : Task A) : M A := fun w =>
  match t with
  | Return a => (Ok a, w)
  | Throw m => (Err m, w)
  | ReadAll k => run (k (disk w)) w
  | WriteAll d k => run k (set_disk d w)
  | DateNow k => run (k (clock w (reads w))) (tick w)
  end.

(** [await withLock(fn)] with an idle chain: [fn] runs to completion. *)
Definition withLock {A} (fn : Task A) : M A := run fn.

Definition getOrCreateUser (userId : string) (profile : option Profile)
  : M UserAccount.t :=
  withLock (getOrCreateUser_body userId profile).

Definition updateUser (userId : string) (mutator : Mutator)
  : M UserAccount.t :=
  withLock (updateUser_body userId mutator).

Definition recordPayment (userId : string) (data : PaymentData) :=
  updateUser userId (recordPayment_mutator data).
Definition activatePlan (userId : string) (activePlan : ActivePlan.t) :=
  updateUser userId (activatePlan_mutator activePlan).
Definition setTrialInfo (userId : string) (trial : TrialInfo.t) :=
  updateUser userId (setTrialInfo_mutator trial).
Definition adjustWallet (userId : string) (deltaPaise : Q) :=
  updateUser userId (adjustWallet_mutator deltaPaise).
Definition clearTrial (userId : string) :=
  updateUser userId clearTrial_mutator.
Definition ensureActivePlanMinutes (userId : string) (minutes : Q) :=
  updateUser userId (ensureActivePlanMinutes_mutator minutes).
Definition consumeTrialMinutes (userId : string) (minutes : Q) :=
  updateUser userId (consumeTrialMinutes_mutator minutes).

Definition loadUser (userId : string) : M (option UserAccount.t) :=
  users ← withLock readAllUsers;
  mret (users !! userId).

(** ** node:crypto

    [crypto.createHmac('sha256', key).update(data).digest('hex')], following
    FIPS 180-4 (SHA-256) and RFC 2104 (HMAC), on byte strings. *)
Module NodeCrypto.
Local Open Scope Z_scope.
Local Open Scope list_scope.

Definition word (x : Z) : Z := x mod 2 ^ 32.
Definition add32 (x y : Z) : Z := word (x + y).
Definition rotr (n x : Z) : Z :=
  Z.lor (Z.shiftr x n) (word (Z.shiftl x (32 - n))).
Definition not32 (x : Z) : Z := Z.lxor x 4294967295.

Definition Ch (x y z : Z) : Z :=
  Z.lxor (Z.land x y) (Z.land (not32 x) z).
Definition Maj (x y z : Z) : Z :=
  Z.lxor (Z.lxor (Z.land x y) (Z.land x z)) (Z.land y z).
Definition Sigma0 (x : Z) : Z :=
  Z.lxor (Z.lxor (rotr 2 x) (rotr 13 x)) (rotr 22 x).
Definition Sigma1 (x : Z) : Z :=
  Z.lxor (Z.lxor (rotr 6 x) (rotr 11 x)) (rotr 25 x).
Definition sigma0 (x : Z) : Z :=
  Z.lxor (Z.lxor (rotr 7 x) (rotr 18 x)) (Z.shiftr x 3).
Definition sigma1 (x : Z) : Z :=
  Z.lxor (Z.lxor (rotr 17 x) (rotr 19 x)) (Z.shiftr x 10).

(** The constants of FIPS 180-4, from their definition: the first 32 bits
    of the fractional parts of the cube roots (round constants) and of the
    square roots (initial hash value) of the first primes. *)
Definition is_prime (n : Z) : bool :=
  forallb (fun d => negb (n mod d =? 0))
          (map Z.of_nat (seq 2 (Z.to_nat n - 2))).

Definition primes (count : nat) : list Z :=
  firstn count (filter is_prime (map Z.of_nat (seq 2 400))).

(** The integer cube root of [n], bit by bit from bit [k - 1] down. *)
Fixpoint cube_root_bits (k : nat) (n acc : Z) : Z :=
  match k with
  | O => acc
  | S k' =>
      let candidate := acc + 2 ^ Z.of_nat k' in
      cube_root_bits k' n
        (if candidate * candidate * candidate <=? n then candidate else acc)
  end.

Definition K256 : list Z := Eval vm_compute in
  map (fun p => word (cube_root_bits 40 (p * 2 ^ 96) 0)) (primes 64).

Definition H256 : list Z := Eval vm_compute in
  map (fun p => word (Z.sqrt (p * 2 ^ 64))) (primes 8).

(** Big-endian words of a byte list whose length is a multiple of four. *)
Fixpoint words_of_bytes (bs : list Z) : list Z :=
  match bs with
  | b0 :: b1 :: b2 :: b3 :: rest =>
      (b0 * 16777216 + b1 * 65536 + b2 * 256 + b3) :: words_of_bytes rest
  | _ => []
  end.

Definition bytes_of_word (w : Z) : list Z :=
  [ Z.shiftr w 24 mod 256; Z.shiftr w 16 mod 256;
    Z.shiftr w 8 mod 256; w mod 256 ].

(** The message followed by 0x80, zeros up to 56 modulo 64, and the length
    in bits as a 64-bit big-endian integer. *)
Definition pad (msg : list Z) : list Z :=
  let len := Z.of_nat (length msg) in
  let zeros := Z.to_nat ((55 - len) mod 64) in
  let bits := len * 8 in
  msg ++ [128] ++ repeat 0 zeros
      ++ bytes_of_word (Z.shiftr bits 32) ++ bytes_of_word (word bits).

(** One round: the eight working variables and the sliding window of the
    sixteen schedule words W[t .. t+15]. *)
Definition round (st : list Z * list Z) (k : Z) : list Z * list Z :=
  match st with
  | ([a; b; c; d; e; f; g; h], w) =>
      let wt := nth 0 w 0 in
      let t1 := add32 (add32 (add32 (add32 h (Sigma1 e)) (Ch e f g)) k) wt in
      let t2 := add32 (Sigma0 a) (Maj a b c) in
      let wnext :=
        add32 (add32 (add32 (sigma1 (nth 14 w 0)) (nth 9 w 0))
                     (sigma0 (nth 1 w 0))) wt in
      ([add32 t1 t2; a; b; c; add32 d t1; e; f; g], tl w ++ [wnext])
  | _ => st
  end.

Definition compress (h : list Z) (block : list Z) : list Z :=
  let '(v, _) := fold_left round K256 (h, block) in
  map (fun p => add32 (fst p) (snd p)) (combine h v).

Fixpoint blocks (n : nat) (ws : list Z) : list (list Z) :=
  match n with
  | O => []
  | S n' => firstn 16 ws :: blocks n' (skipn 16 ws)
  end.

Definition sha256 (msg : list Z) : list Z :=
  let ws := words_of_bytes (pad msg) in
  let h := fold_left compress (blocks (length ws / 16) ws) H256 in
  flat_map bytes_of_word h.

Definition hmac_sha256 (key msg : list Z) : list Z :=
  let key0 := if (64 <? Z.of_nat (length key)) then sha256 key else key in
  let key1 := key0 ++ repeat 0 (64 - length key0) in
  let ipad := map (fun b => Z.lxor b 0x36) key1 in
  let opad := map (fun b => Z.lxor b 0x5c) key1 in
  sha256 (opad ++ sha256 (ipad ++ msg)).

Definition bytes_of_string (s : string) : list Z :=
  map (fun c => Z.of_N (N_of_ascii c)) (list_ascii_of_string s).

Definition hex_digit (n : Z) : ascii :=
  nth (Z.to_nat n) (list_ascii_of_string "0123456789abcdef") "0"%char.

Definition hex (bs : list Z) : string :=
  string_of_list_ascii
    (flat_map (fun b => [hex_digit (b / 16); hex_digit (b mod 16)]) bs).

Definition createHmac_sha256_hex (key data : string) : string :=
  hex (hmac_sha256 (bytes_of_string key) (bytes_of_string data)).

End NodeCrypto.

Arguments NodeCrypto.createHmac_sha256_hex : simpl never.

(** ** The routes of the server *)

(** [publicUser(user)] *)
Module PublicUser.
Record t := mk {
  userId : string;
  email : option string;
  name : option string;
  picture : option string;
  walletBalancePaise : Q;
  trial : option TrialInfo.t;
  activePlan : option ActivePlan.t;
  lowBalance : bool;
  paymentHistory : list PaymentRecord.t
}.
End PublicUser.

Definition publicUser (user : UserAccount.t) : PublicUser.t :=
  PublicUser.mk (UserAccount.userId user) (UserAccount.email user)
    (UserAccount.name user) (UserAccount.picture user)
    (UserAccount.walletBalancePaise user) (UserAccount.trial user)
    (UserAccount.activePlan user)
    (Qltb (UserAccount.walletBalancePaise user) LOW_BALANCE_THRESHOLD_PAISE)
    (UserAccount.paymentHistory user).

(** The JSON bodies the routes answer with. *)
Inductive Body :=
| ErrorBody (error : string)
| InsufficientBody (error : string) (requiredPaise : Q)
| SessionBody (user : PublicUser.t) (plans : list SubscriptionPlan)
              (razorpayKeyId : string)
| TrialBody (trial : TrialInfo.t) (message : option string)
| UserBody (user : option PublicUser.t)
| UsageBody (source : string) (user : option PublicUser.t)
            (debitedPaise : option Q).

Record Response := mkResponse { status : nat; body : Body }.

(** [res.json(b)] and [res.status(n).json(b)] *)
Definition json (b : Body) : Response := mkResponse 200 b.
Definition status_json (n : nat) (b : Body) : Response := mkResponse n b.

(** The result of [Number(x)] on an optional request field. *)
Inductive number := Num (q : Q) | NaN.

Definition Number (x : option Q) : number :=
  match x with Some q => Num q | None => NaN end.

(** [!x] on an optional string and on an optional number. *)
Definition not_string (x : option string) : bool :=
  match x with Some s => String.eqb s EmptyString | None => true end.
Definition not_number (x : option Q) : bool :=
  match x with Some q => Qeq_bool q 0 | None => true end.

(** The body of [POST /subscription/confirm]. *)
Record ConfirmBody := mkConfirmBody {
  razorpay_order_id : option string;
  razorpay_payment_id : option string;
  razorpay_signature : option string;
  intent : option string;
  c_planId : option string;
  c_amountInPaise : option Q
}.

Definition THIRTY_DAYS_MS : Z := 30 * 24 * 60 * 60 * 1000.

Section Routes.

(** [process.env]: the gateway credentials, both required at start-up. *)
Variable RAZORPAY_KEY_ID : string.
Variable RAZORPAY_KEY_SECRET : string.

Definition requireAuth (session : option string)
    (next : string -> M Response) : M Response :=
  match session with
  | None => mret (status_json 401 (ErrorBody "Unauthorized"))
  | Some userId => next userId
  end.

Definition session_body (user : UserAccount.t) : Body :=
  SessionBody (publicUser user) PLANS_table RAZORPAY_KEY_ID.

(** [POST /auth/google], after the identity provider has verified the
    credential and returned [payload]. *)
Definition auth_google (sub : string) (payload : Profile) : M Response :=
  user ← getOrCreateUser sub (Some payload);
  mret (json (session_body user)).

(** [GET /status] *)
Definition get_status (userId : string) : M Response :=
  user ← loadUser userId;
  match user with
  | None => mret (status_json 404 (ErrorBody "User not found"))
  | Some user =>
      user1 ←
        match UserAccount.trial user with
        | Some trial =>
            t ← Date_now;
            if (TrialInfo.expiresAt trial <? t)%Z
            then mret (UserAccount.set_trial
                         (Some (TrialInfo.set_active false trial)) user)
            else mret user
        | None => mret user
        end;
      mret (json (session_body user1))
  end.

(** [POST /subscription/start-trial] *)
Definition start_trial (userId : string) : M Response :=
  user ← loadUser userId;
  match user with
  | None => mret (status_json 404 (ErrorBody "User not found"))
  | Some user =>
      let grant : M Response :=
        now ← Date_now;
        let trial := TrialInfo.mk now (now + TRIAL_DURATION_MS)%Z 0 true
                       TRIAL_MINUTES in
        _ ← setTrialInfo userId trial;
        mret (json (TrialBody trial None)) in
      match UserAccount.trial user with
      | Some trial =>
          let used : M Response :=
            mret (status_json 403 (ErrorBody "Trial already used")) in
          if TrialInfo.active trial then
            t ← Date_now;
            if (TrialInfo.expiresAt trial >? t)%Z
            then mret (json (TrialBody trial (Some "Trial already active")))
            else used
          else used
      | None => grant
      end
  end.

(** [POST /subscription/confirm] *)
Definition confirm (userId : string) (req : ConfirmBody) : M Response :=
  if not_string (razorpay_order_id req)
     || not_string (razorpay_payment_id req)
     || not_string (razorpay_signature req)
  then mret (status_json 400
               (ErrorBody "Missing Razorpay confirmation data"))
  else
    let order_id := default EmptyString (razorpay_order_id req) in
    let payment_id := default EmptyString (razorpay_payment_id req) in
    let expectedSignature :=
      NodeCrypto.createHmac_sha256_hex RAZORPAY_KEY_SECRET
        (order_id ++ "|" ++ payment_id) in
    if negb (bool_decide
               (Some expectedSignature = razorpay_signature req))
    then mret (status_json 400 (ErrorBody "Invalid signature"))
    else
      let finish : M Response :=
        user ← loadUser userId;
        mret (json (UserBody (publicUser <$> user))) in
      try_catch
        (if bool_decide (intent req = Some "plan") then
           match c_planId req ≫= PLANS with
           | None => mret (status_json 400 (ErrorBody "Invalid plan"))
           | Some plan =>
               now ← Date_now;
               _ ← activatePlan userId
                     (ActivePlan.mk (plan_id plan) now
                        (Some (now + THIRTY_DAYS_MS)%Z)
                        (minutesIncluded plan));
               _ ← recordPayment userId
                     (mkPaymentData plan_payment (priceInPaise plan)
                        (Some (plan_id plan)) order_id payment_id);
               finish
           end
         else if bool_decide (intent req = Some "wallet") then
           if not_number (c_amountInPaise req)
           then mret (status_json 400 (ErrorBody "Missing top-up amount"))
           else
             let amount := default 0%Q (c_amountInPaise req) in
             _ ← adjustWallet userId amount;
             _ ← recordPayment userId
                   (mkPaymentData wallet_payment amount None
                      order_id payment_id);
             finish
         else mret (status_json 400 (ErrorBody "Invalid intent")))
        (fun _ =>
           mret (status_json 500 (ErrorBody "Failed to confirm payment"))).

(** [POST /usage/consume].  The route tries the plan, then the trial, then
    the wallet; the branches are written innermost first, each falling
    through to the one defined before it. *)
Definition usage_consume (userId : string) (minutes : option Q)
  : M Response :=
  match Number minutes with
  | NaN => mret (status_json 400 (ErrorBody "Invalid minutes value"))
  | Num usageMinutes =>
    if Qleb usageMinutes 0
    then mret (status_json 400 (ErrorBody "Invalid minutes value"))
    else
      user ← loadUser userId;
      match user with
      | None => mret (status_json 404 (ErrorBody "User not found"))
      | Some user =>
        let wallet_branch : M Response :=
          let costPaise :=
            (inject_Z (Qceiling usageMinutes)
             * WALLET_COST_PER_MINUTE_PAISE)%Q in
          if Qgeb (UserAccount.walletBalancePaise user) costPaise then
            _ ← adjustWallet userId (- costPaise)%Q;
            updated ← loadUser userId;
            mret (json (UsageBody "wallet" (publicUser <$> updated)
                          (Some costPaise)))
          else
            mret (status_json 402
                    (InsufficientBody "Insufficient balance" costPaise)) in
        let trial_branch : M Response :=
          match UserAccount.trial user with
          | Some trial =>
              if TrialInfo.active trial then
                t ← Date_now;
                if (TrialInfo.expiresAt trial >? t)%Z then
                  if Qleb (TrialInfo.consumedMinutes trial + usageMinutes)%Q
                          (TrialInfo.maxMinutes trial)
                  then
                    _ ← consumeTrialMinutes userId usageMinutes;
                    updated ← loadUser userId;
                    mret (json (UsageBody "trial" (publicUser <$> updated)
                                  None))
                  else wallet_branch
                else wallet_branch
              else wallet_branch
          | None => wallet_branch
          end in
        let plan_branch : M Response :=
          match UserAccount.activePlan user with
          | Some plan =>
              if Qgeb (ActivePlan.remainingMinutes plan) usageMinutes then
                _ ← activatePlan userId
                      (ActivePlan.set_remainingMinutes
                         (ActivePlan.remainingMinutes plan - usageMinutes)%Q
                         plan);
                updated ← loadUser userId;
                mret (json (UsageBody "plan" (publicUser <$> updated) None))
              else trial_branch
          | None => trial_branch
          end in
        try_catch plan_branch
          (fun message => mret (status_json 400 (ErrorBody message)))
      end
  end.

End Routes.

(** ** Requests and store calls as data *)

(** A request to one of the routes that touch the ledger. *)
Inductive Request :=
| AuthGoogle (sub : string) (payload : Profile)
| GetStatus (session : option string)
| StartTrial (session : option string)
| Confirm (session : option string) (req : ConfirmBody)
| UsageConsume (session : option string) (minutes : option Q).

Definition handle (key_id key_secret : string) (r : Request) : M Response :=
  match r with
  | AuthGoogle sub payload => auth_google key_id sub payload
  | GetStatus session => requireAuth session (get_status key_id)
  | StartTrial session => requireAuth session start_trial
  | Confirm session req =>
      requireAuth session (fun userId => confirm key_secret userId req)
  | UsageConsume session minutes =>
      requireAuth session (fun userId => usage_consume userId minutes)
  end.

(** A call of one of the exported functions of the store. *)
Inductive LedgerOp :=
| GetOrCreateUser (userId : string) (profile : option Profile)
| RecordPayment (userId : string) (data : PaymentData)
| ActivatePlan (userId : string) (activePlan : ActivePlan.t)
| SetTrialInfo (userId : string) (trial : TrialInfo.t)
| AdjustWallet (userId : string) (deltaPaise : Q)
| ClearTrial (userId : string)
| EnsureActivePlanMinutes (userId : string) (minutes : Q)
| ConsumeTrialMinutes (userId : string) (minutes : Q)
| LoadUser (userId : string).

(** The world after the call, whether it returned or threw. *)
Definition ledger_step (op : LedgerOp) (w : World) : World :=
  match op with
  | GetOrCreateUser userId profile => snd (getOrCreateUser userId profile w)
  | RecordPayment userId data => snd (recordPayment userId data w)
  | ActivatePlan userId plan => snd (activatePlan userId plan w)
  | SetTrialInfo userId trial => snd (setTrialInfo userId trial w)
  | AdjustWallet userId delta => snd (adjustWallet userId delta w)
  | ClearTrial userId => snd (clearTrial userId w)
  | EnsureActivePlanMinutes userId minutes =>
      snd (ensureActivePlanMinutes userId minutes w)
  | ConsumeTrialMinutes userId minutes =>
      snd (consumeTrialMinutes userId minutes w)
  | LoadUser userId => snd (loadUser userId w)
  end.

(** Something that happens to the ledger: a store call or a request. *)
Inductive Operation :=
| Call (op : LedgerOp)
| Serve (key_id key_secret : string) (r : Request).

Definition step (o : Operation) (w : World) : World :=
  match o with
  | Call op => ledger_step op w
  | Serve key_id key_secret r => snd (handle key_id key_secret r w)
  end.

(** The worlds after each operation of a sequence, in order. *)
Fixpoint trace (ops : list Operation) (w : World) : list World :=
  match ops with
  | [] => []
  | o :: ops' => let w1 := step o w in w1 :: trace ops' w1
  end.

(** Every stored wallet balance is at least zero. *)
Definition wallet_ok (users : Users) : Prop :=
  forall userId u,
    users !! userId = Some u -> (0 <= UserAccount.walletBalancePaise u)%Q.

(** A computation keeps a property of the users file. *)
Definition preserves (I : Users -> Prop) {A} (m : M A) : Prop :=
  forall w, I (disk w) -> I (disk (snd (m w))).

(** ** The promise chain of [withLock]

    [chain] starts as a fulfilled promise.  The i-th call [withLock(fn)]
    creates [run = chain.then(fn)] and replaces [chain] by
    [run.catch(() => undefined)], in one synchronous stretch.  So the body
    of the i-th call is started by the reaction of the chain promise left
    by call i-1, which is fulfilled once the [run] promise of call i-1 has
    settled, by fulfilment or by rejection.  A started body is suspended at
    each file operation, and other calls may arrive while it is. *)

Section Lock.
Context {A : Type}.
Local Open Scope list_scope.

(** The state of one call of [withLock]. *)
Inductive Status :=
| Waiting (fn : Task A)      (* [chain.then(fn)] registered, not started *)
| Running (t : Task A)       (* the body, at its next effect *)
| Settled (r : Result A)     (* [run] settled; reaction of [catch] pending *)
| Released (r : Result A).   (* the next chain promise is fulfilled *)

Record Queue := mkQueue { world : World; calls : list Status }.

(** What the event loop can do next. *)
Inductive Label :=
| Arrive (fn : Task A)     (* a caller invokes [withLock(fn)] *)
| Start (i : nat)          (* the reaction of [then] calls the body *)
| IO (i : nat)             (* the running body performs its next effect *)
| Release (i : nat).       (* the reaction of [catch] fulfils the chain *)

(** The chain promise that call [i] was registered on is fulfilled. *)
Definition chain_fulfilled (cs : list Status) (i : nat) : bool :=
  match i with
  | O => true
  | S j => match cs !! j with Some (Released _) => true | _ => false end
  end.

(** One effect of a body, or its completion. *)
Definition advance (t : Task A) (w : World) : Status * World :=
  match t with
  | Return a => (Settled (Ok a), w)
  | Throw e => (Settled (Err e), w)
  | ReadAll k => (Running (k (disk w)), w)
  | WriteAll d k => (Running k, set_disk d w)
  | DateNow k => (Running (k (clock w (reads w))), tick w)
  end.

(** The state after a step, [None] when the step is not enabled. *)
Definition fire (l : Label) (q : Queue) : option Queue :=
  match l with
  | Arrive fn => Some (mkQueue (world q) (calls q ++ [Waiting fn]))
  | Start i =>
      match calls q !! i with
      | Some (Waiting fn) =>
          if chain_fulfilled (calls q) i
          then Some (mkQueue (world q) (<[i := Running fn]> (calls q)))
          else None
      | _ => None
      end
  | IO i =>
      match calls q !! i with
      | Some (Running t) =>
          let '(s, w) := advance t (world q) in
          Some (mkQueue w (<[i := s]> (calls q)))
      | _ => None
      end
  | Release i =>
      match calls q !! i with
      | Some (Settled r) =>
          Some (mkQueue (world q) (<[i := Released r]> (calls q)))
      | _ => None
      end
  end.

Fixpoint exec (ls : list Label) (q : Queue) : option Queue :=
  match ls with
  | [] => Some q
  | l :: ls' => match fire l q with Some q' => exec ls' q' | None => None end
  end.

Definition idle (w : World) : Queue := mkQueue w [].

(** The bodies handed to [withLock], in the order of the calls. *)
Fixpoint arrivals (ls : list Label) : list (Task A) :=
  match ls with
  | [] => []
  | Arrive fn :: ls' => fn :: arrivals ls'
  | _ :: ls' => arrivals ls'
  end.

Definition is_waiting (s : Status) : bool :=
  match s with Waiting _ => true | _ => false end.
Definition is_running (s : Status) : bool :=
  match s with Running _ => true | _ => false end.
Definition is_released (s : Status) : bool :=
  match s with Released _ => true | _ => false end.
Definition result_of (s : Status) : option (Result A) :=
  match s with Settled r | Released r => Some r | _ => None end.

(** Of two calls, the earlier has released the chain or the later has not
    started. *)
Definition ordered (cs : list Status) : Prop :=
  forall i j si sj,
    (i < j)%nat -> cs !! i = Some si -> cs !! j = Some sj ->
    is_released si = true \/ is_waiting sj = true.

(** The bodies run one after the other, each to completion, whether the
    one before returned or threw. *)
Fixpoint seq_run (fns : list (Task A)) (w : World)
  : list (Result A) * World :=
  match fns with
  | [] => ([], w)
  | fn :: fns' =>
      let '(r, w1) := run fn w in
      let '(rs, w2) := seq_run fns' w1 in
      (r :: rs, w2)
  end.

(** What the calls of a queue come to when what is left is run in order. *)
Fixpoint outcome (cs : list Status) (w : World) : list (Result A) * World :=
  match cs with
  | [] => ([], w)
  | Settled r :: cs' | Released r :: cs' =>
      let '(rs, w1) := outcome cs' w in (r :: rs, w1)
  | Waiting t :: cs' | Running t :: cs' =>
      let '(r, w1) := run t w in
      let '(rs, w2) := outcome cs' w1 in
      (r :: rs, w2)
  end.

(** From [q] some steps of the event loop, without further arrivals, lead
    to a queue in which every call has released the chain. *)
Definition completes (q : Queue) : Prop :=
  exists ls q',
    arrivals ls = [] /\ exec ls q = Some q'
    /\ Forall (fun s => is_released s = true) (calls q').

End Lock.
Arguments Status A : clear implicits.
Arguments Queue A : clear implicits.
Arguments Label A : clear implicits.

(** ** Notions used to state the properties *)

(** A mutator neither reads nor rewrites the users file. *)
Definition mutator_local (mutator : Mutator) : Prop :=
  forall u w, disk (snd (run (mutator u) w)) = disk w.

(** The checks of the plan and trial branches of [POST /usage/consume]. *)
Definition plan_covers (user : UserAccount.t) (minutes : Q) : bool :=
  match UserAccount.activePlan user with
  | Some plan => Qgeb (ActivePlan.remainingMinutes plan) minutes
  | None => false
  end.

Definition trial_covers (user : UserAccount.t) (minutes : Q) (t : Z) : bool :=
  match UserAccount.trial user with
  | Some trial =>
      TrialInfo.active trial
      && (TrialInfo.expiresAt trial >? t)%Z
      && Qleb (TrialInfo.consumedMinutes trial + minutes)%Q
              (TrialInfo.maxMinutes trial)
  | None => false
  end.

Definition wallet_cost (minutes : Q) : Q :=
  (inject_Z (Qceiling minutes) * WALLET_COST_PER_MINUTE_PAISE)%Q.

(** The world in which the wallet branch starts: the trial check has read
    the clock when there was an active trial to check. *)
Definition after_trial_check (user : UserAccount.t) (w : World) : World :=
  match UserAccount.trial user with
  | Some trial => if TrialInfo.active trial then tick w else w
  | None => w
  end.

(** What the wallet branch answers for a stored [user]. *)
Definition wallet_outcome (userId : string) (user : UserAccount.t) (m : Q)
    (w : World) : Result Response * World :=
  if Qgeb (UserAccount.walletBalancePaise user) (wallet_cost m) then
    let user' :=
      UserAccount.set_updatedAt (clock w (reads w))
        (UserAccount.set_walletBalancePaise
           (UserAccount.walletBalancePaise user + - wallet_cost m)%Q user) in
    (Ok (json (UsageBody "wallet" (Some (publicUser user'))
                 (Some (wallet_cost m)))),
     set_disk (<[userId := user']> (disk w)) (tick w))
  else
    (Ok (status_json 402
           (InsufficientBody "Insufficient balance" (wallet_cost m))), w).

(** The claim as the specification words it: whenever a trial record
    exists, the request is refused with status 403. *)
Definition start_trial_always_refused : Prop :=
  forall w userId user trial,
    disk w !! userId = Some user ->
    UserAccount.trial user = Some trial ->
    exists b, fst (start_trial userId w) = Ok (status_json 403 b).

Definition trial_holder : UserAccount.t :=
  UserAccount.mk "u1" None None None 0
    (Some (TrialInfo.mk 1000 172801000 0 true 60)) None [] 1000 1001.

Definition during_trial : World :=
  mkWorld {[ "u1" := trial_holder ]} (fun n => 5000 + Z.of_nat n)%Z 0.

(** The signature the route expects for a request. *)
Definition expected_signature (key_secret : string) (req : ConfirmBody)
  : string :=
  NodeCrypto.createHmac_sha256_hex key_secret
    (default EmptyString (razorpay_order_id req) ++ "|"
     ++ default EmptyString (razorpay_payment_id req)).

(** Every stored trial has consumed at most its cap. *)
Definition trial_ok (users : Users) : Prop :=
  forall userId u trial,
    users !! userId = Some u -> UserAccount.trial u = Some trial ->
    (TrialInfo.consumedMinutes trial <= TrialInfo.maxMinutes trial)%Q.

(** The only operation that stores a trial it is handed. *)
Definition respects_cap (o : Operation) : Prop :=
  match o with
  | Call (SetTrialInfo _ trial) =>
      (TrialInfo.consumedMinutes trial <= TrialInfo.maxMinutes trial)%Q
  | _ => True
  end.

(** An account whose trial ran out at time 1000 with its flag still set,
    and a world whose clock starts at 2000. *)
Definition lapsed_holder : UserAccount.t :=
  UserAccount.mk "u2" None None None 500
    (Some (TrialInfo.mk 0 1000 10 true 60)) None [] 0 0.

Definition after_expiry : World :=
  mkWorld {[ "u2" := lapsed_holder ]} (fun n => 2000 + Z.of_nat n)%Z 0.

Definition plan_holder : UserAccount.t :=
  UserAccount.mk "u3" None None None 0 None
    (Some (ActivePlan.mk "editor-basic" 0 (Some 5000%Z) 10)) [] 0 0.

Definition trial_user : UserAccount.t :=
  UserAccount.mk "u4" None None None 0
    (Some (TrialInfo.mk 0 5000 0 true 60)) None [] 0 0.

Definition fraction_world : World :=
  mkWorld {[ "u3" := plan_holder; "u4" := trial_user ]}
          (fun n => 100 + Z.of_nat n)%Z 0.

Definition stored_remainingMinutes (userId : string) (w : World) : option Q :=
  u ← disk w !! userId;
  plan ← UserAccount.activePlan u;
  Some (ActivePlan.remainingMinutes plan).

Definition stored_consumedMinutes (userId : string) (w : World) : option Q :=
  u ← disk w !! userId;
  trial ← UserAccount.trial u;
  Some (TrialInfo.consumedMinutes trial).


Definition no_hints : Profile := mkProfile None None None.

Definition empty_world : World :=
  mkWorld ∅ (fun n => 1000 + Z.of_nat n)%Z 0.

(** [blind x] is [x] with the [expiresAt] of every plan in it forgotten. *)
Class Blind (A : Type) := blind : A -> A.

#[export] Instance blind_plan : Blind ActivePlan.t :=
  ActivePlan.set_expiresAt None.
#[export] Instance blind_option {A} `{Blind A} : Blind (option A) :=
  fmap blind.
#[export] Instance blind_user : Blind UserAccount.t := fun u =>
  UserAccount.set_activePlan (blind (UserAccount.activePlan u)) u.
#[export] Instance blind_public : Blind PublicUser.t := fun u =>
  PublicUser.mk (PublicUser.userId u) (PublicUser.email u)
    (PublicUser.name u) (PublicUser.picture u)
    (PublicUser.walletBalancePaise u) (PublicUser.trial u)
    (blind (PublicUser.activePlan u)) (PublicUser.lowBalance u)
    (PublicUser.paymentHistory u).
#[export] Instance blind_users : Blind Users := fmap blind.
#[export] Instance blind_body : Blind Body := fun b =>
  match b with
  | SessionBody u plans key => SessionBody (blind u) plans key
  | UserBody u => UserBody (blind u)
  | UsageBody source u debited => UsageBody source (blind u) debited
  | ErrorBody _ | InsufficientBody _ _ | TrialBody _ _ => b
  end.
#[export] Instance blind_response : Blind Response := fun r =>
  mkResponse (status r) (blind (body r)).
#[export] Instance blind_result {A} `{Blind A} : Blind (Result A) := fun r =>
  match r with Ok a => Ok (blind a) | Err e => Err e end.
#[export] Instance blind_world : Blind World := fun w =>
  mkWorld (blind (disk w)) (clock w) (reads w).
#[export] Instance blind_pair {A B} `{Blind A, Blind B} : Blind (A * B) :=
  fun p => (blind (fst p), blind (snd p)).
#[export] Instance blind_Z : Blind Z := fun z => z.

(** Two computations that cannot be told apart by someone who does not see
    plan expiries, when started in worlds that such an observer cannot tell
    apart. *)
Definition sim_M {A} `{Blind A} (m m' : M A) : Prop :=
  forall w w', blind w = blind w' -> blind (m w) = blind (m' w').

Definition sim_mutator (mutator mutator' : Mutator) : Prop :=
  forall u u' w w',
    blind u = blind u' -> blind w = blind w' ->
    blind (run (mutator u) w) = blind (run (mutator' u') w').

(** The body that [adjustWallet] hands to [withLock]. *)
Definition adjustWallet_body (userId : string) (deltaPaise : Q)
  : Task UserAccount.t :=
  updateUser_body userId (adjustWallet_mutator deltaPaise).

Definition saver : UserAccount.t :=
  UserAccount.mk "u5" None None None 1000 None None [] 0 0.

Definition saver_world : World :=
  mkWorld {[ "u5" := saver ]} (fun n => 100 + Z.of_nat n)%Z 0.

(** The second call arrives while the first is suspended between its read
    and its write. *)
Definition interleaved : list (Label UserAccount.t) :=
  [ Arrive (adjustWallet_body "u5" 500); Start 0; IO 0;
    Arrive (adjustWallet_body "u5" (-200)); IO 0; IO 0; IO 0; Release 0;
    Start 1; IO 1; IO 1; IO 1; IO 1; Release 1 ].

Definition stored_balance (userId : string) (q : Queue UserAccount.t)
  : option Q :=
  UserAccount.walletBalancePaise <$> disk (world q) !! userId.

Definition doomed_then_fine : list (Label UserAccount.t) :=
  [ Arrive (adjustWallet_body "u5" (-5000));
    Arrive (adjustWallet_body "u5" 500);
    Start 0; IO 0; IO 0; Release 0;
    Start 1; IO 1; IO 1; IO 1; IO 1; Release 1 ].

Definition Result_map {A B} (f : A -> B) (r : Result A) : Result B :=
  match r with Ok a => Ok (f a) | Err e => Err e end.

Definition results_of {A} (q : Queue A) : list (Result A) :=
  omap result_of (calls q).

(** The fallback scenario of the specification: no plan minutes left, an
    active trial at 59 of 60 minutes, 50 paise in the wallet. *)
Definition scenario_plan : ActivePlan.t :=
  ActivePlan.mk "editor-basic" 0 (Some 2592000000%Z) 0.

Definition scenario_trial : TrialInfo.t := TrialInfo.mk 0 172800000 59 true 60.

Definition scenario_account : UserAccount.t :=
  UserAccount.mk "u0" None None None 50 (Some scenario_trial)
    (Some scenario_plan) [] 0 0.

Definition scenario_world : World :=
  mkWorld {[ "u0" := scenario_account ]} (fun n => 1000 + Z.of_nat n)%Z 0.

(** The digest of the confirmation scenario of the specification. *)
Definition scenario_signature : string :=
  "44422d618d76e6e81c5f002f4d5108385750b52eb8db4e9c7a4231ddfac02840".

(** A confirmation of a wallet top-up with a signature that is not the
    digest. *)
Definition forged_confirmation : ConfirmBody :=
  mkConfirmBody (Some "order_1") (Some "pay_1") (Some "deadbeef")
    (Some "wallet") None (Some 10000%Q).

(** A plan that expired at time 50, seen at time 100, and the same plan
    with an expiry far ahead. *)
Definition expired_plan : ActivePlan.t :=
  ActivePlan.mk "creator-pro" 0 (Some 50%Z) 500.

Definition expired_plan_holder : UserAccount.t :=
  UserAccount.mk "u6" None None None 0 None (Some expired_plan) [] 0 0.

Definition expired_plan_world : World :=
  mkWorld {[ "u6" := expired_plan_holder ]} (fun n => 100 + Z.of_nat n)%Z 0.

Definition valid_plan_world : World :=
  mkWorld
    {[ "u6" := UserAccount.set_activePlan
                 (Some (ActivePlan.set_expiresAt (Some 999999%Z) expired_plan))
                 expired_plan_holder ]}
    (fun n => 100 + Z.of_nat n)%Z 0.

(** ** Notions used to state further properties *)

(** The mutators that the exported functions of the store hand to
    [updateUser]. *)
Inductive store_mutator : Mutator -> Prop :=
| sm_recordPayment data : store_mutator (recordPayment_mutator data)
| sm_activatePlan plan : store_mutator (activatePlan_mutator plan)
| sm_setTrialInfo trial : store_mutator (setTrialInfo_mutator trial)
| sm_adjustWallet delta : store_mutator (adjustWallet_mutator delta)
| sm_clearTrial : store_mutator clearTrial_mutator
| sm_ensureActivePlanMinutes minutes :
    store_mutator (ensureActivePlanMinutes_mutator minutes)
| sm_consumeTrialMinutes minutes :
    store_mutator (consumeTrialMinutes_mutator minutes).

(** The account a store call names. *)
Definition op_user (op : LedgerOp) : string :=
  match op with
  | GetOrCreateUser userId _ | RecordPayment userId _
  | ActivatePlan userId _ | SetTrialInfo userId _ | AdjustWallet userId _
  | ClearTrial userId | EnsureActivePlanMinutes userId _
  | ConsumeTrialMinutes userId _ | LoadUser userId => userId
  end.

(** The account a request is made for: the verified subject of a login,
    the user of the session otherwise. *)
Definition request_user (r : Request) : option string :=
  match r with
  | AuthGoogle sub _ => Some sub
  | GetStatus session | StartTrial session | Confirm session _
  | UsageConsume session _ => session
  end.

Definition actor (o : Operation) : option string :=
  match o with
  | Call op => Some (op_user op)
  | Serve _ _ r => request_user r
  end.

(** The operations that can add an account to the file. *)
Definition creates_account (o : Operation) : bool :=
  match o with
  | Call (GetOrCreateUser _ _) | Serve _ _ (AuthGoogle _ _) => true
  | _ => false
  end.

(** Every stored payment history has at most fifty entries. *)
Definition history_ok (users : Users) : Prop :=
  forall userId u,
    users !! userId = Some u ->
    (length (UserAccount.paymentHistory u) <= 50)%nat.

(** Every account is stored under its own id. *)
Definition keys_ok (users : Users) : Prop :=
  forall key u, users !! key = Some u -> UserAccount.userId u = key.

(** A computation that leaves the users file as it finds it. *)
Definition quiet {A} (m : M A) : Prop :=
  forall w, disk (snd (m w)) = disk w.

(** A computation that, once the account exists, answers 200. *)
Definition sure (userId : string) (m : M Response) : Prop :=
  forall w,
    is_Some (disk w !! userId) ->
    exists resp w1, m w = (Ok resp, w1) /\ status resp = 200%nat.

(** A computation that changes the users file only when it answers 200. *)
Definition clean (m : M Response) : Prop :=
  forall w,
    match m w with
    | (Ok resp, w1) => status resp = 200%nat \/ disk w1 = disk w
    | (Err _, w1) => disk w1 = disk w
    end.

(** A store call that either returns with the account in the file or
    throws with the file as it was. *)
Definition commits (userId : string) {A} (m : M A) : Prop :=
  forall w,
    match m w with
    | (Ok _, w1) => is_Some (disk w1 !! userId)
    | (Err _, w1) => disk w1 = disk w
    end.

(** A computation that returns whatever the world. *)
Definition answers {A} (m : M A) : Prop :=
  forall w, exists x w1, m w = (Ok x, w1).

(** Every stored plan has at least zero minutes left. *)
Definition plan_ok (users : Users) : Prop :=
  forall userId u plan,
    users !! userId = Some u -> UserAccount.activePlan u = Some plan ->
    (0 <= ActivePlan.remainingMinutes plan)%Q.

(** The only operation that stores a plan it is handed. *)
Definition respects_plan (o : Operation) : Prop :=
  match o with
  | Call (ActivatePlan _ plan) => (0 <= ActivePlan.remainingMinutes plan)%Q
  | _ => True
  end.

(** ** The client: the minutes it asks for

    [App.tsx], [handleGenerate].  A duration is a JS number as the audio
    element reports it: finite, [Infinity] for a stream without an end, or
    [NaN] while unknown. *)
Inductive jsnum := Finite (q : Q) | Infinity | NotANumber.

(** [x > 0] *)
Definition positive (x : jsnum) : bool :=
  match x with
  | Finite q => Qgtb q 0
  | Infinity => true
  | NotANumber => false
  end.

(** [Math.max(1, Math.ceil(x / 60))] *)
Definition whole_minutes (x : jsnum) : jsnum :=
  match x with
  | Finite q =>
      let c := inject_Z (Qceiling (q / 60)) in
      Finite (if Qltb 1 c then c else 1)
  | Infinity => Infinity
  | NotANumber => NotANumber
  end.

(** [duration && !Number.isNaN(duration)] on [audioRef.current?.duration] *)
Definition usable (duration : option jsnum) : bool :=
  match duration with
  | Some (Finite q) => negb (Qeq_bool q 0)
  | Some Infinity => true
  | Some NotANumber | None => false
  end.

Definition minutesRequired (audioDuration : jsnum) (duration : option jsnum)
  : jsnum :=
  if positive audioDuration then whole_minutes audioDuration
  else if usable duration
       then whole_minutes (default NotANumber duration)
       else Finite 1.

(** The duration the client bills: the one of its state when positive, the
    one of the audio element otherwise. *)
Definition billed_duration (audioDuration : jsnum) (duration : option jsnum)
  : jsnum :=
  if positive audioDuration then audioDuration
  else default NotANumber duration.

(** The trial [t] is the trial [t0] with possibly more minutes consumed. *)
Definition trial_continues (t0 t : TrialInfo.t) : Prop :=
  TrialInfo.startedAt t = TrialInfo.startedAt t0
  /\ TrialInfo.expiresAt t = TrialInfo.expiresAt t0
  /\ TrialInfo.maxMinutes t = TrialInfo.maxMinutes t0
  /\ TrialInfo.active t = TrialInfo.active t0
  /\ (TrialInfo.consumedMinutes t0 <= TrialInfo.consumedMinutes t)%Q.

(** The account [userId] still has the trial [t0], possibly further used. *)
Definition keeps_trial (userId : string) (t0 : TrialInfo.t) (users : Users)
  : Prop :=
  exists u t,
    users !! userId = Some u /\ UserAccount.trial u = Some t
    /\ trial_continues t0 t.

(** ** Concrete data for the further properties *)

(** A payment as [POST /subscription/confirm] records it. *)
Definition topup_payment : PaymentData :=
  mkPaymentData wallet_payment 10000 None "order_1" "pay_1".

(** A confirmed purchase of the plan "creator-pro" and a confirmed top-up of
    150 rupees, both signed for the order and payment of the scenario. *)
Definition plan_confirmation : ConfirmBody :=
  mkConfirmBody (Some "order_1") (Some "pay_1") (Some scenario_signature)
    (Some "plan") (Some "creator-pro") None.

Definition topup_confirmation : ConfirmBody :=
  mkConfirmBody (Some "order_1") (Some "pay_1") (Some scenario_signature)
    (Some "wallet") None (Some 15000%Q).

(** The account of [lapsed_holder] one millisecond before its trial ends,
    with a clock that advances two milliseconds between readings. *)
Definition before_expiry : World :=
  mkWorld {[ "u2" := lapsed_holder ]} (fun n => 999 + 2 * Z.of_nat n)%Z 0.

(** Requests of one session: a second start-trial, then five minutes. *)
Definition trial_requests : list Request :=
  [ StartTrial (Some "u1"); UsageConsume (Some "u1") (Some 5%Q);
    GetStatus (Some "u1") ].

(** The requests that can change a wallet balance, and those that can add
    to a payment history. *)
Definition touches_wallet (r : Request) : bool :=
  match r with
  | UsageConsume _ _ => true
  | Confirm _ req => bool_decide (intent req = Some "wallet")
  | _ => false
  end.

Definition records_payment (r : Request) : bool :=
  match r with
  | Confirm _ _ => true
  | _ => false
  end.

(** The account [userId] is stored and its field [f] has the value [v]. *)
Definition keeps_field {A} (f : UserAccount.t -> A) (userId : string) (v : A)
    (users : Users) : Prop :=
  exists u, users !! userId = Some u /\ f u = v.

(** ** The development login: who counts as local

    [isLocalRequest(req)], on [req.ip] and [req.socket.remoteAddress]. *)

(** [s.substring(n)] *)
Definition substring_from (n : nat) (s : string) : string :=
  String.substring n (String.length s - n) s.

Definition isLocalRequest (ip remoteAddress : option string) : bool :=
  let address := default EmptyString (nullish ip remoteAddress) in
  if String.eqb address EmptyString then false
  else
    let normalized :=
      if String.prefix "::ffff:" address then substring_from 7 address
      else address in
    String.eqb normalized "127.0.0.1" || String.eqb normalized "::1".

(** The account of [lapsed_holder] at the very millisecond its trial
    ends. *)
Definition at_expiry : World :=
  mkWorld {[ "u2" := lapsed_holder ]} (fun _ => 1000%Z) 0.

(** ** Names that every object inherits

    [users[userId]] and [PLANS[planId]] are property reads on plain
    objects: for a name the object does not hold itself they yield what it
    inherits from [Object.prototype], not [undefined].  The users file is
    modelled by its own keys, and the catalogue by its four entries; the
    reads of the code are these lookups for every id that is stored or is
    not one of the inherited names, which are those of Node's
    [Object.prototype]. *)
Definition Object_prototype_names : list string :=
  [ "constructor"; "__defineGetter__"; "__defineSetter__"; "hasOwnProperty";
    "__lookupGetter__"; "__lookupSetter__"; "isPrototypeOf";
    "propertyIsEnumerable"; "toString"; "valueOf"; "__proto__";
    "toLocaleString" ].

Definition inherited (name : string) : bool :=
  existsb (String.eqb name) Object_prototype_names.

(** [users[userId]] is the own-key lookup: the id is stored, or it is
    absent and no inherited name. *)
Definition own_lookup (users : Users) (userId : string) : Prop :=
  is_Some (users !! userId) \/ inherited userId = false.

(** A request whose session id, and plan id if it is a confirmation, is no
    inherited name; an operation on such an id. *)
Definition plain_request (r : Request) : bool :=
  negb (from_option inherited false (request_user r))
  && match r with
     | Confirm _ req => negb (from_option inherited false (c_planId req))
     | _ => true
     end.

Definition plain (o : Operation) : bool :=
  match o with
  | Call op => negb (inherited (op_user op))
  | Serve _ _ r => plain_request r
  end.

(** * Properties *)

(** ** How tasks run *)

Lemma run_bind {A B} (t : Task A) (f : A -> Task B) (w : World) :
  run (t ≫= f) w =
  match run t w with
  | (Ok a, w1) => run (f a) w1
  | (Err e, w1) => (Err e, w1)
  end.
Proof.
  revert w. induction t as [a|m|k IH|d k IH|k IH]; intros w; simpl.
  - reflexivity.
  - reflexivity.
  - apply IH.
  - apply IH.
  - apply IH.
Qed.

Lemma updateUser_unfold (userId : string) (mutator : Mutator) (w : World) :
  updateUser userId mutator w =
  match disk w !! userId with
  | None => (Err ("User " ++ userId ++ " not found"), w)
  | Some existing =>
      match run (mutator existing) w with
      | (Ok existing1, w1) =>
          let existing2 :=
            UserAccount.set_updatedAt (clock w1 (reads w1)) existing1 in
          (Ok existing2,
           set_disk (<[userId := existing2]> (disk w)) (tick w1))
      | (Err e, w1) => (Err e, w1)
      end
  end.
Proof.
  unfold updateUser, withLock, updateUser_body. simpl.
  destruct (disk w !! userId) as [existing|]; [|reflexivity].
  rewrite run_bind.
  destruct (run (mutator existing) w) as [[existing1|e] w1]; reflexivity.
Qed.

Lemma loadUser_unfold (userId : string) (w : World) :
  loadUser userId w = (Ok (disk w !! userId), w).
Proof. reflexivity. Qed.

(** A failed update leaves the file as it was: the rewrite comes after the
    mutator has returned. *)
Lemma updateUser_Err_disk userId mutator w e w1 :
  mutator_local mutator ->
  updateUser userId mutator w = (Err e, w1) -> disk w1 = disk w.
Proof.
  intros Hloc. rewrite updateUser_unfold.
  destruct (disk w !! userId) as [existing|].
  - specialize (Hloc existing w).
    destruct (run (mutator existing) w) as [[existing1|e1] w2];
      simpl in *; intros [= _ <-]; exact Hloc.
  - intros [= _ <-]. reflexivity.
Qed.

Lemma recordPayment_local data : mutator_local (recordPayment_mutator data).
Proof. intros u w. reflexivity. Qed.

Lemma activatePlan_local plan : mutator_local (activatePlan_mutator plan).
Proof. intros u w. reflexivity. Qed.

Lemma setTrialInfo_local trial : mutator_local (setTrialInfo_mutator trial).
Proof. intros u w. reflexivity. Qed.

Lemma adjustWallet_local delta : mutator_local (adjustWallet_mutator delta).
Proof.
  intros u w. unfold adjustWallet_mutator.
  destruct (Qltb _ _); reflexivity.
Qed.

Lemma clearTrial_local : mutator_local clearTrial_mutator.
Proof. intros u w. reflexivity. Qed.

Lemma ensureActivePlanMinutes_local minutes :
  mutator_local (ensureActivePlanMinutes_mutator minutes).
Proof.
  intros u w. unfold ensureActivePlanMinutes_mutator.
  destruct (UserAccount.activePlan u) as [plan|]; [|reflexivity].
  destruct (Qltb _ _); reflexivity.
Qed.

Lemma consumeTrialMinutes_local minutes :
  mutator_local (consumeTrialMinutes_mutator minutes).
Proof.
  intros u w. unfold consumeTrialMinutes_mutator.
  destruct (UserAccount.trial u) as [trial|]; [|reflexivity].
  destruct (TrialInfo.active trial); [|reflexivity]. simpl.
  destruct (_ <? _)%Z; [reflexivity|].
  destruct (Qgtb _ _); reflexivity.
Qed.

Create HintDb ledger.

#[export] Hint Resolve recordPayment_local activatePlan_local
  setTrialInfo_local adjustWallet_local clearTrial_local
  ensureActivePlanMinutes_local consumeTrialMinutes_local : ledger.

(** What [adjustWallet] does, case by case. *)
Lemma adjustWallet_unfold userId deltaPaise w :
  adjustWallet userId deltaPaise w =
  match disk w !! userId with
  | None => (Err ("User " ++ userId ++ " not found"), w)
  | Some existing =>
      let next := (UserAccount.walletBalancePaise existing + deltaPaise)%Q in
      if Qltb next 0 then (Err "Insufficient wallet balance", w)
      else
        let existing2 :=
          UserAccount.set_updatedAt (clock w (reads w))
            (UserAccount.set_walletBalancePaise next existing) in
        (Ok existing2, set_disk (<[userId := existing2]> (disk w)) (tick w))
  end.
Proof.
  unfold adjustWallet. rewrite updateUser_unfold.
  destruct (disk w !! userId) as [existing|]; [|reflexivity].
  unfold adjustWallet_mutator. simpl.
  destruct (Qltb _ _); reflexivity.
Qed.

Lemma Qltb_false (a b : Q) : Qltb a b = false -> (b <= a)%Q.
Proof.
  unfold Qltb. intros H. apply negb_false_iff in H.
  now apply Qle_bool_iff.
Qed.

Lemma Qltb_true (a b : Q) : Qltb a b = true <-> (a < b)%Q.
Proof.
  unfold Qltb. rewrite negb_true_iff. split.
  - intros H. apply Qnot_le_lt. intros Hle.
    apply Qle_bool_iff in Hle. congruence.
  - intros H. destruct (Qle_bool b a) eqn:E; [|reflexivity].
    apply Qle_bool_iff in E. exfalso. eapply Qlt_not_le; eassumption.
Qed.

Lemma Qgtb_true (a b : Q) : Qgtb a b = true <-> (b < a)%Q.
Proof. unfold Qgtb. apply (Qltb_true b a). Qed.

Lemma Qgtb_false (a b : Q) : Qgtb a b = false -> (a <= b)%Q.
Proof. unfold Qgtb. apply (Qltb_false b a). Qed.

Lemma Qgeb_true (a b : Q) : Qgeb a b = true <-> (b <= a)%Q.
Proof. unfold Qgeb. apply Qle_bool_iff. Qed.

Lemma Qleb_true (a b : Q) : Qleb a b = true <-> (a <= b)%Q.
Proof. unfold Qleb. apply Qle_bool_iff. Qed.

(** ** Keeping a property of the file through a computation *)

Section Preserves.
Variable I : Users -> Prop.

Lemma preserves_ret {A} (a : A) : preserves I (mret a).
Proof. intros w H. exact H. Qed.

Lemma preserves_throw {A} (e : string) : preserves I (@throw A e).
Proof. intros w H. exact H. Qed.

Lemma preserves_bind {A B} (m : M A) (f : A -> M B) :
  preserves I m -> (forall a, preserves I (f a)) -> preserves I (m ≫= f).
Proof.
  intros Hm Hf w H. specialize (Hm w H).
  unfold mbind, M_mbind.
  destruct (m w) as [[a|e] w1]; simpl in *; [now apply Hf|exact Hm].
Qed.

Lemma preserves_try_catch {A} (m : M A) (h : string -> M A) :
  preserves I m -> (forall e, preserves I (h e)) ->
  preserves I (try_catch m h).
Proof.
  intros Hm Hh w H. specialize (Hm w H).
  unfold try_catch.
  destruct (m w) as [[a|e] w1]; simpl in *; [exact Hm|now apply Hh].
Qed.

Lemma preserves_Date_now : preserves I Date_now.
Proof. intros w H. exact H. Qed.

Lemma preserves_loadUser userId : preserves I (loadUser userId).
Proof. intros w H. exact H. Qed.

Lemma preserves_requireAuth session next :
  (forall userId, preserves I (next userId)) ->
  preserves I (requireAuth session next).
Proof.
  intros H. destruct session; simpl; [apply H|apply preserves_ret].
Qed.

(** An update keeps [I] when rewriting the updated record does. *)
Lemma preserves_updateUser userId (mutator : Mutator) :
  mutator_local mutator ->
  (forall users u u1 w w1 t,
      I users -> users !! userId = Some u ->
      run (mutator u) w = (Ok u1, w1) ->
      I (<[userId := UserAccount.set_updatedAt t u1]> users)) ->
  preserves I (updateUser userId mutator).
Proof.
  intros Hloc Hmut w H. rewrite updateUser_unfold.
  destruct (disk w !! userId) as [existing|] eqn:Hl; [|exact H].
  pose proof (Hloc existing w) as Hd.
  destruct (run (mutator existing) w) as [[u1|e] w1] eqn:Hr; simpl in *.
  - eapply Hmut; eassumption.
  - now rewrite Hd.
Qed.
End Preserves.

Ltac preserves_step :=
  first
    [ apply preserves_ret
    | apply preserves_throw
    | apply preserves_Date_now
    | apply preserves_loadUser
    | solve [eauto with ledger]
    | apply preserves_requireAuth; intros ?
    | apply preserves_bind; [|intros ?]
    | apply preserves_try_catch; [|intros ?]
    | match goal with
      | |- preserves _ (match ?x with _ => _ end) => destruct x
      end ].

Ltac preserves_route := cbv zeta; repeat preserves_step.

(** ** The wallet balance never goes negative *)

Lemma wallet_ok_insert users userId u :
  wallet_ok users -> (0 <= UserAccount.walletBalancePaise u)%Q ->
  wallet_ok (<[userId := u]> users).
Proof.
  intros Hok Hu k v. rewrite lookup_insert_Some.
  intros [[_ <-]|[_ Hk]]; [exact Hu|exact (Hok k v Hk)].
Qed.

Lemma wallet_ok_getOrCreateUser userId profile :
  preserves wallet_ok (getOrCreateUser userId profile).
Proof.
  intros w H. unfold getOrCreateUser, withLock, getOrCreateUser_body. simpl.
  destruct (disk w !! userId) as [existing|] eqn:Hl.
  - destruct profile as [p|]; simpl; [|exact H].
    apply wallet_ok_insert; [exact H|]. simpl. exact (H _ _ Hl).
  - simpl. apply wallet_ok_insert; [exact H|]. simpl. apply Qle_refl.
Qed.

(** A mutator that leaves the balance alone. *)
Lemma wallet_ok_updateUser_same userId (mutator : Mutator) :
  mutator_local mutator ->
  (forall u u1 w w1,
      run (mutator u) w = (Ok u1, w1) ->
      UserAccount.walletBalancePaise u1 = UserAccount.walletBalancePaise u) ->
  preserves wallet_ok (updateUser userId mutator).
Proof.
  intros Hloc Hsame. apply preserves_updateUser; [exact Hloc|].
  intros users u u1 w w1 t Hok Hl Hr.
  apply wallet_ok_insert; [exact Hok|]. simpl.
  rewrite (Hsame _ _ _ _ Hr). exact (Hok _ _ Hl).
Qed.

Lemma wallet_ok_recordPayment userId data :
  preserves wallet_ok (recordPayment userId data).
Proof.
  apply wallet_ok_updateUser_same; [auto with ledger|].
  intros u u1 w w1 [= <- _]. reflexivity.
Qed.

Lemma wallet_ok_activatePlan userId plan :
  preserves wallet_ok (activatePlan userId plan).
Proof.
  apply wallet_ok_updateUser_same; [auto with ledger|].
  intros u u1 w w1 [= <- _]. reflexivity.
Qed.

Lemma wallet_ok_setTrialInfo userId trial :
  preserves wallet_ok (setTrialInfo userId trial).
Proof.
  apply wallet_ok_updateUser_same; [auto with ledger|].
  intros u u1 w w1 [= <- _]. reflexivity.
Qed.

Lemma wallet_ok_clearTrial userId : preserves wallet_ok (clearTrial userId).
Proof.
  apply wallet_ok_updateUser_same; [auto with ledger|].
  intros u u1 w w1 [= <- _]. reflexivity.
Qed.

Lemma wallet_ok_ensureActivePlanMinutes userId minutes :
  preserves wallet_ok (ensureActivePlanMinutes userId minutes).
Proof.
  apply wallet_ok_updateUser_same; [auto with ledger|].
  intros u u1 w w1. unfold ensureActivePlanMinutes_mutator.
  destruct (UserAccount.activePlan u) as [plan|]; [|discriminate].
  destruct (Qltb _ _); [discriminate|]. intros [= <- _]. reflexivity.
Qed.

Lemma wallet_ok_consumeTrialMinutes userId minutes :
  preserves wallet_ok (consumeTrialMinutes userId minutes).
Proof.
  apply wallet_ok_updateUser_same; [auto with ledger|].
  intros u u1 w w1. unfold consumeTrialMinutes_mutator.
  destruct (UserAccount.trial u) as [trial|]; [|discriminate].
  destruct (TrialInfo.active trial); [|discriminate]. simpl.
  destruct (_ <? _)%Z; [discriminate|].
  destruct (Qgtb _ _); [discriminate|]. intros [= <- _]. reflexivity.
Qed.

Lemma wallet_ok_adjustWallet userId deltaPaise :
  preserves wallet_ok (adjustWallet userId deltaPaise).
Proof.
  apply preserves_updateUser; [auto with ledger|].
  intros users u u1 w w1 t Hok Hl. unfold adjustWallet_mutator.
  destruct (Qltb _ _) eqn:Hn; [discriminate|]. intros [= <- _].
  apply wallet_ok_insert; [exact Hok|]. simpl.
  now apply Qltb_false.
Qed.

#[export] Hint Resolve wallet_ok_getOrCreateUser wallet_ok_recordPayment
  wallet_ok_activatePlan wallet_ok_setTrialInfo wallet_ok_clearTrial
  wallet_ok_ensureActivePlanMinutes wallet_ok_consumeTrialMinutes
  wallet_ok_adjustWallet : ledger.

Lemma wallet_ok_handle key_id key_secret r :
  preserves wallet_ok (handle key_id key_secret r).
Proof.
  destruct r as [sub payload|session|session|session req|session minutes];
    simpl.
  - unfold auth_google. preserves_route.
  - unfold get_status. preserves_route.
  - unfold start_trial. preserves_route.
  - unfold confirm. preserves_route.
  - unfold usage_consume. preserves_route.
Qed.

Lemma wallet_ok_step o w : wallet_ok (disk w) -> wallet_ok (disk (step o w)).
Proof.
  destruct o as [op|key_id key_secret r]; simpl.
  - destruct op; simpl; intros H.
    + now apply wallet_ok_getOrCreateUser.
    + now apply wallet_ok_recordPayment.
    + now apply wallet_ok_activatePlan.
    + now apply wallet_ok_setTrialInfo.
    + now apply wallet_ok_adjustWallet.
    + now apply wallet_ok_clearTrial.
    + now apply wallet_ok_ensureActivePlanMinutes.
    + now apply wallet_ok_consumeTrialMinutes.
    + exact H.
  - apply wallet_ok_handle.
Qed.

(** C2. Whatever sequence of store calls and requests is applied to a file
    whose balances are non-negative, every balance is non-negative after
    each of them; and an [adjustWallet] whose delta would make the balance
    negative throws and leaves the file, record and balance included, exactly
    as it was, since [updateUser] rewrites the file only after the mutator
    has returned. *)
Theorem wallet_balance_never_negative :
  (forall ops w,
      wallet_ok (disk w) ->
      Forall (fun w' => wallet_ok (disk w')) (trace ops w))
  /\ (forall w userId deltaPaise u,
        disk w !! userId = Some u ->
        (UserAccount.walletBalancePaise u + deltaPaise < 0)%Q ->
        adjustWallet userId deltaPaise w
        = (Err "Insufficient wallet balance", w)).
Proof.
  split.
  - intros ops. induction ops as [|o ops IH]; intros w H; simpl.
    + constructor.
    + constructor.
      * now apply wallet_ok_step.
      * apply IH. now apply wallet_ok_step.
  - intros w userId deltaPaise u Hl Hneg.
    rewrite adjustWallet_unfold, Hl. simpl.
    apply Qltb_true in Hneg. now rewrite Hneg.
Qed.

(** ** Entitlement resolution *)

Lemma Qleb_pos_false (m : Q) : (0 < m)%Q -> Qleb m 0 = false.
Proof.
  intros H. destruct (Qleb m 0) eqn:E; [|reflexivity].
  apply Qleb_true in E. exfalso. eapply Qlt_not_le; eassumption.
Qed.

Lemma consume_plan w userId m user plan :
  disk w !! userId = Some user ->
  (0 < m)%Q ->
  UserAccount.activePlan user = Some plan ->
  (m <= ActivePlan.remainingMinutes plan)%Q ->
  let user' :=
    UserAccount.set_updatedAt (clock w (reads w))
      (UserAccount.set_activePlan
         (Some (ActivePlan.set_remainingMinutes
                  (ActivePlan.remainingMinutes plan - m)%Q plan)) user) in
  usage_consume userId (Some m) w
  = (Ok (json (UsageBody "plan" (Some (publicUser user')) None)),
     set_disk (<[userId := user']> (disk w)) (tick w)).
Proof.
  intros Hl Hm Hp Hr user'. unfold usage_consume. simpl.
  rewrite (Qleb_pos_false _ Hm).
  unfold try_catch, mbind, M_mbind. rewrite loadUser_unfold, Hl, Hp.
  apply Qgeb_true in Hr. rewrite Hr.
  unfold activatePlan. rewrite updateUser_unfold, Hl. simpl.
  rewrite lookup_insert_eq. reflexivity.
Qed.

Lemma disk_after_trial_check user w : disk (after_trial_check user w) = disk w.
Proof.
  unfold after_trial_check.
  destruct (UserAccount.trial user) as [trial|]; [|reflexivity].
  destruct (TrialInfo.active trial); reflexivity.
Qed.

Lemma wallet_debit_not_negative (balance cost : Q) :
  Qgeb balance cost = true -> Qltb (balance + - cost) 0 = false.
Proof.
  intros H. apply Qgeb_true in H.
  destruct (Qltb (balance + - cost) 0) eqn:E; [|reflexivity].
  apply Qltb_true in E. lra.
Qed.

Lemma consume_falls_to_wallet w userId m user :
  disk w !! userId = Some user ->
  (0 < m)%Q ->
  plan_covers user m = false ->
  trial_covers user m (clock w (reads w)) = false ->
  usage_consume userId (Some m) w
  = wallet_outcome userId user m (after_trial_check user w).
Proof.
  intros Hl Hm Hp Ht.
  assert (Hwallet : forall w1, disk w1 = disk w ->
    try_catch
      (if Qgeb (UserAccount.walletBalancePaise user) (wallet_cost m) then
         _ ← adjustWallet userId (- wallet_cost m)%Q;
         updated ← loadUser userId;
         mret (json (UsageBody "wallet" (publicUser <$> updated)
                       (Some (wallet_cost m))))
       else
         mret (status_json 402
                 (InsufficientBody "Insufficient balance" (wallet_cost m))))
      (fun message => mret (status_json 400 (ErrorBody message))) w1
    = wallet_outcome userId user m w1).
  { intros w1 Hd. unfold wallet_outcome, try_catch.
    destruct (Qgeb _ _) eqn:Hc; [|reflexivity].
    unfold mbind, M_mbind. rewrite adjustWallet_unfold, Hd, Hl. simpl.
    rewrite (wallet_debit_not_negative _ _ Hc). simpl.
    rewrite lookup_insert_eq. reflexivity. }
  unfold usage_consume. simpl. rewrite (Qleb_pos_false _ Hm).
  unfold mbind at 1. unfold M_mbind at 1. rewrite loadUser_unfold, Hl.
  unfold plan_covers in Hp. unfold trial_covers in Ht.
  unfold after_trial_check. fold (wallet_cost m).
  destruct (UserAccount.activePlan user) as [plan|].
  - rewrite Hp.
    destruct (UserAccount.trial user) as [trial|]; [|now apply Hwallet].
    destruct (TrialInfo.active trial); [|now apply Hwallet].
    simpl in Ht. rewrite <- (Hwallet (tick w) eq_refl).
    unfold try_catch, mbind, M_mbind. simpl.
    destruct (_ >? _)%Z; [|reflexivity].
    simpl in Ht. rewrite Ht. reflexivity.
  - destruct (UserAccount.trial user) as [trial|]; [|now apply Hwallet].
    destruct (TrialInfo.active trial); [|now apply Hwallet].
    simpl in Ht. rewrite <- (Hwallet (tick w) eq_refl).
    unfold try_catch, mbind, M_mbind. simpl.
    destruct (_ >? _)%Z; [|reflexivity].
    simpl in Ht. rewrite Ht. reflexivity.
Qed.



(** ** Starting a trial *)

Lemma start_trial_existing_eq w userId user trial :
  disk w !! userId = Some user ->
  UserAccount.trial user = Some trial ->
  start_trial userId w
  = (Ok (if TrialInfo.active trial
            && (TrialInfo.expiresAt trial >? clock w (reads w))%Z
         then json (TrialBody trial (Some "Trial already active"))
         else status_json 403 (ErrorBody "Trial already used")),
     if TrialInfo.active trial then tick w else w).
Proof.
  intros Hl Ht. unfold start_trial.
  unfold mbind at 1. unfold M_mbind at 1. rewrite loadUser_unfold, Hl, Ht.
  destruct (TrialInfo.active trial); [|reflexivity].
  unfold mbind, M_mbind. simpl.
  destruct (_ >? _)%Z; reflexivity.
Qed.

Lemma start_trial_existing w userId user trial :
  disk w !! userId = Some user ->
  UserAccount.trial user = Some trial ->
  fst (start_trial userId w)
  = Ok (if TrialInfo.active trial
           && (TrialInfo.expiresAt trial >? clock w (reads w))%Z
        then json (TrialBody trial (Some "Trial already active"))
        else status_json 403 (ErrorBody "Trial already used"))
  /\ disk (snd (start_trial userId w)) = disk w.
Proof.
  intros Hl Ht. rewrite (start_trial_existing_eq _ _ _ _ Hl Ht).
  split; [reflexivity|]. simpl. destruct (TrialInfo.active trial); reflexivity.
Qed.

Lemma start_trial_grant_eq w userId user :
  disk w !! userId = Some user ->
  UserAccount.trial user = None ->
  let now := clock w (reads w) in
  let trial := TrialInfo.mk now (now + TRIAL_DURATION_MS)%Z 0 true
                 TRIAL_MINUTES in
  start_trial userId w
  = (Ok (json (TrialBody trial None)),
     set_disk
       (<[userId := UserAccount.set_updatedAt (clock w (S (reads w)))
                      (UserAccount.set_trial (Some trial) user)]> (disk w))
       (tick (tick w))).
Proof.
  intros Hl Ht now0 trial. unfold start_trial.
  unfold mbind at 1. unfold M_mbind at 1. rewrite loadUser_unfold, Hl, Ht.
  unfold mbind, M_mbind, setTrialInfo. simpl.
  rewrite updateUser_unfold. simpl. rewrite Hl. reflexivity.
Qed.

Lemma start_trial_grant w userId user :
  disk w !! userId = Some user ->
  UserAccount.trial user = None ->
  let now := clock w (reads w) in
  let trial := TrialInfo.mk now (now + TRIAL_DURATION_MS)%Z 0 true
                 TRIAL_MINUTES in
  fst (start_trial userId w) = Ok (json (TrialBody trial None))
  /\ disk (snd (start_trial userId w))
     = <[userId := UserAccount.set_updatedAt (clock w (S (reads w)))
                     (UserAccount.set_trial (Some trial) user)]> (disk w).
Proof.
  intros Hl Ht now0 trial. rewrite (start_trial_grant_eq _ _ _ Hl Ht).
  split; reflexivity.
Qed.

(** C3, as stated, fails: while the trial is active and unexpired the
    second request is answered 200 with the existing trial. *)
Lemma start_trial_active_not_refused : ~ start_trial_always_refused.
Proof.
  intros H.
  destruct (H during_trial "u1" trial_holder
              (TrialInfo.mk 1000 172801000 0 true 60) eq_refl eq_refl)
    as [b Hb].
  vm_compute in Hb. discriminate Hb.
Qed.

(** C3, amended.  A start-trial request for an account that already has a
    trial record never changes the users file.  It is refused with 403
    "Trial already used" when the stored trial is inactive or has expired
    ([expiresAt <= now]); while the trial is active and unexpired it is
    answered 200 with the stored trial and "Trial already active".  In
    particular, after a trial has been granted, a second request made once
    the trial has expired is refused with 403. *)
Theorem start_trial_once :
  (forall w userId user trial,
      disk w !! userId = Some user ->
      UserAccount.trial user = Some trial ->
      fst (start_trial userId w)
      = Ok (if TrialInfo.active trial
               && (TrialInfo.expiresAt trial >? clock w (reads w))%Z
            then json (TrialBody trial (Some "Trial already active"))
            else status_json 403 (ErrorBody "Trial already used"))
      /\ disk (snd (start_trial userId w)) = disk w)
  /\ (forall w userId user w2,
        disk w !! userId = Some user ->
        UserAccount.trial user = None ->
        disk w2 = disk (snd (start_trial userId w)) ->
        (clock w (reads w) + TRIAL_DURATION_MS <= clock w2 (reads w2))%Z ->
        fst (start_trial userId w2)
        = Ok (status_json 403 (ErrorBody "Trial already used"))
        /\ disk (snd (start_trial userId w2)) = disk w2).
Proof.
  split; [exact start_trial_existing|].
  intros w userId user w2 Hl Ht Hd Hlate.
  destruct (start_trial_grant w userId user Hl Ht) as [_ Hdisk].
  rewrite Hdisk in Hd.
  assert (Hl2 : disk w2 !! userId
                = Some (UserAccount.set_updatedAt (clock w (S (reads w)))
                          (UserAccount.set_trial
                             (Some (TrialInfo.mk (clock w (reads w))
                                      (clock w (reads w) + TRIAL_DURATION_MS)%Z
                                      0 true TRIAL_MINUTES)) user)))
    by (rewrite Hd; apply lookup_insert_eq).
  pose proof (start_trial_existing w2 userId _ _ Hl2 eq_refl) as Hex.
  simpl in Hex.
  assert (Hf : (clock w (reads w) + TRIAL_DURATION_MS
                >? clock w2 (reads w2))%Z = false)
    by (rewrite Z.gtb_ltb; apply Z.ltb_ge; exact Hlate).
  rewrite Hf in Hex. exact Hex.
Qed.

(** ** Payment confirmation *)

Example sha256_abc :
  NodeCrypto.hex (NodeCrypto.sha256 (NodeCrypto.bytes_of_string "abc"))
  = "ba7816bf8f01cfea414140de5dae2223b00361a396177a9cb410ff61f20015ad".
Proof. vm_compute. reflexivity. Qed.

(** Test case 2 of RFC 4231. *)
Example hmac_sha256_rfc4231_2 :
  NodeCrypto.createHmac_sha256_hex "Jefe" "what do ya want for nothing?"
  = "5bdcc146bf60754e6a042426089575c75a003f089d2739839dec58b964ec3843".
Proof. vm_compute. reflexivity. Qed.

Lemma not_string_present (s : string) :
  s <> EmptyString -> not_string (Some s) = false.
Proof. intros H. simpl. now apply String.eqb_neq. Qed.

(** Any request whose signature is not the expected one is answered 400
    before the ledger is touched. *)
Lemma confirm_rejects key_secret userId req w :
  razorpay_signature req <> Some (expected_signature key_secret req) ->
  exists e, confirm key_secret userId req w
            = (Ok (status_json 400 (ErrorBody e)), w).
Proof.
  intros Hs. unfold confirm.
  destruct (_ || _); [eexists; reflexivity|].
  fold (expected_signature key_secret req).
  rewrite bool_decide_eq_false_2 by congruence.
  eexists; reflexivity.
Qed.

Lemma confirm_invalid_signature key_secret userId req o p s w :
  razorpay_order_id req = Some o -> o <> EmptyString ->
  razorpay_payment_id req = Some p -> p <> EmptyString ->
  razorpay_signature req = Some s -> s <> EmptyString ->
  s <> NodeCrypto.createHmac_sha256_hex key_secret (o ++ "|" ++ p) ->
  confirm key_secret userId req w
  = (Ok (status_json 400 (ErrorBody "Invalid signature")), w).
Proof.
  intros Ho Ho' Hp Hp' Hs Hs' Hne. unfold confirm.
  rewrite Ho, Hp, Hs, !not_string_present by assumption.
  cbn [orb default from_option id].
  rewrite bool_decide_eq_false_2 by congruence.
  reflexivity.
Qed.

Lemma scenario_digest :
  NodeCrypto.createHmac_sha256_hex "s3cret" ("order_1" ++ "|" ++ "pay_1")
  = scenario_signature.
Proof. vm_compute. reflexivity. Qed.

(** With the expected signature, a wallet top-up in the scenario of the
    specification is applied to the ledger. *)
Lemma confirm_scenario_accepted userId req amount user w :
  razorpay_order_id req = Some "order_1" ->
  razorpay_payment_id req = Some "pay_1" ->
  razorpay_signature req = Some scenario_signature ->
  intent req = Some "wallet" ->
  c_amountInPaise req = Some amount ->
  (0 < amount)%Q ->
  (0 <= UserAccount.walletBalancePaise user)%Q ->
  disk w !! userId = Some user ->
  exists user',
    disk (snd (confirm "s3cret" userId req w)) !! userId = Some user'
    /\ UserAccount.walletBalancePaise user'
       = (UserAccount.walletBalancePaise user + amount)%Q
    /\ fst (confirm "s3cret" userId req w)
       = Ok (json (UserBody (Some (publicUser user')))).
Proof.
  intros Ho Hp Hs Hi Ha Hpos Hbal Hl. unfold confirm.
  rewrite Ho, Hp, Hs, !not_string_present by discriminate.
  cbn [orb default from_option id].
  rewrite scenario_digest.
  rewrite bool_decide_eq_true_2 by reflexivity. cbn [negb].
  rewrite Hi, Ha.
  rewrite bool_decide_eq_false_2 by discriminate.
  rewrite bool_decide_eq_true_2 by reflexivity.
  assert (Hnz : not_number (Some amount) = false).
  { cbn [not_number]. destruct (Qeq_bool amount 0) eqn:E; [|reflexivity].
    apply Qeq_bool_iff in E. lra. }
  rewrite Hnz. cbn [default from_option id].
  unfold try_catch, mbind, M_mbind.
  rewrite adjustWallet_unfold, Hl. cbv zeta.
  assert (Hok : Qltb (UserAccount.walletBalancePaise user + amount) 0
                = false).
  { destruct (Qltb _ _) eqn:E; [|reflexivity]. apply Qltb_true in E. lra. }
  rewrite Hok.
  unfold recordPayment. rewrite updateUser_unfold.
  cbn [disk set_disk tick]. rewrite lookup_insert_eq.
  simpl. rewrite lookup_insert_eq.
  eexists. split; [reflexivity|]. split; reflexivity.
Qed.

(** C4. For a confirmation request carrying order id [o], payment id [p] and
    signature [s], the route expects the HMAC-SHA256 hex digest of ["o|p"]
    under the gateway secret; a different [s] is answered 400 "Invalid
    signature" and nothing is read from or written to the ledger.  For
    ["order_1"], ["pay_1"] and the secret ["s3cret"] the digest is
    [44422d61...2840]: every other signature is rejected, and with this one
    a wallet top-up is applied. *)
Theorem confirm_checks_signature :
  (forall key_secret userId req o p s w,
      razorpay_order_id req = Some o -> o <> EmptyString ->
      razorpay_payment_id req = Some p -> p <> EmptyString ->
      razorpay_signature req = Some s -> s <> EmptyString ->
      s <> NodeCrypto.createHmac_sha256_hex key_secret (o ++ "|" ++ p) ->
      confirm key_secret userId req w
      = (Ok (status_json 400 (ErrorBody "Invalid signature")), w))
  /\ NodeCrypto.createHmac_sha256_hex "s3cret" "order_1|pay_1"
     = "44422d618d76e6e81c5f002f4d5108385750b52eb8db4e9c7a4231ddfac02840"
  /\ (forall userId req s w,
        razorpay_order_id req = Some "order_1" ->
        razorpay_payment_id req = Some "pay_1" ->
        razorpay_signature req = Some s -> s <> EmptyString ->
        s <> scenario_signature ->
        confirm "s3cret" userId req w
        = (Ok (status_json 400 (ErrorBody "Invalid signature")), w))
  /\ (forall userId req amount user w,
        razorpay_order_id req = Some "order_1" ->
        razorpay_payment_id req = Some "pay_1" ->
        razorpay_signature req = Some scenario_signature ->
        intent req = Some "wallet" ->
        c_amountInPaise req = Some amount ->
        (0 < amount)%Q ->
        (0 <= UserAccount.walletBalancePaise user)%Q ->
        disk w !! userId = Some user ->
        exists user',
          disk (snd (confirm "s3cret" userId req w)) !! userId = Some user'
          /\ UserAccount.walletBalancePaise user'
             = (UserAccount.walletBalancePaise user + amount)%Q
          /\ fst (confirm "s3cret" userId req w)
             = Ok (json (UserBody (Some (publicUser user'))))).
Proof.
  split; [exact confirm_invalid_signature|].
  split; [exact scenario_digest|].
  split; [|exact confirm_scenario_accepted].
  intros userId req s w Ho Hp Hs Hs' Hne.
  apply (confirm_invalid_signature "s3cret" userId req "order_1" "pay_1" s);
    [exact Ho|discriminate|exact Hp|discriminate|exact Hs|exact Hs'|].
  rewrite scenario_digest. exact Hne.
Qed.

(** ** Trial minutes *)

Lemma consumeTrialMinutes_unfold userId minutes w :
  consumeTrialMinutes userId minutes w =
  match disk w !! userId with
  | None => (Err ("User " ++ userId ++ " not found"), w)
  | Some existing =>
      match UserAccount.trial existing with
      | None => (Err "Trial inactive", w)
      | Some trial =>
          if negb (TrialInfo.active trial) then (Err "Trial inactive", w)
          else if (TrialInfo.expiresAt trial <? clock w (reads w))%Z
          then (Err "Trial expired", tick w)
          else if Qgtb (TrialInfo.consumedMinutes trial + minutes)%Q
                       (TrialInfo.maxMinutes trial)
          then (Err "Trial minutes exceeded", tick w)
          else
            let existing2 :=
              UserAccount.set_updatedAt (clock w (S (reads w)))
                (UserAccount.set_trial
                   (Some (TrialInfo.set_consumedMinutes
                            (TrialInfo.consumedMinutes trial + minutes)%Q
                            trial)) existing) in
            (Ok existing2,
             set_disk (<[userId := existing2]> (disk w)) (tick (tick w)))
      end
  end.
Proof.
  unfold consumeTrialMinutes. rewrite updateUser_unfold.
  destruct (disk w !! userId) as [existing|]; [|reflexivity].
  unfold consumeTrialMinutes_mutator.
  destruct (UserAccount.trial existing) as [trial|]; [|reflexivity].
  destruct (TrialInfo.active trial); [|reflexivity]. simpl.
  destruct (_ <? _)%Z; [reflexivity|].
  destruct (Qgtb _ _); reflexivity.
Qed.

Lemma trial_ok_insert users userId u :
  trial_ok users ->
  (forall trial, UserAccount.trial u = Some trial ->
     (TrialInfo.consumedMinutes trial <= TrialInfo.maxMinutes trial)%Q) ->
  trial_ok (<[userId := u]> users).
Proof.
  intros Hok Hu k v trial. rewrite lookup_insert_Some.
  intros [[_ <-]|[_ Hk]]; [apply Hu|exact (Hok k v trial Hk)].
Qed.

Lemma trial_ok_consumeTrialMinutes userId minutes :
  preserves trial_ok (consumeTrialMinutes userId minutes).
Proof.
  intros w H. rewrite consumeTrialMinutes_unfold.
  destruct (disk w !! userId) as [existing|]; [|exact H].
  destruct (UserAccount.trial existing) as [trial|]; [|exact H].
  destruct (negb _); [exact H|].
  destruct (_ <? _)%Z; [exact H|].
  destruct (Qgtb _ _) eqn:Hcap; [exact H|].
  simpl. apply trial_ok_insert; [exact H|].
  simpl. intros trial' [= <-]. simpl. now apply Qgtb_false.
Qed.

Lemma trial_ok_getOrCreateUser userId profile :
  preserves trial_ok (getOrCreateUser userId profile).
Proof.
  intros w H. unfold getOrCreateUser, withLock, getOrCreateUser_body. simpl.
  destruct (disk w !! userId) as [existing|] eqn:Hl.
  - destruct profile as [p|]; simpl; [|exact H].
    apply trial_ok_insert; [exact H|]. simpl.
    intros trial. exact (H _ _ trial Hl).
  - simpl. apply trial_ok_insert; [exact H|]. simpl. discriminate.
Qed.

(** A mutator that leaves the trial alone. *)
Lemma trial_ok_updateUser_same userId (mutator : Mutator) :
  mutator_local mutator ->
  (forall u u1 w w1,
      run (mutator u) w = (Ok u1, w1) ->
      UserAccount.trial u1 = UserAccount.trial u) ->
  preserves trial_ok (updateUser userId mutator).
Proof.
  intros Hloc Hsame. apply preserves_updateUser; [exact Hloc|].
  intros users u u1 w w1 t Hok Hl Hr.
  apply trial_ok_insert; [exact Hok|]. simpl.
  rewrite (Hsame _ _ _ _ Hr). intros trial. exact (Hok _ _ trial Hl).
Qed.

Lemma trial_ok_recordPayment userId data :
  preserves trial_ok (recordPayment userId data).
Proof.
  apply trial_ok_updateUser_same; [auto with ledger|].
  intros u u1 w w1 [= <- _]. reflexivity.
Qed.

Lemma trial_ok_activatePlan userId plan :
  preserves trial_ok (activatePlan userId plan).
Proof.
  apply trial_ok_updateUser_same; [auto with ledger|].
  intros u u1 w w1 [= <- _]. reflexivity.
Qed.

Lemma trial_ok_adjustWallet userId deltaPaise :
  preserves trial_ok (adjustWallet userId deltaPaise).
Proof.
  apply trial_ok_updateUser_same; [auto with ledger|].
  intros u u1 w w1. unfold adjustWallet_mutator.
  destruct (Qltb _ _); [discriminate|]. intros [= <- _]. reflexivity.
Qed.

Lemma trial_ok_ensureActivePlanMinutes userId minutes :
  preserves trial_ok (ensureActivePlanMinutes userId minutes).
Proof.
  apply trial_ok_updateUser_same; [auto with ledger|].
  intros u u1 w w1. unfold ensureActivePlanMinutes_mutator.
  destruct (UserAccount.activePlan u) as [plan|]; [|discriminate].
  destruct (Qltb _ _); [discriminate|]. intros [= <- _]. reflexivity.
Qed.

Lemma trial_ok_clearTrial userId : preserves trial_ok (clearTrial userId).
Proof.
  apply preserves_updateUser; [auto with ledger|].
  intros users u u1 w w1 t Hok Hl [= <- _].
  apply trial_ok_insert; [exact Hok|]. simpl. discriminate.
Qed.

Lemma trial_ok_setTrialInfo userId trial :
  (TrialInfo.consumedMinutes trial <= TrialInfo.maxMinutes trial)%Q ->
  preserves trial_ok (setTrialInfo userId trial).
Proof.
  intros Hcap. apply preserves_updateUser; [auto with ledger|].
  intros users u u1 w w1 t Hok Hl [= <- _].
  apply trial_ok_insert; [exact Hok|]. simpl. now intros trial' [= <-].
Qed.

(** The trial that [POST /subscription/start-trial] grants. *)
Lemma trial_ok_grant userId now :
  preserves trial_ok
    (setTrialInfo userId
       (TrialInfo.mk now (now + TRIAL_DURATION_MS)%Z 0 true TRIAL_MINUTES)).
Proof. apply trial_ok_setTrialInfo. simpl. discriminate. Qed.

#[export] Hint Resolve trial_ok_getOrCreateUser trial_ok_recordPayment
  trial_ok_activatePlan trial_ok_adjustWallet trial_ok_clearTrial
  trial_ok_ensureActivePlanMinutes trial_ok_consumeTrialMinutes
  trial_ok_grant : ledger.

Lemma trial_ok_handle key_id key_secret r :
  preserves trial_ok (handle key_id key_secret r).
Proof.
  destruct r as [sub payload|session|session|session req|session minutes];
    simpl.
  - unfold auth_google. preserves_route.
  - unfold get_status. preserves_route.
  - unfold start_trial. preserves_route.
  - unfold confirm. preserves_route.
  - unfold usage_consume. preserves_route.
Qed.

Lemma trial_ok_step o w :
  respects_cap o -> trial_ok (disk w) -> trial_ok (disk (step o w)).
Proof.
  destruct o as [op|key_id key_secret r]; simpl.
  - destruct op; simpl; intros Hcap H.
    + now apply trial_ok_getOrCreateUser.
    + now apply trial_ok_recordPayment.
    + now apply trial_ok_activatePlan.
    + now apply trial_ok_setTrialInfo.
    + now apply trial_ok_adjustWallet.
    + now apply trial_ok_clearTrial.
    + now apply trial_ok_ensureActivePlanMinutes.
    + now apply trial_ok_consumeTrialMinutes.
    + exact H.
  - intros _. apply trial_ok_handle.
Qed.

(** C6. [consumeTrialMinutes] keeps [consumedMinutes <= maxMinutes] in every
    stored trial: a call that returns leaves the trial it updated within its
    cap, and a call for an amount that would pass the cap throws and leaves
    the users file, hence [consumedMinutes] and the rest of the trial, as it
    was.  The bound also survives every sequence of requests and store calls
    that hands [setTrialInfo] only trials within their cap. *)
Theorem trial_cap_respected :
  (forall w userId minutes,
      trial_ok (disk w) ->
      trial_ok (disk (snd (consumeTrialMinutes userId minutes w))))
  /\ (forall w userId minutes u w',
        consumeTrialMinutes userId minutes w = (Ok u, w') ->
        disk w' !! userId = Some u
        /\ exists trial,
            UserAccount.trial u = Some trial
            /\ (TrialInfo.consumedMinutes trial
                <= TrialInfo.maxMinutes trial)%Q)
  /\ (forall w userId minutes u trial,
        disk w !! userId = Some u ->
        UserAccount.trial u = Some trial ->
        (TrialInfo.maxMinutes trial
         < TrialInfo.consumedMinutes trial + minutes)%Q ->
        (exists e, fst (consumeTrialMinutes userId minutes w) = Err e)
        /\ disk (snd (consumeTrialMinutes userId minutes w)) = disk w)
  /\ (forall ops w,
        Forall respects_cap ops ->
        trial_ok (disk w) ->
        Forall (fun w' => trial_ok (disk w')) (trace ops w)).
Proof.
  split; [|split; [|split]].
  - intros w userId minutes. apply trial_ok_consumeTrialMinutes.
  - intros w userId minutes u w'. rewrite consumeTrialMinutes_unfold.
    destruct (disk w !! userId) as [existing|]; [|discriminate].
    destruct (UserAccount.trial existing) as [trial|]; [|discriminate].
    destruct (negb _); [discriminate|].
    destruct (_ <? _)%Z; [discriminate|].
    destruct (Qgtb _ _) eqn:Hcap; [discriminate|].
    simpl. intros [= <- <-]. simpl. split; [apply lookup_insert_eq|].
    eexists. split; [reflexivity|]. simpl. now apply Qgtb_false.
  - intros w userId minutes u trial Hl Ht Hover.
    rewrite consumeTrialMinutes_unfold, Hl, Ht.
    destruct (negb _); [split; [eexists|]; reflexivity|].
    destruct (_ <? _)%Z; [split; [eexists|]; reflexivity|].
    apply Qgtb_true in Hover. rewrite Hover.
    split; [eexists|]; reflexivity.
  - intros ops. induction ops as [|o ops IH]; intros w Hcaps H; simpl.
    + constructor.
    + inversion Hcaps as [|? ? Ho Hops]; subst.
      constructor.
      * now apply trial_ok_step.
      * apply IH; [exact Hops|]. now apply trial_ok_step.
Qed.

(** ** An expired trial *)

Lemma wallet_outcome_keeps_trial userId user m w :
  disk w !! userId = Some user ->
  UserAccount.trial <$> disk (snd (wallet_outcome userId user m w)) !! userId
  = Some (UserAccount.trial user).
Proof.
  intros Hl. unfold wallet_outcome.
  destruct (Qgeb _ _); simpl.
  - rewrite lookup_insert_eq. reflexivity.
  - rewrite Hl. reflexivity.
Qed.

(** With an expired trial the request goes to the wallet branch, and the
    stored trial is what it was, [active] included. *)
Lemma consume_expired_trial w userId m user trial :
  disk w !! userId = Some user ->
  (0 < m)%Q ->
  plan_covers user m = false ->
  UserAccount.trial user = Some trial ->
  (TrialInfo.expiresAt trial <= clock w (reads w))%Z ->
  usage_consume userId (Some m) w
  = wallet_outcome userId user m (after_trial_check user w)
  /\ UserAccount.trial
       <$> disk (snd (usage_consume userId (Some m) w)) !! userId
     = Some (Some trial).
Proof.
  intros Hl Hm Hp Ht Hexp.
  assert (Hc : trial_covers user m (clock w (reads w)) = false).
  { unfold trial_covers. rewrite Ht.
    replace (TrialInfo.expiresAt trial >? clock w (reads w))%Z with false
      by (symmetry; rewrite Z.gtb_ltb; now apply Z.ltb_ge).
    now rewrite andb_false_r. }
  rewrite (consume_falls_to_wallet _ _ _ _ Hl Hm Hp Hc).
  split; [reflexivity|].
  rewrite wallet_outcome_keeps_trial, Ht; [reflexivity|].
  now rewrite disk_after_trial_check.
Qed.

(** C7 at the failing input: the request is paid from the wallet, and the
    trial stored afterwards still has [active = true]; the store call that
    sets the flag throws "Trial expired" before anything is written. *)
Theorem consume_expired_trial_flag_not_stored :
  fst (usage_consume "u2" (Some 1%Q) after_expiry)
  = Ok (json (UsageBody "wallet"
                (Some (publicUser
                         (UserAccount.mk "u2" None None None (500 + - 100)%Q
                            (Some (TrialInfo.mk 0 1000 10 true 60)) None []
                            0 2001)))
                (Some 100%Q)))
  /\ (UserAccount.trial <$>
        disk (snd (usage_consume "u2" (Some 1%Q) after_expiry)) !! "u2")
     = Some (Some (TrialInfo.mk 0 1000 10 true 60))
  /\ fst (consumeTrialMinutes "u2" 1 after_expiry) = Err "Trial expired"
  /\ disk (snd (consumeTrialMinutes "u2" 1 after_expiry))
     = disk after_expiry.
Proof. repeat split; vm_compute; reflexivity. Qed.

(** ** Fractional minutes *)

(** C5 at the failing input: half a minute requested.  The plan is charged
    half a minute (10 becomes 9.5, not 9) and the trial half a minute (0
    becomes 0.5, not 1); only the wallet cost is computed from the rounded-up
    minute. *)
Theorem consume_fraction_not_rounded :
  (exists r,
      stored_remainingMinutes "u3"
        (snd (usage_consume "u3" (Some (1 # 2)) fraction_world)) = Some r
      /\ (r == 19 # 2)%Q /\ ~ (r == 10 - 1)%Q)
  /\ (exists c,
        stored_consumedMinutes "u4"
          (snd (usage_consume "u4" (Some (1 # 2)) fraction_world)) = Some c
        /\ (c == 1 # 2)%Q /\ ~ (c == 0 + 1)%Q)
  /\ (wallet_cost (1 # 2) == 100)%Q.
Proof.
  split; [|split].
  - eexists. split; [vm_compute; reflexivity|]. split; [reflexivity|].
    intros H. vm_compute in H. discriminate H.
  - eexists. split; [vm_compute; reflexivity|]. split; [reflexivity|].
    intros H. vm_compute in H. discriminate H.
  - reflexivity.
Qed.

(** ** Creating an account once *)

Lemma getOrCreateUser_unfold userId profile w :
  getOrCreateUser userId profile w =
  match disk w !! userId with
  | Some existing =>
      match profile with
      | Some p =>
          let existing2 :=
            UserAccount.set_updatedAt (clock w (reads w))
              (UserAccount.set_profile
                 (nullish (p_email p) (UserAccount.email existing))
                 (nullish (p_name p) (UserAccount.name existing))
                 (nullish (p_picture p) (UserAccount.picture existing))
                 existing) in
          (Ok existing2,
           set_disk (<[userId := existing2]> (disk w)) (tick w))
      | None => (Ok existing, w)
      end
  | None =>
      let fresh :=
        UserAccount.mk userId
          (profile ≫= p_email) (profile ≫= p_name) (profile ≫= p_picture)
          0 None None [] (clock w (reads w)) (clock w (S (reads w))) in
      (Ok fresh, set_disk (<[userId := fresh]> (disk w)) (tick (tick w)))
  end.
Proof.
  unfold getOrCreateUser, withLock, getOrCreateUser_body. simpl.
  destruct (disk w !! userId) as [existing|]; [|reflexivity].
  destruct profile; reflexivity.
Qed.



(** ** The expiry of a plan is never consulted *)

Create HintDb blind.

Lemma blind_world_inv w w' :
  blind w = blind w' ->
  blind (disk w) = blind (disk w') /\ clock w = clock w' /\ reads w = reads w'.
Proof. intros [= Hd Hc Hr]. auto. Qed.

Lemma blind_lookup (users users' : Users) userId :
  blind users = blind users' ->
  blind (users !! userId) = blind (users' !! userId).
Proof.
  intros H. unfold blind, blind_option.
  rewrite <- !lookup_fmap. unfold blind, blind_users in H. now rewrite H.
Qed.

Lemma blind_insert (users users' : Users) userId u u' :
  blind users = blind users' -> blind u = blind u' ->
  blind (<[userId := u]> users) = blind (<[userId := u']> users').
Proof.
  unfold blind at 1 2 5 6, blind_users. intros H Hu.
  rewrite !fmap_insert. now rewrite H, Hu.
Qed.

Section Sim.
Context {A B : Type} `{Blind A, Blind B}.

Lemma sim_ret (a a' : A) : blind a = blind a' -> sim_M (mret a) (mret a').
Proof.
  intros Ha w w' Hw.
  change ((Ok (blind a), blind w) = (Ok (blind a'), blind w')).
  now rewrite Ha, Hw.
Qed.

Lemma blind_out_inv (r r' : Result A) (w w' : World) :
  blind (r, w) = blind (r', w') ->
  blind w = blind w'
  /\ match r, r' with
     | Ok a, Ok a' => blind a = blind a'
     | Err e, Err e' => e = e'
     | _, _ => False
     end.
Proof.
  intros Hout.
  assert (Hr : blind r = blind r') by exact (f_equal fst Hout).
  assert (Hw : blind w = blind w') by exact (f_equal snd Hout).
  split; [exact Hw|].
  destruct r as [a|e], r' as [a'|e']; simpl in Hr;
    try discriminate Hr; now injection Hr.
Qed.

Lemma sim_bind (m m' : M A) (f f' : A -> M B) :
  sim_M m m' ->
  (forall a a', blind a = blind a' -> sim_M (f a) (f' a')) ->
  sim_M (m ≫= f) (m' ≫= f').
Proof.
  intros Hm Hf w w' Hw. specialize (Hm w w' Hw).
  unfold mbind, M_mbind.
  destruct (m w) as [r w1], (m' w') as [r' w1'].
  apply blind_out_inv in Hm as [Hw1 Hr].
  destruct r as [a|e], r' as [a'|e']; try contradiction.
  - now apply Hf.
  - subst e'.
    change ((Err e, blind w1) = (@Err B e, blind w1')). now rewrite Hw1.
Qed.

Lemma sim_try_catch (m m' : M A) (h h' : string -> M A) :
  sim_M m m' -> (forall e, sim_M (h e) (h' e)) ->
  sim_M (try_catch m h) (try_catch m' h').
Proof.
  intros Hm Hh w w' Hw. specialize (Hm w w' Hw).
  unfold try_catch.
  destruct (m w) as [r w1], (m' w') as [r' w1'].
  apply blind_out_inv in Hm as [Hw1 Hr].
  destruct r as [a|e], r' as [a'|e']; try contradiction.
  - change ((Ok (blind a), blind w1) = (Ok (blind a'), blind w1')).
    now rewrite Hr, Hw1.
  - subst e'. now apply Hh.
Qed.
End Sim.

Lemma sim_Date_now : sim_M Date_now Date_now.
Proof.
  intros w w' Hw. destruct w as [d c r], w' as [d' c' r'].
  injection Hw as Hd -> ->.
  change ((Ok (c' r'), mkWorld (blind d) c' (S r'))
          = (Ok (c' r'), mkWorld (blind d') c' (S r'))).
  now rewrite Hd.
Qed.

Lemma blind_tick w w' : blind w = blind w' -> blind (tick w) = blind (tick w').
Proof.
  destruct w as [d c r], w' as [d' c' r']. intros [= Hd -> ->].
  change (mkWorld (blind d) c' (S r') = mkWorld (blind d') c' (S r')).
  now rewrite Hd.
Qed.

Lemma blind_set_disk w w' d d' :
  blind w = blind w' -> blind d = blind d' ->
  blind (set_disk d w) = blind (set_disk d' w').
Proof.
  destruct w as [d0 c r], w' as [d0' c' r']. intros [= _ -> ->] Hd.
  change (mkWorld (blind d) c' r' = mkWorld (blind d') c' r').
  now rewrite Hd.
Qed.

Lemma sim_loadUser userId : sim_M (loadUser userId) (loadUser userId).
Proof.
  intros w w' Hw. pose proof (blind_world_inv _ _ Hw) as (Hd & Hc & Hr).
  rewrite !loadUser_unfold.
  change ((Ok (blind (disk w !! userId)), blind w)
          = (Ok (blind (disk w' !! userId)), blind w')).
  now rewrite (blind_lookup _ _ userId Hd), Hw.
Qed.

Lemma blind_Some_inv {A} `{Blind A} (a a' : A) :
  blind (Some a) = blind (Some a') -> blind a = blind a'.
Proof.
  intros Hs. change (Some (blind a) = Some (blind a')) in Hs.
  now injection Hs.
Qed.

Lemma blind_set_updatedAt t u u' :
  blind u = blind u' ->
  blind (UserAccount.set_updatedAt t u)
  = blind (UserAccount.set_updatedAt t u').
Proof.
  destruct u, u'. unfold blind, blind_user. simpl.
  intros [= -> -> -> -> -> -> Hp -> ->].
  now rewrite Hp.
Qed.

Lemma blind_out_Ok {A} `{Blind A} (a a' : A) (w w' : World) :
  blind a = blind a' -> blind w = blind w' ->
  blind (Ok a, w) = blind (Ok a', w').
Proof.
  intros Ha Hw. change ((Ok (blind a), blind w) = (Ok (blind a'), blind w')).
  now rewrite Ha, Hw.
Qed.

Lemma blind_out_Err {A} `{Blind A} (e : string) (w w' : World) :
  blind w = blind w' -> blind (@Err A e, w) = blind (@Err A e, w').
Proof.
  intros Hw. change ((@Err A e, blind w) = (@Err A e, blind w')).
  now rewrite Hw.
Qed.

Ltac blind_out :=
  first [ apply blind_out_Err | apply blind_out_Ok ];
  auto using blind_tick.

Lemma sim_updateUser userId mutator mutator' :
  sim_mutator mutator mutator' ->
  sim_M (updateUser userId mutator) (updateUser userId mutator').
Proof.
  intros Hmut w w' Hw. pose proof (blind_world_inv _ _ Hw) as (Hd & Hc & Hr).
  rewrite !updateUser_unfold.
  pose proof (blind_lookup _ _ userId Hd) as Hl.
  destruct (disk w !! userId) as [u|], (disk w' !! userId) as [u'|];
    try discriminate Hl.
  - apply blind_Some_inv in Hl as Hu. specialize (Hmut u u' w w' Hu Hw).
    destruct (run (mutator u) w) as [r w1],
             (run (mutator' u') w') as [r' w1'].
    apply blind_out_inv in Hmut as [Hw1 Hres].
    pose proof (blind_world_inv _ _ Hw1) as (Hd1 & Hc1 & Hr1).
    destruct r as [u1|e], r' as [u1'|e']; try contradiction.
    + cbv zeta. rewrite Hc1, Hr1. apply blind_out_Ok.
      * now apply blind_set_updatedAt.
      * apply blind_set_disk; [now apply blind_tick|].
        apply blind_insert; [exact Hd|now apply blind_set_updatedAt].
    + subst e'. now apply blind_out_Err.
  - now apply blind_out_Err.
Qed.

(** Taking two indistinguishable records apart. *)
Ltac blind_users H :=
  match type of H with
  | blind ?u = blind ?u' =>
      destruct u as [? ? ? ? ? ? [[? ? ? ?]|] ? ? ?],
               u' as [? ? ? ? ? ? [[? ? ? ?]|] ? ? ?];
      try discriminate H;
      injection H; clear H; intros; subst
  end.

Lemma sim_mutator_recordPayment data :
  sim_mutator (recordPayment_mutator data) (recordPayment_mutator data).
Proof.
  intros u u' w w' Hu Hw.
  pose proof (blind_world_inv _ _ Hw) as (Hd & Hc & Hr).
  unfold recordPayment_mutator. simpl run. rewrite Hc, Hr.
  blind_out. blind_users Hu; reflexivity.
Qed.

Lemma sim_mutator_activatePlan plan plan' :
  blind plan = blind plan' ->
  sim_mutator (activatePlan_mutator plan) (activatePlan_mutator plan').
Proof.
  intros Hp u u' w w' Hu Hw. unfold activatePlan_mutator. simpl run.
  blind_out.
  destruct plan, plan'. injection Hp as -> -> ->.
  blind_users Hu; reflexivity.
Qed.

Lemma sim_mutator_setTrialInfo trial :
  sim_mutator (setTrialInfo_mutator trial) (setTrialInfo_mutator trial).
Proof.
  intros u u' w w' Hu Hw. unfold setTrialInfo_mutator. simpl run.
  blind_out. blind_users Hu; reflexivity.
Qed.

Lemma sim_mutator_clearTrial :
  sim_mutator clearTrial_mutator clearTrial_mutator.
Proof.
  intros u u' w w' Hu Hw. unfold clearTrial_mutator. simpl run.
  blind_out. blind_users Hu; reflexivity.
Qed.

Lemma sim_mutator_adjustWallet delta :
  sim_mutator (adjustWallet_mutator delta) (adjustWallet_mutator delta).
Proof.
  intros u u' w w' Hu Hw. unfold adjustWallet_mutator.
  blind_users Hu; simpl; destruct (Qltb _ _); blind_out.
Qed.

Lemma sim_mutator_ensureActivePlanMinutes minutes :
  sim_mutator (ensureActivePlanMinutes_mutator minutes)
              (ensureActivePlanMinutes_mutator minutes).
Proof.
  intros u u' w w' Hu Hw. unfold ensureActivePlanMinutes_mutator.
  blind_users Hu; simpl; try destruct (Qltb _ _); blind_out.
Qed.

Lemma sim_mutator_consumeTrialMinutes minutes :
  sim_mutator (consumeTrialMinutes_mutator minutes)
              (consumeTrialMinutes_mutator minutes).
Proof.
  intros u u' w w' Hu Hw.
  pose proof (blind_world_inv _ _ Hw) as (Hd & Hc & Hr).
  unfold consumeTrialMinutes_mutator.
  blind_users Hu; simpl;
    (match goal with
     | |- context [match ?t with Some _ => _ | None => _ end] =>
         destruct t as [trial|]
     end; [|blind_out]);
    (destruct (TrialInfo.active trial); simpl; [|blind_out]);
    rewrite Hc, Hr;
    (destruct (_ <? _)%Z; [blind_out|]);
    (destruct (Qgtb _ _); blind_out).
Qed.

Lemma sim_getOrCreateUser userId profile :
  sim_M (getOrCreateUser userId profile) (getOrCreateUser userId profile).
Proof.
  intros w w' Hw. pose proof (blind_world_inv _ _ Hw) as (Hd & Hc & Hr).
  rewrite !getOrCreateUser_unfold.
  pose proof (blind_lookup _ _ userId Hd) as Hl.
  destruct (disk w !! userId) as [u|], (disk w' !! userId) as [u'|];
    try discriminate Hl.
  - apply blind_Some_inv in Hl as Hu.
    destruct profile as [p|]; [|now blind_out].
    cbv zeta. rewrite Hc, Hr.
    assert (Hu2 :
      blind (UserAccount.set_updatedAt (clock w' (reads w'))
         (UserAccount.set_profile
            (nullish (p_email p) (UserAccount.email u))
            (nullish (p_name p) (UserAccount.name u))
            (nullish (p_picture p) (UserAccount.picture u)) u))
      = blind (UserAccount.set_updatedAt (clock w' (reads w'))
         (UserAccount.set_profile
            (nullish (p_email p) (UserAccount.email u'))
            (nullish (p_name p) (UserAccount.name u'))
            (nullish (p_picture p) (UserAccount.picture u')) u')))
      by (blind_users Hu; reflexivity).
    blind_out.
    apply blind_set_disk; [now apply blind_tick|].
    now apply blind_insert.
  - cbv zeta. rewrite Hc, Hr. blind_out.
    apply blind_set_disk; [auto using blind_tick|].
    now apply blind_insert.
Qed.

Lemma blind_publicUser u u' :
  blind u = blind u' -> blind (publicUser u) = blind (publicUser u').
Proof. intros Hu. blind_users Hu; reflexivity. Qed.

Lemma blind_publicUser_option (u u' : option UserAccount.t) :
  blind u = blind u' -> blind (publicUser <$> u) = blind (publicUser <$> u').
Proof.
  destruct u as [u|], u' as [u'|]; try discriminate; [|reflexivity].
  intros Hu. apply blind_Some_inv in Hu.
  change (Some (blind (publicUser u)) = Some (blind (publicUser u'))).
  now rewrite (blind_publicUser _ _ Hu).
Qed.

Lemma sim_store userId mutator :
  sim_mutator mutator mutator ->
  sim_M (updateUser userId mutator) (updateUser userId mutator).
Proof. apply sim_updateUser. Qed.

#[export] Hint Resolve sim_Date_now sim_loadUser sim_getOrCreateUser
  sim_mutator_recordPayment sim_mutator_activatePlan
  sim_mutator_setTrialInfo sim_mutator_clearTrial sim_mutator_adjustWallet
  sim_mutator_ensureActivePlanMinutes sim_mutator_consumeTrialMinutes
  : blind.

Lemma blind_Z_inv (a a' : Z) : blind a = blind a' -> a = a'.
Proof. exact id. Qed.

Ltac sim_op :=
  first [ apply sim_Date_now | apply sim_loadUser | apply sim_getOrCreateUser
        | apply sim_updateUser; auto with blind ].

Ltac sim_now :=
  apply sim_bind; [sim_op|];
  let t := fresh "t" in let t' := fresh "t'" in let Ht := fresh "Ht" in
  intros t t' Ht; apply blind_Z_inv in Ht; subst t'.

Lemma blind_session key_id u u' :
  blind u = blind u' ->
  blind (json (session_body key_id u)) = blind (json (session_body key_id u')).
Proof.
  intros Hu.
  change (mkResponse 200
            (SessionBody (blind (publicUser u)) PLANS_table key_id)
          = mkResponse 200
              (SessionBody (blind (publicUser u')) PLANS_table key_id)).
  now rewrite (blind_publicUser _ _ Hu).
Qed.

Lemma sim_auth_google key_id sub payload :
  sim_M (auth_google key_id sub payload) (auth_google key_id sub payload).
Proof.
  unfold auth_google. apply sim_bind; [sim_op|]. intros u u' Hu.
  apply sim_ret. now apply blind_session.
Qed.

Lemma sim_get_status key_id userId :
  sim_M (get_status key_id userId) (get_status key_id userId).
Proof.
  unfold get_status. apply sim_bind; [sim_op|]. intros u u' Hu.
  destruct u as [u|], u' as [u'|]; try discriminate Hu;
    [|now apply sim_ret].
  apply blind_Some_inv in Hu.
  apply sim_bind.
  - blind_users Hu; simpl;
      (match goal with
       | |- context [match ?t with Some _ => _ | None => _ end] =>
           destruct t as [trial|]
       end; [|now apply sim_ret]);
      (apply sim_bind; [sim_op|]; intros t t' Ht;
       apply blind_Z_inv in Ht; subst t';
       destruct (_ <? _)%Z; now apply sim_ret).
  - intros u1 u1' Hu1. apply sim_ret. now apply blind_session.
Qed.

Lemma sim_start_trial userId : sim_M (start_trial userId) (start_trial userId).
Proof.
  unfold start_trial. apply sim_bind; [sim_op|]. intros u u' Hu.
  destruct u as [u|], u' as [u'|]; try discriminate Hu;
    [|now apply sim_ret].
  apply blind_Some_inv in Hu.
  cbv zeta.
  blind_users Hu; simpl;
    (match goal with
     | |- context [match ?t with Some _ => _ | None => _ end] =>
         destruct t as [trial|]
     end;
     [ destruct (TrialInfo.active trial); [|now apply sim_ret];
       apply sim_bind; [sim_op|]; intros t t' Ht;
       apply blind_Z_inv in Ht; subst t';
       destruct (_ >? _)%Z; now apply sim_ret
     | apply sim_bind; [sim_op|]; intros t t' Ht;
       apply blind_Z_inv in Ht; subst t';
       apply sim_bind; [unfold setTrialInfo; sim_op|]; intros;
       now apply sim_ret ]).
Qed.

Lemma sim_finish userId :
  sim_M (user ← loadUser userId;
         mret (json (UserBody (publicUser <$> user))))
        (user ← loadUser userId;
         mret (json (UserBody (publicUser <$> user)))).
Proof.
  apply sim_bind; [sim_op|]. intros u u' Hu. apply sim_ret.
  change (mkResponse 200 (UserBody (blind (publicUser <$> u)))
          = mkResponse 200 (UserBody (blind (publicUser <$> u')))).
  now rewrite (blind_publicUser_option _ _ Hu).
Qed.

Lemma sim_confirm key_secret userId req :
  sim_M (confirm key_secret userId req) (confirm key_secret userId req).
Proof.
  unfold confirm.
  destruct (_ || _); [now apply sim_ret|]. cbv zeta.
  destruct (negb _); [now apply sim_ret|].
  apply sim_try_catch; [|intros; now apply sim_ret].
  destruct (bool_decide (intent req = Some "plan")).
  - destruct (c_planId req ≫= PLANS) as [plan|]; [|now apply sim_ret].
    sim_now.
    apply sim_bind; [unfold activatePlan; sim_op|]. intros _ _ _.
    apply sim_bind; [unfold recordPayment; sim_op|]. intros _ _ _.
    apply sim_finish.
  - destruct (bool_decide (intent req = Some "wallet"));
      [|now apply sim_ret].
    destruct (not_number _); [now apply sim_ret|].
    apply sim_bind; [unfold adjustWallet; sim_op|]. intros _ _ _.
    apply sim_bind; [unfold recordPayment; sim_op|]. intros _ _ _.
    apply sim_finish.
Qed.

Lemma sim_usage_body source userId debited :
  sim_M (updated ← loadUser userId;
         mret (json (UsageBody source (publicUser <$> updated) debited)))
        (updated ← loadUser userId;
         mret (json (UsageBody source (publicUser <$> updated) debited))).
Proof.
  apply sim_bind; [sim_op|]. intros u u' Hu. apply sim_ret.
  change (mkResponse 200 (UsageBody source (blind (publicUser <$> u)) debited)
          = mkResponse 200
              (UsageBody source (blind (publicUser <$> u')) debited)).
  now rewrite (blind_publicUser_option _ _ Hu).
Qed.

Ltac sim_wallet :=
  destruct (Qgeb _ _);
  [ apply sim_bind; [unfold adjustWallet; sim_op|]; intros _ _ _;
    apply sim_usage_body
  | now apply sim_ret ].

Ltac sim_trial :=
  match goal with
  | |- sim_M (match ?t with Some _ => _ | None => _ end) _ =>
      let trial := fresh "trial" in
      destruct t as [trial|];
      [ destruct (TrialInfo.active trial);
        [ sim_now;
          destruct (_ >? _)%Z;
          [ destruct (Qleb _ _);
            [ apply sim_bind; [unfold consumeTrialMinutes; sim_op|];
              intros _ _ _; apply sim_usage_body
            | sim_wallet ]
          | sim_wallet ]
        | sim_wallet ]
      | sim_wallet ]
  end.

Lemma sim_usage_consume userId minutes :
  sim_M (usage_consume userId minutes) (usage_consume userId minutes).
Proof.
  unfold usage_consume.
  destruct (Number minutes) as [m|]; [|now apply sim_ret].
  destruct (Qleb m 0); [now apply sim_ret|].
  apply sim_bind; [sim_op|]. intros u u' Hu.
  destruct u as [u|], u' as [u'|]; try discriminate Hu;
    [|now apply sim_ret].
  apply blind_Some_inv in Hu. cbv zeta.
  apply sim_try_catch; [|intros; now apply sim_ret].
  blind_users Hu;
    cbn [UserAccount.activePlan UserAccount.trial
         UserAccount.walletBalancePaise ActivePlan.remainingMinutes].
  - destruct (Qgeb _ _); [|sim_trial].
    apply sim_bind;
      [unfold activatePlan; apply sim_updateUser;
       now apply sim_mutator_activatePlan|].
    intros _ _ _. apply sim_usage_body.
  - sim_trial.
Qed.

Lemma sim_handle key_id key_secret r :
  sim_M (handle key_id key_secret r) (handle key_id key_secret r).
Proof.
  destruct r as [sub payload|session|session|session req|session minutes];
    simpl.
  - apply sim_auth_google.
  - destruct session; [apply sim_get_status|now apply sim_ret].
  - destruct session; [apply sim_start_trial|now apply sim_ret].
  - destruct session; [apply sim_confirm|now apply sim_ret].
  - destruct session; [apply sim_usage_consume|now apply sim_ret].
Qed.

Lemma blind_snd {A} `{Blind A} (x y : Result A * World) :
  blind x = blind y -> blind (snd x) = blind (snd y).
Proof. intros Hxy. exact (f_equal snd Hxy). Qed.

Lemma sim_step o w w' :
  blind w = blind w' -> blind (step o w) = blind (step o w').
Proof.
  intros Hw. destruct o as [op|key_id key_secret r]; simpl.
  - destruct op; simpl; try apply blind_snd.
    + now apply sim_getOrCreateUser.
    + apply sim_updateUser; auto with blind.
    + apply sim_updateUser; auto with blind.
    + apply sim_updateUser; auto with blind.
    + apply sim_updateUser; auto with blind.
    + apply sim_updateUser; auto with blind.
    + apply sim_updateUser; auto with blind.
    + apply sim_updateUser; auto with blind.
    + exact Hw.
  - apply blind_snd. now apply sim_handle.
Qed.

(** C10. The plan branch of [POST /usage/consume] does not look at the
    expiry of the plan: a stored plan whose [expiresAt] lies in the past
    and that has at least the requested minutes left is debited, with
    [source = "plan"].  More generally nothing in the system looks at it:
    started in two worlds that differ only in the [expiresAt] of stored
    plans, every request gets the same answer and every request or store
    call leaves the same world, up to those [expiresAt]. *)
Theorem plan_expiry_never_consulted :
  (forall w userId m user plan e,
      disk w !! userId = Some user ->
      (0 < m)%Q ->
      UserAccount.activePlan user = Some plan ->
      ActivePlan.expiresAt plan = Some e ->
      (e < clock w (reads w))%Z ->
      (m <= ActivePlan.remainingMinutes plan)%Q ->
      let user' :=
        UserAccount.set_updatedAt (clock w (reads w))
          (UserAccount.set_activePlan
             (Some (ActivePlan.set_remainingMinutes
                      (ActivePlan.remainingMinutes plan - m)%Q plan)) user) in
      fst (usage_consume userId (Some m) w)
      = Ok (json (UsageBody "plan" (Some (publicUser user')) None))
      /\ disk (snd (usage_consume userId (Some m) w))
         = <[userId := user']> (disk w))
  /\ (forall key_id key_secret r w w',
        blind w = blind w' ->
        blind (handle key_id key_secret r w)
        = blind (handle key_id key_secret r w'))
  /\ (forall o w w',
        blind w = blind w' -> blind (step o w) = blind (step o w')).
Proof.
  split; [|split].
  - intros w userId m user plan e Hl Hm Hp _ _ Hr user'.
    rewrite (consume_plan _ _ _ _ _ Hl Hm Hp Hr). split; reflexivity.
  - intros key_id key_secret r w w' Hw. now apply sim_handle.
  - intros o w w'. apply sim_step.
Qed.


(** ** The claims at concrete inputs *)

Lemma wallet_ok_saver_world : wallet_ok (disk saver_world).
Proof.
  intros userId u Hl. unfold saver_world, disk in Hl.
  apply lookup_singleton_Some in Hl as [_ <-].
  simpl. discriminate.
Qed.

Lemma trial_ok_during_trial : trial_ok (disk during_trial).
Proof.
  intros userId u trial Hl. unfold during_trial, disk in Hl.
  apply lookup_singleton_Some in Hl as [_ <-].
  intros [= <-]. simpl. discriminate.
Qed.


Lemma wallet_balance_never_negative_witness :
  Forall (fun w' => wallet_ok (disk w'))
    (trace [Call (AdjustWallet "u5" (-1500)); Call (AdjustWallet "u5" 500);
            Serve "key" "s3cret" (UsageConsume (Some "u5") (Some 3%Q))]
           saver_world)
  /\ adjustWallet "u5" (-1500) saver_world
     = (Err "Insufficient wallet balance", saver_world).
Proof.
  split.
  - apply (proj1 wallet_balance_never_negative). exact wallet_ok_saver_world.
  - apply (proj2 wallet_balance_never_negative saver_world "u5" (-1500)%Q
             saver);
      reflexivity.
Defined.

Lemma start_trial_once_witness :
  fst (start_trial "u1" during_trial)
  = Ok (json (TrialBody (TrialInfo.mk 1000 172801000 0 true 60)
                (Some "Trial already active")))
  /\ disk (snd (start_trial "u1" during_trial)) = disk during_trial.
Proof.
  apply (proj1 start_trial_once during_trial "u1" trial_holder
           (TrialInfo.mk 1000 172801000 0 true 60)); reflexivity.
Defined.

Lemma confirm_checks_signature_witness :
  confirm "s3cret" "u5" forged_confirmation saver_world
  = (Ok (status_json 400 (ErrorBody "Invalid signature")), saver_world).
Proof.
  apply (proj1 (proj2 (proj2 confirm_checks_signature))
           "u5" forged_confirmation "deadbeef" saver_world);
    try reflexivity; discriminate.
Defined.

Lemma trial_cap_respected_witness :
  trial_ok (disk (snd (consumeTrialMinutes "u1" 61 during_trial)))
  /\ (exists e, fst (consumeTrialMinutes "u1" 61 during_trial) = Err e)
  /\ disk (snd (consumeTrialMinutes "u1" 61 during_trial))
     = disk during_trial.
Proof.
  split.
  - apply (proj1 trial_cap_respected). exact trial_ok_during_trial.
  - apply (proj1 (proj2 (proj2 trial_cap_respected)) during_trial "u1" 61%Q
             trial_holder (TrialInfo.mk 1000 172801000 0 true 60));
      reflexivity.
Defined.


Lemma plan_expiry_never_consulted_witness :
  (fst (usage_consume "u6" (Some 3%Q) expired_plan_world)
   = Ok (json (UsageBody "plan"
                 (Some (publicUser
                          (UserAccount.set_updatedAt 100
                             (UserAccount.set_activePlan
                                (Some (ActivePlan.set_remainingMinutes
                                         (500 - 3)%Q expired_plan))
                                expired_plan_holder))))
                 None))
   /\ disk (snd (usage_consume "u6" (Some 3%Q) expired_plan_world))
      = <["u6" := UserAccount.set_updatedAt 100
                    (UserAccount.set_activePlan
                       (Some (ActivePlan.set_remainingMinutes
                                (500 - 3)%Q expired_plan))
                       expired_plan_holder)]> (disk expired_plan_world))
  /\ blind (handle "key" "s3cret" (UsageConsume (Some "u6") (Some 3%Q))
              expired_plan_world)
     = blind (handle "key" "s3cret" (UsageConsume (Some "u6") (Some 3%Q))
                valid_plan_world).
Proof.
  split.
  - apply (proj1 plan_expiry_never_consulted expired_plan_world "u6" 3%Q
             expired_plan_holder expired_plan 50%Z);
      first [reflexivity | unfold Qle; simpl; lia].
  - apply (proj1 (proj2 plan_expiry_never_consulted)). reflexivity.
Defined.

(** ** The promise chain serializes the store *)

Section LockFacts.
Context {A : Type}.
Local Open Scope list_scope.
Implicit Types (cs : list (Status A)) (q : Queue A) (ls : list (Label A)).

Lemma ordered_nil : ordered (@nil (Status A)).
Proof. intros i j si sj _ Hi. rewrite lookup_nil in Hi. discriminate. Qed.

Lemma ordered_arrive cs fn : ordered cs -> ordered (cs ++ [Waiting fn]).
Proof.
  intros Ho i j si sj Hij Hi Hj.
  destruct (decide (j < length cs)%nat) as [Hlt|Hge].
  - rewrite lookup_app_l in Hi by lia. rewrite lookup_app_l in Hj by lia.
    eauto.
  - right. rewrite lookup_app_r in Hj by lia.
    destruct (j - length cs)%nat as [|n]; simpl in Hj.
    + now injection Hj as <-.
    + rewrite lookup_nil in Hj. discriminate.
Qed.

(** Once a call has started, every earlier call has released the chain. *)
Lemma earlier_released cs i s :
  ordered cs -> cs !! i = Some s -> is_waiting s = false ->
  forall k sk, (k < i)%nat -> cs !! k = Some sk -> is_released sk = true.
Proof.
  intros Ho Hs Hw k sk Hk Hsk.
  destruct (Ho k i sk s Hk Hsk Hs) as [H|H]; [exact H|congruence].
Qed.

Lemma chain_fulfilled_earlier cs i :
  ordered cs -> chain_fulfilled cs i = true ->
  forall k sk, (k < i)%nat -> cs !! k = Some sk -> is_released sk = true.
Proof.
  intros Ho Hc k sk Hk Hsk. destruct i as [|j]; [lia|]. simpl in Hc.
  destruct (cs !! j) as [[| | |r]|] eqn:Hj; try discriminate Hc.
  destruct (decide (k = j)) as [->|Hne].
  - rewrite Hj in Hsk. now injection Hsk as <-.
  - apply (earlier_released cs j (Released r) Ho Hj eq_refl k sk);
      [lia|exact Hsk].
Qed.

(** Replacing the status of a call before which all have released. *)
Lemma ordered_insert cs i s s' :
  ordered cs -> cs !! i = Some s ->
  (is_released s = true -> is_released s' = true) ->
  (forall k sk, (k < i)%nat -> cs !! k = Some sk -> is_released sk = true) ->
  ordered (<[i := s']> cs).
Proof.
  intros Ho Hs Hrel Hbefore a b sa sb Hab Ha Hb.
  assert (Hlen : (i < length cs)%nat) by (eapply lookup_lt_Some; eauto).
  destruct (decide (a = i)) as [->|Hai], (decide (b = i)) as [->|Hbi];
    try lia.
  - rewrite list_lookup_insert_eq in Ha by lia. injection Ha as <-.
    rewrite list_lookup_insert_ne in Hb by congruence.
    destruct (Ho i b s sb Hab Hs Hb) as [H|H]; auto.
  - rewrite list_lookup_insert_ne in Ha by congruence.
    left. eapply Hbefore; eauto.
  - rewrite list_lookup_insert_ne in Ha by congruence.
    rewrite list_lookup_insert_ne in Hb by congruence. eauto.
Qed.

Lemma ordered_fire l q q' :
  fire l q = Some q' -> ordered (calls q) -> ordered (calls q').
Proof.
  intros Hf Ho. destruct l as [fn|i|i|i]; simpl in Hf.
  - injection Hf as <-. simpl. now apply ordered_arrive.
  - destruct (calls q !! i) as [[fn| | |]|] eqn:Hi; try discriminate Hf.
    destruct (chain_fulfilled (calls q) i) eqn:Hc; [|discriminate Hf].
    injection Hf as <-. simpl.
    apply (ordered_insert _ _ (Waiting fn)); [exact Ho|exact Hi|discriminate|].
    now apply chain_fulfilled_earlier.
  - destruct (calls q !! i) as [[|t| |]|] eqn:Hi; try discriminate Hf.
    destruct (advance t (world q)) as [s w]. injection Hf as <-. simpl.
    apply (ordered_insert _ _ (Running t)); [exact Ho|exact Hi|discriminate|].
    now apply (earlier_released _ i (Running t)).
  - destruct (calls q !! i) as [[| |r|]|] eqn:Hi; try discriminate Hf.
    injection Hf as <-. simpl.
    apply (ordered_insert _ _ (Settled r)); [exact Ho|exact Hi|discriminate|].
    now apply (earlier_released _ i (Settled r)).
Qed.

Lemma exec_app ls1 ls2 q :
  exec (ls1 ++ ls2) q
  = match exec ls1 q with Some q1 => exec ls2 q1 | None => None end.
Proof.
  revert q. induction ls1 as [|l ls1 IH]; intros q; simpl; [reflexivity|].
  destruct (fire l q); [apply IH|reflexivity].
Qed.

Lemma ordered_exec ls q q' :
  exec ls q = Some q' -> ordered (calls q) -> ordered (calls q').
Proof.
  revert q. induction ls as [|l ls IH]; intros q; simpl.
  - now intros [= <-].
  - destruct (fire l q) as [q1|] eqn:Hf; [|discriminate].
    intros He Ho. apply (IH q1 He). exact (ordered_fire _ _ _ Hf Ho).
Qed.

(** A call that has left [Waiting] did so by its [Start] step. *)
Lemma started_by_Start ls q q' i s :
  exec ls q = Some q' -> calls q' !! i = Some s -> is_waiting s = false ->
  In (Start i) ls
  \/ exists s0, calls q !! i = Some s0 /\ is_waiting s0 = false.
Proof.
  revert q. induction ls as [|l ls IH]; intros q; simpl.
  - intros [= <-] Hs Hw. right. eauto.
  - destruct (fire l q) as [q1|] eqn:Hf; [|discriminate].
    intros He Hs Hw.
    destruct (IH q1 He Hs Hw) as [Hin|(s1 & Hs1 & Hw1)]; [auto|].
    destruct l as [fn|k|k|k]; simpl in Hf.
    + injection Hf as <-. simpl in Hs1. right.
      destruct (decide (i < length (calls q))%nat).
      * rewrite lookup_app_l in Hs1 by lia. eauto.
      * rewrite lookup_app_r in Hs1 by lia.
        destruct (i - length (calls q))%nat; simpl in Hs1;
          [injection Hs1 as <-; discriminate Hw1|].
        rewrite lookup_nil in Hs1. discriminate.
    + destruct (calls q !! k) as [[fn| | |]|] eqn:Hk; try discriminate Hf.
      destruct (chain_fulfilled (calls q) k); [|discriminate Hf].
      injection Hf as <-. simpl in Hs1.
      destruct (decide (k = i)) as [->|Hne]; [auto|].
      rewrite list_lookup_insert_ne in Hs1 by exact Hne. right. eauto.
    + destruct (calls q !! k) as [[|t| |]|] eqn:Hk; try discriminate Hf.
      destruct (advance t (world q)) as [s' w]. injection Hf as <-.
      simpl in Hs1.
      destruct (decide (k = i)) as [->|Hne].
      * right. exists (Running t). auto.
      * rewrite list_lookup_insert_ne in Hs1 by exact Hne. right. eauto.
    + destruct (calls q !! k) as [[| |r|]|] eqn:Hk; try discriminate Hf.
      injection Hf as <-. simpl in Hs1.
      destruct (decide (k = i)) as [->|Hne].
      * right. exists (Settled r). auto.
      * rewrite list_lookup_insert_ne in Hs1 by exact Hne. right. eauto.
Qed.

(** *** Every schedule comes to the sequential outcome *)

Lemma outcome_released_prefix cs1 cs2 w :
  Forall (fun s => is_released s = true) cs1 ->
  outcome (cs1 ++ cs2) w
  = let '(rs, w') := outcome cs2 w in ((omap result_of cs1 ++ rs)%list, w').
Proof.
  induction 1 as [|s cs1 Hs _ IH]; simpl.
  - now destruct (outcome cs2 w).
  - destruct s; try discriminate Hs. simpl. rewrite IH.
    now destruct (outcome cs2 w).
Qed.

Lemma released_before cs i :
  (forall k sk, (k < i)%nat -> cs !! k = Some sk -> is_released sk = true) ->
  Forall (fun s => is_released s = true) (take i cs).
Proof.
  intros H. apply Forall_lookup. intros k sk Hk.
  apply lookup_take_Some in Hk as [Hk Hlt]. eauto.
Qed.

(** Replacing call [i], before which all have released, by a status that
    comes to the same. *)
Lemma outcome_replace cs i (s s' : Status A) w w' :
  cs !! i = Some s ->
  (forall k sk, (k < i)%nat -> cs !! k = Some sk -> is_released sk = true) ->
  (forall rest, outcome (s' :: rest) w' = outcome (s :: rest) w) ->
  outcome (<[i := s']> cs) w' = outcome cs w.
Proof.
  intros Hs Hbefore Hsame.
  assert (Hlen : (i < length cs)%nat) by (eapply lookup_lt_Some; eauto).
  rewrite insert_take_drop by exact Hlen.
  rewrite <- (take_drop_middle cs i s Hs) at 3.
  rewrite !outcome_released_prefix by now apply released_before.
  now rewrite Hsame.
Qed.

Lemma outcome_advance (t : Task A) w rest :
  outcome (fst (advance t w) :: rest) (snd (advance t w))
  = outcome (Running t :: rest) w.
Proof. destruct t; reflexivity. Qed.

Lemma outcome_arrive cs (fn : Task A) w :
  outcome (cs ++ [Waiting fn]) w
  = let '(rs, w1) := outcome cs w in
    let '(r, w2) := run fn w1 in ((rs ++ [r])%list, w2).
Proof.
  revert w. induction cs as [|s cs IH]; intros w; simpl.
  - now destruct (run fn w).
  - destruct s as [t|t|r|r].
    + destruct (run t w) as [r w1]. rewrite IH.
      destruct (outcome cs w1) as [rs w2]. now destruct (run fn w2).
    + destruct (run t w) as [r w1]. rewrite IH.
      destruct (outcome cs w1) as [rs w2]. now destruct (run fn w2).
    + rewrite IH. destruct (outcome cs w) as [rs w2]. now destruct (run fn w2).
    + rewrite IH. destruct (outcome cs w) as [rs w2]. now destruct (run fn w2).
Qed.

Lemma outcome_fire l q q' :
  fire l q = Some q' -> ordered (calls q) ->
  outcome (calls q') (world q')
  = match l with
    | Arrive fn =>
        let '(rs, w1) := outcome (calls q) (world q) in
        let '(r, w2) := run fn w1 in ((rs ++ [r])%list, w2)
    | _ => outcome (calls q) (world q)
    end.
Proof.
  intros Hf Ho. destruct l as [fn|i|i|i]; simpl in Hf.
  - injection Hf as <-. simpl. apply outcome_arrive.
  - destruct (calls q !! i) as [[fn| | |]|] eqn:Hi; try discriminate Hf.
    destruct (chain_fulfilled (calls q) i) eqn:Hc; [|discriminate Hf].
    injection Hf as <-. simpl.
    apply (outcome_replace _ _ (Waiting fn)); [exact Hi| |reflexivity].
    now apply chain_fulfilled_earlier.
  - destruct (calls q !! i) as [[|t| |]|] eqn:Hi; try discriminate Hf.
    pose proof (outcome_advance t (world q)) as Hadv.
    destruct (advance t (world q)) as [s w]. injection Hf as <-. simpl.
    apply (outcome_replace _ _ (Running t)); [exact Hi| |exact Hadv].
    now apply (earlier_released _ i (Running t)).
  - destruct (calls q !! i) as [[| |r|]|] eqn:Hi; try discriminate Hf.
    injection Hf as <-. simpl.
    apply (outcome_replace _ _ (Settled r)); [exact Hi| |reflexivity].
    now apply (earlier_released _ i (Settled r)).
Qed.

Lemma outcome_exec ls q q' :
  exec ls q = Some q' -> ordered (calls q) ->
  outcome (calls q') (world q')
  = let '(rs, w1) := outcome (calls q) (world q) in
    let '(rs', w2) := seq_run (arrivals ls) w1 in ((rs ++ rs')%list, w2).
Proof.
  revert q. induction ls as [|l ls IH]; intros q; simpl.
  - intros [= <-] _. destruct (outcome _ _). now rewrite app_nil_r.
  - destruct (fire l q) as [q1|] eqn:Hf; [|discriminate].
    intros He Ho.
    rewrite (IH q1 He (ordered_fire _ _ _ Hf Ho)).
    rewrite (outcome_fire _ _ _ Hf Ho).
    destruct l as [fn|i|i|i]; try reflexivity.
    destruct (outcome (calls q) (world q)) as [rs w1]. simpl.
    destruct (run fn w1) as [r w2].
    destruct (seq_run (arrivals ls) w2) as [rs' w3].
    now rewrite <- app_assoc.
Qed.

Lemma outcome_all_settled cs w :
  Forall (fun s => is_Some (result_of s)) cs ->
  outcome cs w = (omap result_of cs, w).
Proof.
  induction 1 as [|s cs Hs _ IH]; simpl; [reflexivity|].
  destruct s as [t|t|r|r]; simpl in *;
    try (destruct Hs as [? Hs]; discriminate Hs);
    now rewrite IH.
Qed.

(** *** Every call can be brought to completion *)

Lemma completes_step l q q' :
  fire l q = Some q' -> (forall fn, l <> Arrive fn) ->
  completes q' -> completes q.
Proof.
  intros Hf Hl (ls & q2 & Ha & He & Hall).
  exists (l :: ls), q2. split; [|split; [|exact Hall]].
  - destruct l; simpl; [now destruct (Hl fn)|exact Ha..].
  - simpl. now rewrite Hf.
Qed.

Lemma middle_lookup (pre post : list (Status A)) s :
  (pre ++ s :: post) !! length pre = Some s.
Proof. now apply list_lookup_middle. Qed.

Lemma middle_insert (pre post : list (Status A)) s s' :
  <[length pre := s']> (pre ++ s :: post) = pre ++ s' :: post.
Proof.
  rewrite insert_app_r_alt by lia. now rewrite Nat.sub_diag.
Qed.

Lemma fire_IO_middle pre (t : Task A) post w :
  fire (IO (length pre)) (mkQueue w (pre ++ Running t :: post))
  = Some (mkQueue (snd (advance t w)) (pre ++ fst (advance t w) :: post)).
Proof.
  unfold fire. cbn [calls world]. rewrite middle_lookup.
  destruct (advance t w) as [s w']. now rewrite middle_insert.
Qed.

Lemma fire_Release_middle pre (r : Result A) post w :
  fire (Release (length pre)) (mkQueue w (pre ++ Settled r :: post))
  = Some (mkQueue w (pre ++ Released r :: post)).
Proof.
  unfold fire. cbn [calls world]. now rewrite middle_lookup, middle_insert.
Qed.

Lemma chain_fulfilled_after (rs : list (Result A)) post :
  chain_fulfilled ((Released <$> rs) ++ post) (length (Released <$> rs))
  = true.
Proof.
  rewrite length_fmap.
  destruct rs as [|r rs _] using rev_ind; [reflexivity|].
  rewrite length_app. simpl. rewrite Nat.add_1_r. simpl.
  rewrite fmap_app. simpl. rewrite <- app_assoc. simpl.
  rewrite <- (length_fmap Released rs).
  now rewrite middle_lookup.
Qed.

Lemma fire_Start_middle (rs : list (Result A)) (fn : Task A) post w :
  fire (Start (length (Released <$> rs)))
       (mkQueue w ((Released <$> rs) ++ Waiting fn :: post))
  = Some (mkQueue w ((Released <$> rs) ++ Running fn :: post)).
Proof.
  unfold fire. cbn [calls world].
  now rewrite middle_lookup, chain_fulfilled_after, middle_insert.
Qed.

(** The effects of a running body, one by one, settle its call. *)
Lemma completes_running (t : Task A) :
  forall pre post w,
    (forall r w', completes (mkQueue w' (pre ++ Settled r :: post))) ->
    completes (mkQueue w (pre ++ Running t :: post)).
Proof.
  induction t as [a|e|k IH|d k IH|k IH]; intros pre post w Hdone;
    (eapply completes_step;
     [apply fire_IO_middle|discriminate|simpl; auto]).
Qed.

Lemma completes_settled pre (r : Result A) post w :
  completes (mkQueue w (pre ++ Released r :: post)) ->
  completes (mkQueue w (pre ++ Settled r :: post)).
Proof.
  intros H. eapply completes_step;
    [apply fire_Release_middle|discriminate|exact H].
Qed.

Lemma completes_waiting (rs : list (Result A)) (fn : Task A) post w :
  (forall r w',
      completes (mkQueue w' ((Released <$> rs) ++ Released r :: post))) ->
  completes (mkQueue w ((Released <$> rs) ++ Waiting fn :: post)).
Proof.
  intros H. eapply completes_step;
    [apply fire_Start_middle|discriminate|].
  apply completes_running. intros r w'. apply completes_settled, H.
Qed.

Lemma completes_frontier (fns : list (Task A)) :
  forall rs s w,
    completes (mkQueue w ((Released <$> rs) ++ s :: (Waiting <$> fns))).
Proof.
  induction fns as [|fn fns IH]; intros rs s w.
  - assert (Hrel : forall r w',
      completes (mkQueue w' ((Released <$> rs) ++ Released r :: []))).
    { intros r w'.
      exists [], (mkQueue w' ((Released <$> rs) ++ [Released r])).
      split; [reflexivity|]. split; [reflexivity|]. simpl.
      apply Forall_app. split; [|now repeat constructor].
      apply Forall_fmap. now apply Forall_true. }
    destruct s as [t|t|r|r]; simpl.
    + now apply completes_waiting.
    + apply completes_running. intros r w'. now apply completes_settled.
    + now apply completes_settled.
    + apply Hrel.
  - assert (Hrel : forall r w',
      completes (mkQueue w' ((Released <$> rs) ++ Released r
                                 :: (Waiting <$> fn :: fns)))).
    { intros r w'.
      replace ((Released <$> rs) ++ Released r :: (Waiting <$> fn :: fns))
        with ((Released <$> (rs ++ [r])) ++ Waiting fn :: (Waiting <$> fns))
        by (rewrite fmap_app, <- app_assoc; reflexivity).
      apply IH. }
    destruct s as [t|t|r|r].
    + now apply completes_waiting.
    + apply completes_running. intros r w'. now apply completes_settled.
    + now apply completes_settled.
    + apply Hrel.
Qed.

Lemma all_waiting cs :
  Forall (fun s => is_waiting s = true) cs ->
  exists fns, cs = Waiting <$> fns.
Proof.
  induction 1 as [|s cs Hs _ (fns & ->)]; [now exists []|].
  destruct s as [fn| | |]; try discriminate Hs. now exists (fn :: fns).
Qed.

Lemma ordered_tail s cs : ordered (s :: cs) -> ordered cs.
Proof.
  intros Ho i j si sj Hij Hi Hj.
  apply (Ho (S i) (S j)); [lia|exact Hi|exact Hj].
Qed.

(** The shape of an ordered queue. *)
Lemma ordered_shape cs :
  ordered cs ->
  exists rs rest,
    cs = (Released <$> rs) ++ rest
    /\ (rest = [] \/ exists s fns, rest = s :: (Waiting <$> fns)).
Proof.
  induction cs as [|s cs IH]; intros Ho.
  - exists [], []. auto.
  - destruct (is_released s) eqn:Hs.
    + destruct s as [| | |r]; try discriminate Hs.
      destruct (IH (ordered_tail _ _ Ho)) as (rs & rest & -> & Hrest).
      exists (r :: rs), rest. auto.
    + assert (Hw : Forall (fun s' => is_waiting s' = true) cs).
      { apply Forall_lookup. intros j sj Hj.
        destruct (Ho 0%nat (S j) s sj) as [H|H];
          [lia|reflexivity|exact Hj|congruence|exact H]. }
      destruct (all_waiting _ Hw) as (fns & ->).
      exists [], (s :: (Waiting <$> fns)). eauto.
Qed.

Lemma completes_ordered q : ordered (calls q) -> completes q.
Proof.
  destruct q as [w cs]. simpl. intros Ho.
  destruct (ordered_shape cs Ho) as (rs & rest & -> & [->|(s & fns & ->)]).
  - exists [], (mkQueue w ((Released <$> rs) ++ [])).
    split; [reflexivity|]. split; [reflexivity|]. simpl.
    rewrite app_nil_r. apply Forall_fmap. now apply Forall_true.
  - apply completes_frontier.
Qed.

End LockFacts.

Example interleaved_settles_1300 :
  (exec interleaved (idle saver_world) ≫= stored_balance "u5")
  = Some (1000 + 500 + -200)%Q.
Proof. vm_compute. reflexivity. Qed.

(** While the first body is suspended the second cannot be started. *)
Example second_waits_for_first :
  exec [ Arrive (adjustWallet_body "u5" 500);
         Arrive (adjustWallet_body "u5" (-200)); Start 0; IO 0; Start 1 ]
       (idle saver_world)
  = None.
Proof. vm_compute. reflexivity. Qed.

Lemma serial_outcome {A} (ls : list (Label A)) w0 q :
  exec ls (idle w0) = Some q ->
  Forall (fun s => is_Some (result_of s)) (calls q) ->
  (omap result_of (calls q), world q) = seq_run (arrivals ls) w0.
Proof.
  intros He Hall.
  pose proof (outcome_exec ls (idle w0) q He ordered_nil) as Ho.
  simpl in Ho. rewrite (outcome_all_settled _ _ Hall) in Ho.
  destruct (seq_run (arrivals ls) w0) as [rs w]. exact Ho.
Qed.

Lemma start_order {A} (ls1 ls2 : list (Label A)) j w0 q :
  exec (ls1 ++ Start j :: ls2) (idle w0) = Some q ->
  forall i, (i < j)%nat -> In (Start i) ls1.
Proof.
  rewrite exec_app. destruct (exec ls1 (idle w0)) as [q1|] eqn:H1;
    [|discriminate].
  simpl.
  destruct (calls q1 !! j) as [[fn| | |]|] eqn:Hj; try discriminate.
  destruct (chain_fulfilled (calls q1) j) eqn:Hc; [|discriminate].
  intros _ i Hi.
  pose proof (ordered_exec _ _ _ H1 ordered_nil) as Ho.
  assert (Hlen : (j < length (calls q1))%nat) by (eapply lookup_lt_Some; eauto).
  destruct (lookup_lt_is_Some_2 (calls q1) i ltac:(lia)) as [si Hsi].
  pose proof (chain_fulfilled_earlier _ _ Ho Hc i si Hi Hsi) as Hrel.
  destruct (started_by_Start _ _ _ i si H1 Hsi) as [Hin|(s0 & Hs0 & _)].
  - destruct si; try discriminate Hrel. reflexivity.
  - exact Hin.
  - simpl in Hs0. rewrite lookup_nil in Hs0. discriminate.
Qed.

Lemma Qltb_false_intro (a b : Q) : (b <= a)%Q -> Qltb a b = false.
Proof.
  intros H. destruct (Qltb a b) eqn:E; [|reflexivity].
  apply Qltb_true in E. lra.
Qed.

Lemma two_adjustments w0 userId u (d1 d2 : Q) :
  disk w0 !! userId = Some u ->
  (0 <= UserAccount.walletBalancePaise u + d1)%Q ->
  (0 <= UserAccount.walletBalancePaise u + d1 + d2)%Q ->
  exists u' r1 r2,
    seq_run [adjustWallet_body userId d1; adjustWallet_body userId d2] w0
    = ([Ok r1; Ok r2], snd (seq_run [adjustWallet_body userId d1;
                                     adjustWallet_body userId d2] w0))
    /\ disk (snd (seq_run [adjustWallet_body userId d1;
                           adjustWallet_body userId d2] w0)) !! userId
       = Some u'
    /\ UserAccount.walletBalancePaise u'
       = (UserAccount.walletBalancePaise u + d1 + d2)%Q.
Proof.
  intros Hl H1 H2. unfold seq_run, adjustWallet_body.
  change (run (updateUser_body userId (adjustWallet_mutator d1)) w0)
    with (adjustWallet userId d1 w0).
  rewrite adjustWallet_unfold, Hl. cbv zeta.
  rewrite (Qltb_false_intro _ _ H1).
  match goal with
  | |- context [run (updateUser_body userId (adjustWallet_mutator d2)) ?w] =>
      change (run (updateUser_body userId (adjustWallet_mutator d2)) w)
        with (adjustWallet userId d2 w)
  end.
  rewrite adjustWallet_unfold. cbn [disk set_disk tick].
  rewrite lookup_insert_eq. cbv zeta.
  cbn [UserAccount.walletBalancePaise UserAccount.set_updatedAt
       UserAccount.set_walletBalancePaise].
  rewrite (Qltb_false_intro _ _ H2). cbn [snd disk set_disk tick].
  rewrite lookup_insert_eq.
  eexists _, _, _. split; [reflexivity|]. split; reflexivity.
Qed.

(** A call that throws is settled with its error, and the call queued
    behind it runs and returns. *)
Example failure_does_not_poison :
  (exec doomed_then_fine (idle saver_world) ≫= fun q =>
     Some (Result_map UserAccount.walletBalancePaise <$> results_of q,
           stored_balance "u5" q))
  = Some ([Err "Insufficient wallet balance"; Ok (1000 + 500)%Q],
          Some (1000 + 500)%Q).
Proof. vm_compute. reflexivity. Qed.

Lemma one_running {A} (ls : list (Label A)) w0 q i j si sj :
  exec ls (idle w0) = Some q ->
  calls q !! i = Some si -> calls q !! j = Some sj ->
  is_running si = true -> is_running sj = true -> i = j.
Proof.
  intros He Hi Hj Hri Hrj.
  pose proof (ordered_exec _ _ _ He ordered_nil) as Ho.
  destruct (Nat.lt_trichotomy i j) as [Hlt|[Heq|Hgt]]; [|exact Heq|].
  - destruct (Ho i j si sj Hlt Hi Hj) as [H|H];
      destruct si, sj; discriminate.
  - destruct (Ho j i sj si Hgt Hj Hi) as [H|H];
      destruct si, sj; discriminate.
Qed.

(** Alone on the chain, [withLock(fn)] comes to running [fn] at once,
    whatever the schedule. *)
Lemma withLock_alone {A} (fn : Task A) (ls : list (Label A)) w q :
  arrivals ls = [fn] ->
  exec ls (idle w) = Some q ->
  Forall (fun s => is_Some (result_of s)) (calls q) ->
  (results_of q, world q) = ([fst (withLock fn w)], snd (withLock fn w)).
Proof.
  intros Ha He Hall. unfold results_of.
  rewrite (serial_outcome ls w q He Hall), Ha. simpl. unfold withLock.
  now destruct (run fn w).
Qed.

(** C9.  The chain of promises behind [withLock], under every schedule of
    the event loop (calls arriving at any moment, bodies suspended at each
    file operation):
    (a) a call is started only once every earlier call has settled and
        released the chain, so no two bodies are ever running at once;
    (b) the bodies are started in the order of the calls;
    (c) whatever has happened, the calls in the queue can all be brought
        to completion, and when all have settled each caller holds the
        result of its own body run after the bodies of the earlier calls,
        whether those returned or threw;
    and so two [adjustWallet] calls of +500 and -200, in either order and
    however they overlap, leave a balance of 1000 at 1300. *)
Theorem withLock_serializes :
  (forall A (ls : list (Label A)) w0 q i j si sj,
      exec ls (idle w0) = Some q ->
      (i < j)%nat -> calls q !! i = Some si -> calls q !! j = Some sj ->
      is_waiting sj = false -> is_released si = true)
  /\ (forall A (ls : list (Label A)) w0 q i j si sj,
        exec ls (idle w0) = Some q ->
        calls q !! i = Some si -> calls q !! j = Some sj ->
        is_running si = true -> is_running sj = true -> i = j)
  /\ (forall A (ls1 ls2 : list (Label A)) j w0 q,
        exec (ls1 ++ Start j :: ls2) (idle w0) = Some q ->
        forall i, (i < j)%nat -> In (Start i) ls1)
  /\ (forall A (ls : list (Label A)) w0 q,
        exec ls (idle w0) = Some q -> completes q)
  /\ (forall A (ls : list (Label A)) w0 q,
        exec ls (idle w0) = Some q ->
        Forall (fun s => is_Some (result_of s)) (calls q) ->
        (results_of q, world q) = seq_run (arrivals ls) w0)
  /\ (forall (ls : list (Label UserAccount.t)) w0 q userId u,
        disk w0 !! userId = Some u ->
        (UserAccount.walletBalancePaise u == 1000)%Q ->
        arrivals ls = [adjustWallet_body userId 500;
                       adjustWallet_body userId (-200)]
        \/ arrivals ls = [adjustWallet_body userId (-200);
                          adjustWallet_body userId 500] ->
        exec ls (idle w0) = Some q ->
        Forall (fun s => is_Some (result_of s)) (calls q) ->
        exists u',
          disk (world q) !! userId = Some u'
          /\ (UserAccount.walletBalancePaise u' == 1300)%Q).
Proof.
  split; [|split; [|split; [|split; [|split]]]].
  - intros A ls w0 q i j si sj He Hij Hi Hj Hw.
    pose proof (ordered_exec _ _ _ He ordered_nil) as Ho.
    destruct (Ho i j si sj Hij Hi Hj) as [H|H]; [exact H|congruence].
  - intros A ls w0 q i j si sj. apply one_running.
  - intros A ls1 ls2 j w0 q. apply start_order.
  - intros A ls w0 q He. apply completes_ordered.
    exact (ordered_exec _ _ _ He ordered_nil).
  - intros A ls w0 q. apply serial_outcome.
  - intros ls w0 q userId u Hl Hb Harr He Hall.
    pose proof (serial_outcome ls w0 q He Hall) as Hs.
    assert (Hw : world q = snd (seq_run (arrivals ls) w0))
      by now rewrite <- Hs.
    rewrite Hw.
    destruct Harr as [-> | ->].
    + destruct (two_adjustments w0 userId u 500 (-200) Hl)
        as (u' & r1 & r2 & _ & Hd & Hbal); [lra|lra|].
      exists u'. split; [exact Hd|]. rewrite Hbal. lra.
    + destruct (two_adjustments w0 userId u (-200) 500 Hl)
        as (u' & r1 & r2 & _ & Hd & Hbal); [lra|lra|].
      exists u'. split; [exact Hd|]. rewrite Hbal. lra.
Qed.

Lemma withLock_serializes_witness :
  exists q,
    exec interleaved (idle saver_world) = Some q
    /\ exists u',
        disk (world q) !! "u5" = Some u'
        /\ (UserAccount.walletBalancePaise u' == 1300)%Q.
Proof.
  eexists. split; [vm_compute; reflexivity|].
  eapply (proj2 (proj2 (proj2 (proj2 (proj2 withLock_serializes))))
            interleaved saver_world _ "u5" saver).
  - reflexivity.
  - reflexivity.
  - left. reflexivity.
  - vm_compute. reflexivity.
  - repeat constructor; eexists; reflexivity.
Defined.

(** * Further properties of the store and the routes *)

(** ** What an operation can touch *)

(** What a store mutator that returns has done to the record. *)
Lemma store_mutator_Ok mutator u u1 w w1 :
  store_mutator mutator ->
  run (mutator u) w = (Ok u1, w1) ->
  UserAccount.userId u1 = UserAccount.userId u
  /\ UserAccount.createdAt u1 = UserAccount.createdAt u
  /\ ((length (UserAccount.paymentHistory u1) <= 50)%nat
      \/ UserAccount.paymentHistory u1 = UserAccount.paymentHistory u).
Proof.
  destruct 1; simpl.
  - intros [= <- _]. simpl. repeat split. left.
    rewrite length_take. lia.
  - intros [= <- _]. simpl. auto.
  - intros [= <- _]. simpl. auto.
  - unfold adjustWallet_mutator. destruct (Qltb _ _); [discriminate|].
    intros [= <- _]. simpl. auto.
  - intros [= <- _]. simpl. auto.
  - unfold ensureActivePlanMinutes_mutator.
    destruct (UserAccount.activePlan u) as [plan|]; [|discriminate].
    destruct (Qltb _ _); [discriminate|]. intros [= <- _]. simpl. auto.
  - unfold consumeTrialMinutes_mutator.
    destruct (UserAccount.trial u) as [trial|]; [|discriminate].
    destruct (TrialInfo.active trial); [|discriminate]. simpl.
    destruct (_ <? _)%Z; [discriminate|].
    destruct (Qgtb _ _); [discriminate|]. intros [= <- _]. simpl. auto.
Qed.

Lemma store_mutator_local mutator :
  store_mutator mutator -> mutator_local mutator.
Proof. destruct 1; auto with ledger. Qed.

Section Operations.
Variable I : Users -> Prop.

(** A route that needs a session updates no account but the session's, and
    only through the mutators of the store. *)
Lemma preserves_session_route key_id key_secret r :
  creates_account (Serve key_id key_secret r) = false ->
  (forall a mutator,
      request_user r = Some a -> store_mutator mutator ->
      preserves I (updateUser a mutator)) ->
  preserves I (handle key_id key_secret r).
Proof.
  intros Hc Hupd.
  assert (Hstore : forall a,
             request_user r = Some a ->
             (forall data, preserves I (recordPayment a data))
             /\ (forall plan, preserves I (activatePlan a plan))
             /\ (forall trial, preserves I (setTrialInfo a trial))
             /\ (forall delta, preserves I (adjustWallet a delta))
             /\ (forall minutes, preserves I (consumeTrialMinutes a minutes))).
  { intros a Ha. repeat split; intros; apply Hupd; auto; constructor. }
  destruct r as [sub payload|[a|]|[a|]|[a|] req|[a|] minutes];
    try discriminate; simpl; try apply preserves_ret;
    destruct (Hstore a eq_refl) as (Hrec & Hact & Htrial & Hadj & Hcons).
  - unfold get_status. preserves_route.
  - unfold start_trial. preserves_route; apply Htrial.
  - unfold confirm. preserves_route; auto.
  - unfold usage_consume. preserves_route; auto.
Qed.

(** Any operation: what it does to the file it does through
    [getOrCreateUser] or through an update of the account it names. *)
Lemma preserves_operation o :
  (forall a profile,
      actor o = Some a -> creates_account o = true ->
      preserves I (getOrCreateUser a profile)) ->
  (forall a mutator,
      actor o = Some a -> store_mutator mutator ->
      preserves I (updateUser a mutator)) ->
  forall w, I (disk w) -> I (disk (step o w)).
Proof.
  intros Hnew Hupd.
  destruct o as [op|key_id key_secret r].
  - destruct op; simpl in *;
      solve [ apply Hnew; reflexivity
            | apply Hupd; [reflexivity|constructor]
            | intros w H; exact H ].
  - destruct (creates_account (Serve key_id key_secret r)) eqn:Hc.
    + destruct r; try discriminate. simpl in *.
      unfold auth_google.
      apply preserves_bind; [|intros ?; apply preserves_ret].
      apply Hnew; reflexivity.
    + simpl. apply preserves_session_route; [exact Hc|]. exact Hupd.
Qed.

Lemma preserves_trace ops :
  (forall userId profile, preserves I (getOrCreateUser userId profile)) ->
  (forall userId mutator,
      store_mutator mutator -> preserves I (updateUser userId mutator)) ->
  forall w, I (disk w) -> Forall (fun w' => I (disk w')) (trace ops w).
Proof.
  intros Hnew Hupd.
  induction ops as [|o ops IH]; intros w H; simpl; constructor.
  - apply preserves_operation; auto.
  - apply IH. apply preserves_operation; auto.
Qed.
End Operations.

(** ** The payment history *)

Lemma history_ok_insert users userId u :
  history_ok users ->
  (length (UserAccount.paymentHistory u) <= 50)%nat ->
  history_ok (<[userId := u]> users).
Proof.
  intros Hok Hu k v. rewrite lookup_insert_Some.
  intros [[_ <-]|[_ Hk]]; [exact Hu|exact (Hok k v Hk)].
Qed.

Lemma history_ok_getOrCreateUser userId profile :
  preserves history_ok (getOrCreateUser userId profile).
Proof.
  intros w H. rewrite getOrCreateUser_unfold.
  destruct (disk w !! userId) as [existing|] eqn:Hl.
  - destruct profile as [p|]; simpl; [|exact H].
    apply history_ok_insert; [exact H|]. simpl. exact (H _ _ Hl).
  - simpl. apply history_ok_insert; [exact H|]. simpl. lia.
Qed.

Lemma history_ok_updateUser userId mutator :
  store_mutator mutator -> preserves history_ok (updateUser userId mutator).
Proof.
  intros Hm. apply preserves_updateUser; [now apply store_mutator_local|].
  intros users u u1 w w1 t Hok Hl Hr.
  apply history_ok_insert; [exact Hok|]. simpl.
  destruct (store_mutator_Ok _ _ _ _ _ Hm Hr) as (_ & _ & [Hlen|Heq]).
  - exact Hlen.
  - rewrite Heq. exact (Hok _ _ Hl).
Qed.

(** X1. No sequence of store calls and requests lets a stored payment
    history grow past fifty entries: if every history of the file has at
    most fifty entries, so has every history after each operation. *)
Theorem payment_history_capped ops w :
  history_ok (disk w) ->
  Forall (fun w' => history_ok (disk w')) (trace ops w).
Proof.
  apply preserves_trace.
  - apply history_ok_getOrCreateUser.
  - intros userId mutator. apply history_ok_updateUser.
Qed.

(** X2. [recordPayment] on a stored account puts the new record, stamped
    with the current time, in front of the history, keeps the earlier
    records behind it in their order, and drops what would come after the
    fiftieth place; the record it returns is the one it stored. *)
Theorem recordPayment_newest_first w userId data u :
  disk w !! userId = Some u ->
  exists u1 w1,
    recordPayment userId data w = (Ok u1, w1)
    /\ disk w1 !! userId = Some u1
    /\ UserAccount.paymentHistory u1 !! 0%nat
       = Some (PaymentRecord.mk (d_type data) (d_razorpayOrderId data)
                 (d_razorpayPaymentId data) (d_amountInPaise data)
                 (d_planId data) (clock w (reads w)))
    /\ (forall i, (i < 49)%nat ->
          UserAccount.paymentHistory u1 !! S i
          = UserAccount.paymentHistory u !! i)
    /\ length (UserAccount.paymentHistory u1)
       = Nat.min 50 (S (length (UserAccount.paymentHistory u))).
Proof.
  intros Hl. unfold recordPayment. rewrite updateUser_unfold, Hl.
  eexists _, _. split; [reflexivity|].
  split; [apply lookup_insert_eq|].
  cbn [UserAccount.paymentHistory UserAccount.set_updatedAt
       UserAccount.set_paymentHistory].
  split; [reflexivity|]. split.
  - intros i Hi. rewrite lookup_take_lt by lia. reflexivity.
  - rewrite length_take. reflexivity.
Qed.

(** ** Accounts and their keys *)

Lemma keys_ok_insert users userId u :
  keys_ok users -> UserAccount.userId u = userId ->
  keys_ok (<[userId := u]> users).
Proof.
  intros Hok Hu k v. rewrite lookup_insert_Some.
  intros [[<- <-]|[_ Hk]]; [exact Hu|exact (Hok k v Hk)].
Qed.

(** X3. Every account stays filed under its own id: if each key of the
    users file is the [userId] of the record stored under it, this remains
    so after each operation of any sequence of store calls and requests. *)
Theorem accounts_keyed_by_id ops w :
  keys_ok (disk w) ->
  Forall (fun w' => keys_ok (disk w')) (trace ops w).
Proof.
  apply preserves_trace.
  - intros userId profile w0 H. rewrite getOrCreateUser_unfold.
    destruct (disk w0 !! userId) as [existing|] eqn:Hl.
    + destruct profile as [p|]; simpl; [|exact H].
      apply keys_ok_insert; [exact H|]. simpl. exact (H _ _ Hl).
    + simpl. apply keys_ok_insert; [exact H|]. reflexivity.
  - intros userId mutator Hm.
    apply preserves_updateUser; [now apply store_mutator_local|].
    intros users u u1 w0 w1 t Hok Hl Hr.
    apply keys_ok_insert; [exact Hok|]. simpl.
    destruct (store_mutator_Ok _ _ _ _ _ Hm Hr) as (Hid & _).
    rewrite Hid. exact (Hok _ _ Hl).
Qed.

(** X4. No operation removes an account, and an account appears only
    through [getOrCreateUser], called directly or by the login route: after
    any other operation an id that was not in the file is still not in it. *)
Theorem accounts_only_added o w k :
  (is_Some (disk w !! k) -> is_Some (disk (step o w) !! k))
  /\ (creates_account o = false ->
      disk w !! k = None -> disk (step o w) !! k = None).
Proof.
  split.
  - apply (preserves_operation (fun users => is_Some (users !! k))).
    + intros a profile _ _ w0 H. rewrite getOrCreateUser_unfold.
      destruct (disk w0 !! a) as [existing|] eqn:Hl.
      * destruct profile as [p|]; simpl; [|exact H].
        rewrite lookup_insert_is_Some. destruct (decide (a = k)); auto.
      * simpl. rewrite lookup_insert_is_Some. destruct (decide (a = k)); auto.
    + intros a mutator _ Hm.
      apply preserves_updateUser; [now apply store_mutator_local|].
      intros users u u1 w0 w1 t H Hl Hr.
      rewrite lookup_insert_is_Some. destruct (decide (a = k)); auto.
  - intros Hc.
    apply (preserves_operation (fun users => users !! k = None)).
    + intros a profile _ Hc'. congruence.
    + intros a mutator _ Hm.
      apply preserves_updateUser; [now apply store_mutator_local|].
      intros users u u1 w0 w1 t H Hl Hr.
      rewrite lookup_insert_ne; [exact H|]. intros ->. congruence.
Qed.

(** X5. An operation touches no account but the one it is made for: the
    record stored under any other id is the same before and after a store
    call for [userId], a login of [sub] or a request of a session; a
    request without a session leaves every record as it was. *)
Theorem other_accounts_untouched o w k :
  actor o <> Some k ->
  disk (step o w) !! k = disk w !! k.
Proof.
  intros Hk.
  apply (preserves_operation (fun users => users !! k = disk w !! k));
    [| |reflexivity].
  - intros a profile Ha _ w0 H. rewrite getOrCreateUser_unfold.
    assert (Hne : a <> k) by congruence.
    destruct (disk w0 !! a) as [existing|] eqn:Hl.
    + destruct profile as [p|]; simpl; [|exact H].
      now rewrite lookup_insert_ne.
    + simpl. now rewrite lookup_insert_ne.
  - intros a mutator Ha Hm.
    assert (Hne : a <> k) by congruence.
    apply preserves_updateUser; [now apply store_mutator_local|].
    intros users u u1 w0 w1 t H Hl Hr.
    now rewrite lookup_insert_ne.
Qed.

(** ** Requests are answered, and fail without a trace *)

Lemma quiet_ret {A} (a : A) : quiet (mret a).
Proof. intros w. reflexivity. Qed.

Lemma quiet_Date_now : quiet Date_now.
Proof. intros w. reflexivity. Qed.

Lemma quiet_loadUser userId : quiet (loadUser userId).
Proof. intros w. reflexivity. Qed.

Lemma quiet_bind {A B} (m : M A) (f : A -> M B) :
  quiet m -> (forall x, quiet (f x)) -> quiet (m ≫= f).
Proof.
  intros Hm Hf w. specialize (Hm w). unfold mbind, M_mbind.
  destruct (m w) as [[x|e] w1]; simpl in *; [|exact Hm].
  rewrite Hf. exact Hm.
Qed.

Lemma quiet_get_status key_id userId : quiet (get_status key_id userId).
Proof.
  unfold get_status.
  repeat first
    [ apply quiet_ret | apply quiet_Date_now | apply quiet_loadUser
    | apply quiet_bind; [|intros ?]
    | match goal with
      | |- quiet (match ?x with _ => _ end) => destruct x
      end ].
Qed.

Lemma clean_quiet (m : M Response) : quiet m -> clean m.
Proof.
  intros Hm w. specialize (Hm w).
  destruct (m w) as [[resp|e] w1]; simpl in Hm; auto.
Qed.

Lemma clean_ret resp : clean (mret resp).
Proof. intros w. now right. Qed.

Lemma clean_quiet_bind {A} (m : M A) (f : A -> M Response) :
  quiet m -> (forall x, clean (f x)) -> clean (m ≫= f).
Proof.
  intros Hm Hf w. specialize (Hm w). unfold mbind, M_mbind.
  destruct (m w) as [[x|e] w1]; simpl in Hm; [|exact Hm].
  specialize (Hf x w1). destruct (f x w1) as [[resp|e] w2].
  - destruct Hf as [H|H]; [now left|right; congruence].
  - congruence.
Qed.

Lemma clean_commit userId {A} (m : M A) (f : A -> M Response) :
  commits userId m -> (forall x, sure userId (f x)) -> clean (m ≫= f).
Proof.
  intros Hm Hf w. specialize (Hm w). unfold mbind, M_mbind.
  destruct (m w) as [[x|e] w1]; [|exact Hm].
  destruct (Hf x w1 Hm) as (resp & w2 & -> & Hs). now left.
Qed.

Lemma clean_try_catch (m : M Response) (h : string -> M Response) :
  clean m -> (forall e, quiet (h e)) -> clean (try_catch m h).
Proof.
  intros Hm Hh w. specialize (Hm w). unfold try_catch.
  destruct (m w) as [[resp|e] w1]; [exact Hm|].
  specialize (Hh e w1). destruct (h e w1) as [[resp|e'] w2]; simpl in Hh.
  - right. congruence.
  - congruence.
Qed.

Lemma commits_updateUser userId mutator :
  store_mutator mutator -> commits userId (updateUser userId mutator).
Proof.
  intros Hm w. rewrite updateUser_unfold.
  destruct (disk w !! userId) as [existing|]; [|reflexivity].
  pose proof (store_mutator_local _ Hm existing w) as Hd.
  destruct (run (mutator existing) w) as [[u1|e] w1]; simpl in *.
  - rewrite lookup_insert_eq. eauto.
  - exact Hd.
Qed.

Lemma sure_json userId b : sure userId (mret (json b)).
Proof. intros w _. eexists _, _. split; reflexivity. Qed.

Lemma sure_loadUser userId userId' (f : option UserAccount.t -> Body) :
  sure userId (user ← loadUser userId'; mret (json (f user))).
Proof. intros w _. eexists _, _. split; reflexivity. Qed.

Lemma sure_recordPayment userId data (m : M Response) :
  sure userId m -> sure userId (recordPayment userId data ≫= fun _ => m).
Proof.
  intros Hm w [u Hl]. unfold mbind, M_mbind, recordPayment.
  rewrite updateUser_unfold, Hl. simpl.
  apply Hm. simpl. rewrite lookup_insert_eq. eauto.
Qed.

Ltac clean_step :=
  first
    [ apply clean_ret
    | apply quiet_ret
    | apply sure_json
    | apply sure_loadUser
    | apply sure_recordPayment
    | apply clean_try_catch; [|intros ?]
    | apply clean_quiet_bind;
        [first [apply quiet_Date_now | apply quiet_loadUser]|intros ?]
    | eapply clean_commit;
        [apply commits_updateUser; constructor|intros ?]
    | match goal with
      | |- clean (match ?x with _ => _ end) => destruct x
      end ].

Ltac clean_route :=
  cbv zeta;
  unfold activatePlan, setTrialInfo, adjustWallet, consumeTrialMinutes;
  repeat clean_step.

Lemma clean_handle key_id key_secret r :
  clean (handle key_id key_secret r).
Proof.
  destruct r as [sub payload|[a|]|[a|]|[a|] req|[a|] minutes]; simpl;
    try apply clean_ret.
  - intros w. unfold auth_google, mbind, M_mbind.
    rewrite getOrCreateUser_unfold.
    destruct (disk w !! sub) as [existing|]; now left.
  - apply clean_quiet, quiet_get_status.
  - unfold start_trial. clean_route.
  - unfold confirm. clean_route.
  - unfold usage_consume. clean_route.
Qed.

Lemma answers_ret {A} (a : A) : answers (mret a).
Proof. intros w. eexists _, _. reflexivity. Qed.

Lemma answers_bind {A B} (m : M A) (f : A -> M B) :
  answers m -> (forall x, answers (f x)) -> answers (m ≫= f).
Proof.
  intros Hm Hf w. destruct (Hm w) as (x & w1 & Hx).
  unfold mbind, M_mbind. rewrite Hx. apply Hf.
Qed.

Lemma answers_try_catch {A} (m : M A) (h : string -> M A) :
  (forall e, answers (h e)) -> answers (try_catch m h).
Proof.
  intros Hh w. unfold try_catch.
  destruct (m w) as [[x|e] w1]; [eexists _, _; reflexivity|apply Hh].
Qed.

Lemma answers_loadUser userId : answers (loadUser userId).
Proof. intros w. eexists _, _. reflexivity. Qed.

Lemma answers_Date_now : answers Date_now.
Proof. intros w. eexists _, _. reflexivity. Qed.

Lemma answers_getOrCreateUser userId profile :
  answers (getOrCreateUser userId profile).
Proof.
  intros w. rewrite getOrCreateUser_unfold.
  destruct (disk w !! userId) as [existing|];
    [destruct profile|]; eexists _, _; reflexivity.
Qed.

Lemma answers_start_trial userId : answers (start_trial userId).
Proof.
  intros w. destruct (disk w !! userId) as [user|] eqn:Hl.
  - destruct (UserAccount.trial user) as [trial|] eqn:Ht.
    + rewrite (start_trial_existing_eq _ _ _ _ Hl Ht).
      eexists _, _. reflexivity.
    + rewrite (start_trial_grant_eq _ _ _ Hl Ht). eexists _, _. reflexivity.
  - unfold start_trial, mbind, M_mbind. rewrite loadUser_unfold, Hl.
    eexists _, _. reflexivity.
Qed.

Ltac answers_route :=
  cbv zeta;
  repeat first
    [ apply answers_ret | apply answers_loadUser | apply answers_Date_now
    | apply answers_try_catch; intros ?
    | apply answers_bind; [|intros ?]
    | match goal with
      | |- answers (match ?x with _ => _ end) => destruct x
      end ].

(** X6. Every request gets an answer: no route lets an error of the store
    escape.  The store calls that can throw sit inside the [try] blocks of
    the confirm and consume routes; the one call outside a [try], the
    [setTrialInfo] of start-trial, is made for an account the route has just
    read from the file, so it cannot throw. *)
Theorem requests_are_answered key_id key_secret r w :
  exists resp w1, handle key_id key_secret r w = (Ok resp, w1).
Proof.
  revert w. change (answers (handle key_id key_secret r)).
  destruct r as [sub payload|[a|]|[a|]|[a|] req|[a|] minutes]; simpl;
    try apply answers_ret.
  - unfold auth_google. apply answers_bind; [|intros ?; apply answers_ret].
    apply answers_getOrCreateUser.
  - unfold get_status. answers_route.
  - apply answers_start_trial.
  - unfold confirm. answers_route.
  - unfold usage_consume. answers_route.
Qed.

(** X7. A request that is not answered 200 has changed nothing: whenever
    the status of the answer is not 200 (400, 401, 402, 403, 404 or 500) the
    users file after the request is the file before it.  In particular a
    confirmation answered 500 has neither activated a plan nor credited the
    wallet. *)
Theorem failed_request_changes_nothing key_id key_secret r w resp w1 :
  handle key_id key_secret r w = (Ok resp, w1) ->
  status resp <> 200%nat ->
  disk w1 = disk w.
Proof.
  intros Hr Hs. pose proof (clean_handle key_id key_secret r w) as Hc.
  rewrite Hr in Hc. destruct Hc as [Hc|Hc]; [contradiction|exact Hc].
Qed.

(** ** Creating and updating accounts *)

(** X8. For an id that is stored, or that is absent and not a name every
    object inherits, [getOrCreateUser] returns, and the record it returns
    is the one [loadUser] finds afterwards.  For an id that is not in the
    file the record is new: the hints of the profile, an empty wallet, no
    trial, no plan and no payments.  For a stored account only the profile can
    change: a hint that is present replaces the stored value, an absent
    hint leaves it, and the wallet, trial, plan, payment history and
    creation time are those of the stored record. *)
Theorem getOrCreateUser_merges userId profile w :
  own_lookup (disk w) userId ->
  exists u w1,
    getOrCreateUser userId profile w = (Ok u, w1)
    /\ loadUser userId w1 = (Ok (Some u), w1)
    /\ match disk w !! userId with
       | None =>
           u = UserAccount.mk userId (profile ≫= p_email)
                 (profile ≫= p_name) (profile ≫= p_picture) 0 None None []
                 (clock w (reads w)) (clock w (S (reads w)))
       | Some existing =>
           UserAccount.userId u = UserAccount.userId existing
           /\ UserAccount.walletBalancePaise u
              = UserAccount.walletBalancePaise existing
           /\ UserAccount.trial u = UserAccount.trial existing
           /\ UserAccount.activePlan u = UserAccount.activePlan existing
           /\ UserAccount.paymentHistory u
              = UserAccount.paymentHistory existing
           /\ UserAccount.createdAt u = UserAccount.createdAt existing
           /\ UserAccount.email u
              = from_option Some (UserAccount.email existing)
                  (profile ≫= p_email)
           /\ UserAccount.name u
              = from_option Some (UserAccount.name existing)
                  (profile ≫= p_name)
           /\ UserAccount.picture u
              = from_option Some (UserAccount.picture existing)
                  (profile ≫= p_picture)
       end.
Proof.
  intros _. rewrite getOrCreateUser_unfold.
  destruct (disk w !! userId) as [existing|] eqn:Hl.
  - destruct profile as [[e n p]|]; eexists _, _.
    + split; [reflexivity|]. rewrite loadUser_unfold. simpl.
      rewrite lookup_insert_eq. split; [reflexivity|].
      destruct e, n, p; repeat split.
    + split; [reflexivity|]. rewrite loadUser_unfold, Hl.
      split; [reflexivity|]. repeat split.
  - eexists _, _. split; [reflexivity|]. rewrite loadUser_unfold. simpl.
    rewrite lookup_insert_eq. split; reflexivity.
Qed.

Lemma run_clock {A} (t : Task A) w :
  clock (snd (run t w)) = clock w /\ (reads w <= reads (snd (run t w)))%nat.
Proof.
  revert w. induction t as [a|m|k IH|d k IH|k IH]; intros w; simpl.
  - split; [reflexivity|lia].
  - split; [reflexivity|lia].
  - apply IH.
  - destruct (IH (set_disk d w)) as [Hc Hr]. split; assumption.
  - destruct (IH (clock w (reads w)) (tick w)) as [Hc Hr].
    split; [exact Hc|]. simpl in Hr. lia.
Qed.

(** X9. An update of the store is all or nothing, for an id that is stored
    or that is absent and not a name every object inherits.  When it
    returns, the account was in the file, the file differs from the old one
    only in that
    account, which is now the returned record, the record keeps its id and
    creation time, and its [updatedAt] is the last clock reading taken.
    When it throws, the file is as it was; for an id that is not in the
    file it throws "User <id> not found" without reading the clock. *)
Theorem updateUser_all_or_nothing userId mutator w :
  store_mutator mutator ->
  own_lookup (disk w) userId ->
  match updateUser userId mutator w with
  | (Ok u, w1) =>
      disk w1 = <[userId := u]> (disk w)
      /\ UserAccount.updatedAt u = clock w (Nat.pred (reads w1))
      /\ exists existing,
          disk w !! userId = Some existing
          /\ UserAccount.userId u = UserAccount.userId existing
          /\ UserAccount.createdAt u = UserAccount.createdAt existing
  | (Err e, w1) =>
      disk w1 = disk w
      /\ (disk w !! userId = None ->
          e = "User " ++ userId ++ " not found" /\ w1 = w)
  end.
Proof.
  intros Hm _. rewrite updateUser_unfold.
  destruct (disk w !! userId) as [existing|] eqn:Hl; [|auto].
  pose proof (store_mutator_local _ Hm existing w) as Hd.
  pose proof (run_clock (mutator existing) w) as [Hc _].
  destruct (run (mutator existing) w) as [[u1|e] w1] eqn:Hr; simpl in *.
  - split; [reflexivity|]. split; [now rewrite Hc|].
    exists existing. split; [reflexivity|].
    destruct (store_mutator_Ok _ _ _ _ _ Hm Hr) as (Hid & Hcr & _). auto.
  - split; [exact Hd|discriminate].
Qed.

(** ** Plan minutes *)

(** X10. The plan branch of [POST /usage/consume] and the store's
    [ensureActivePlanMinutes] agree.  For a stored account and a positive
    quantity: when the plan covers the quantity the store function returns
    and the route answers 200 with source "plan", both leaving the same
    world with the same updated record; when there is no plan or it has too
    few minutes the store function throws "No active plan" or "Insufficient
    plan minutes" and leaves the world as it was. *)
Theorem plan_branch_matches_ensureActivePlanMinutes w userId m user :
  disk w !! userId = Some user ->
  (0 < m)%Q ->
  if plan_covers user m then
    exists u' w1,
      ensureActivePlanMinutes userId m w = (Ok u', w1)
      /\ usage_consume userId (Some m) w
         = (Ok (json (UsageBody "plan" (Some (publicUser u')) None)), w1)
  else
    ensureActivePlanMinutes userId m w
    = (Err (match UserAccount.activePlan user with
            | Some _ => "Insufficient plan minutes"
            | None => "No active plan"
            end), w).
Proof.
  intros Hl Hm. unfold plan_covers, ensureActivePlanMinutes.
  rewrite updateUser_unfold, Hl. unfold ensureActivePlanMinutes_mutator.
  destruct (UserAccount.activePlan user) as [plan|] eqn:Hp; [|reflexivity].
  unfold Qltb. fold (Qgeb (ActivePlan.remainingMinutes plan) m).
  destruct (Qgeb _ _) eqn:Hc; [|reflexivity]. simpl.
  eexists _, _. split; [reflexivity|].
  apply Qgeb_true in Hc.
  exact (consume_plan w userId m user plan Hl Hm Hp Hc).
Qed.

Lemma plan_ok_insert users userId u :
  plan_ok users ->
  (forall plan, UserAccount.activePlan u = Some plan ->
                (0 <= ActivePlan.remainingMinutes plan)%Q) ->
  plan_ok (<[userId := u]> users).
Proof.
  intros Hok Hu k v plan. rewrite lookup_insert_Some.
  intros [[_ <-]|[_ Hk]]; [apply Hu|exact (Hok k v plan Hk)].
Qed.

Lemma plan_ok_getOrCreateUser userId profile :
  preserves plan_ok (getOrCreateUser userId profile).
Proof.
  intros w H. rewrite getOrCreateUser_unfold.
  destruct (disk w !! userId) as [existing|] eqn:Hl.
  - destruct profile as [p|]; simpl; [|exact H].
    apply plan_ok_insert; [exact H|]. simpl. intros plan.
    exact (H _ _ plan Hl).
  - simpl. apply plan_ok_insert; [exact H|]. discriminate.
Qed.

(** An update keeps the plans in order when the plan of the updated record
    is the stored one or has no negative balance. *)
Lemma plan_ok_updateUser userId (mutator : Mutator) :
  mutator_local mutator ->
  (forall u u1 w w1 plan,
      run (mutator u) w = (Ok u1, w1) ->
      UserAccount.activePlan u1 = Some plan ->
      UserAccount.activePlan u = Some plan
      \/ (0 <= ActivePlan.remainingMinutes plan)%Q) ->
  preserves plan_ok (updateUser userId mutator).
Proof.
  intros Hloc Hplan. apply preserves_updateUser; [exact Hloc|].
  intros users u u1 w w1 t Hok Hl Hr.
  apply plan_ok_insert; [exact Hok|]. simpl. intros plan Hp.
  destruct (Hplan _ _ _ _ _ Hr Hp) as [H|H]; [|exact H].
  exact (Hok _ _ _ Hl H).
Qed.

Lemma plan_ok_recordPayment userId data :
  preserves plan_ok (recordPayment userId data).
Proof.
  apply plan_ok_updateUser; [auto with ledger|].
  intros u u1 w w1 plan [= <- _]. auto.
Qed.

Lemma plan_ok_setTrialInfo userId trial :
  preserves plan_ok (setTrialInfo userId trial).
Proof.
  apply plan_ok_updateUser; [auto with ledger|].
  intros u u1 w w1 plan [= <- _]. auto.
Qed.

Lemma plan_ok_clearTrial userId : preserves plan_ok (clearTrial userId).
Proof.
  apply plan_ok_updateUser; [auto with ledger|].
  intros u u1 w w1 plan [= <- _]. auto.
Qed.

Lemma plan_ok_adjustWallet userId delta :
  preserves plan_ok (adjustWallet userId delta).
Proof.
  apply plan_ok_updateUser; [auto with ledger|].
  intros u u1 w w1 plan. unfold adjustWallet_mutator.
  destruct (Qltb _ _); [discriminate|]. intros [= <- _]. auto.
Qed.

Lemma plan_ok_consumeTrialMinutes userId minutes :
  preserves plan_ok (consumeTrialMinutes userId minutes).
Proof.
  apply plan_ok_updateUser; [auto with ledger|].
  intros u u1 w w1 plan. unfold consumeTrialMinutes_mutator.
  destruct (UserAccount.trial u) as [trial|]; [|discriminate].
  destruct (TrialInfo.active trial); [|discriminate]. simpl.
  destruct (_ <? _)%Z; [discriminate|].
  destruct (Qgtb _ _); [discriminate|]. intros [= <- _]. auto.
Qed.

Lemma plan_ok_ensureActivePlanMinutes userId minutes :
  preserves plan_ok (ensureActivePlanMinutes userId minutes).
Proof.
  apply plan_ok_updateUser; [auto with ledger|].
  intros u u1 w w1 plan. unfold ensureActivePlanMinutes_mutator.
  destruct (UserAccount.activePlan u) as [plan0|]; [|discriminate].
  destruct (Qltb _ _) eqn:Hc; [discriminate|]. intros [= <- _].
  simpl. intros [= <-]. right. simpl.
  apply Qltb_false in Hc. lra.
Qed.

Lemma plan_ok_activatePlan userId plan :
  (0 <= ActivePlan.remainingMinutes plan)%Q ->
  preserves plan_ok (activatePlan userId plan).
Proof.
  intros Hp. apply plan_ok_updateUser; [auto with ledger|].
  intros u u1 w w1 plan0 [= <- _]. simpl. intros [= <-]. now right.
Qed.

Lemma PLANS_minutes planId plan :
  PLANS planId = Some plan -> (0 <= minutesIncluded plan)%Q.
Proof.
  unfold PLANS. intros H. apply List.find_some in H as [Hin _].
  unfold PLANS_table in Hin. simpl in Hin.
  repeat (destruct Hin as [<-|Hin]; [simpl; discriminate|]).
  destruct Hin.
Qed.

#[export] Hint Resolve plan_ok_getOrCreateUser plan_ok_recordPayment
  plan_ok_setTrialInfo plan_ok_clearTrial plan_ok_adjustWallet
  plan_ok_consumeTrialMinutes plan_ok_ensureActivePlanMinutes : ledger.

Ltac preserves_guarded :=
  cbv zeta;
  repeat first
    [ apply preserves_ret
    | apply preserves_throw
    | apply preserves_Date_now
    | apply preserves_loadUser
    | solve [eauto with ledger]
    | apply preserves_bind; [|intros ?]
    | apply preserves_try_catch; [|intros ?]
    | match goal with
      | |- preserves _ (match ?x with _ => _ end) => destruct x eqn:?
      end ].

Lemma plan_ok_handle key_id key_secret r :
  preserves plan_ok (handle key_id key_secret r).
Proof.
  destruct r as [sub payload|[a|]|[a|]|[a|] req|[a|] minutes]; simpl;
    try apply preserves_ret.
  - unfold auth_google. preserves_route.
  - unfold get_status. preserves_route.
  - unfold start_trial. preserves_route.
  - unfold confirm. preserves_guarded.
    apply plan_ok_activatePlan. simpl.
    destruct (c_planId req) as [planId|]; [|discriminate].
    eapply PLANS_minutes. eassumption.
  - unfold usage_consume. preserves_guarded.
    apply plan_ok_activatePlan. simpl.
    match goal with H : Qgeb _ _ = true |- _ => apply Qgeb_true in H end.
    lra.
Qed.

(** X11. Plan minutes never go negative.  If every stored plan has at least
    zero minutes left, this is still so after each operation of any
    sequence of requests and store calls that hands [activatePlan] only
    plans with at least zero minutes and whose account ids and plan ids are
    not names every object inherits, so that a confirmation finds its plan
    in the catalogue or not at all: the consume route and
    [ensureActivePlanMinutes] take minutes only from a plan that has them,
    and a confirmed purchase stores the minutes of the catalogue. *)
Theorem plan_minutes_never_negative ops w :
  Forall respects_plan ops ->
  forallb plain ops = true ->
  plan_ok (disk w) ->
  Forall (fun w' => plan_ok (disk w')) (trace ops w).
Proof.
  intros Hops Hplain. revert w Hops Hplain.
  induction ops as [|o ops IH]; intros w Hops Hplain H; simpl.
  - constructor.
  - inversion Hops as [|? ? Ho Hrest]; subst.
    apply andb_true_iff in Hplain as [_ Hplain].
    assert (Hstep : plan_ok (disk (step o w))).
    { destruct o as [op|key_id key_secret r]; simpl.
      - destruct op as [a p|a d|a plan|a t|a d|a|a m|a m|a].
        + exact (plan_ok_getOrCreateUser a p w H).
        + exact (plan_ok_recordPayment a d w H).
        + exact (plan_ok_activatePlan a plan Ho w H).
        + exact (plan_ok_setTrialInfo a t w H).
        + exact (plan_ok_adjustWallet a d w H).
        + exact (plan_ok_clearTrial a w H).
        + exact (plan_ok_ensureActivePlanMinutes a m w H).
        + exact (plan_ok_consumeTrialMinutes a m w H).
        + exact H.
      - exact (plan_ok_handle key_id key_secret r w H). }
    constructor; [exact Hstep|]. now apply IH.
Qed.

(** ** Reading the status *)


(** ** The shape of the expected signature *)

Lemma round_length st k :
  length (fst st) = 8%nat -> length (fst (NodeCrypto.round st k)) = 8%nat.
Proof.
  destruct st as [v ws]. simpl. intros H.
  do 8 (destruct v as [|? v]; [discriminate H|]).
  destruct v; [reflexivity|discriminate H].
Qed.

Lemma rounds_length ks st :
  length (fst st) = 8%nat ->
  length (fst (fold_left NodeCrypto.round ks st)) = 8%nat.
Proof.
  revert st. induction ks as [|k ks IH]; intros st H; cbn [fold_left];
    [exact H|].
  apply IH. apply round_length. exact H.
Qed.

Lemma compress_length h block :
  length h = 8%nat -> length (NodeCrypto.compress h block) = 8%nat.
Proof.
  intros H. unfold NodeCrypto.compress.
  pose proof (rounds_length NodeCrypto.K256 (h, block) H) as Hv.
  destruct (fold_left NodeCrypto.round NodeCrypto.K256 (h, block)) as [v ws].
  simpl in Hv. rewrite length_map, length_combine, H, Hv. reflexivity.
Qed.

Lemma fold_left_length {A B} (f : list A -> B -> list A) (n : nat) :
  (forall h b, length h = n -> length (f h b) = n) ->
  forall bs h, length h = n -> length (fold_left f bs h) = n.
Proof.
  intros Hf bs. induction bs as [|b bs IH]; intros h H; [exact H|].
  apply IH, Hf, H.
Qed.

Lemma hash_length bs h :
  length h = 8%nat -> length (fold_left NodeCrypto.compress bs h) = 8%nat.
Proof. apply fold_left_length. exact compress_length. Qed.

Lemma bytes_of_words_length (ws : list Z) :
  length (flat_map NodeCrypto.bytes_of_word ws) = (4 * length ws)%nat.
Proof.
  induction ws as [|x ws IH]; [reflexivity|].
  change (flat_map NodeCrypto.bytes_of_word (x :: ws))
    with (NodeCrypto.bytes_of_word x
          ++ flat_map NodeCrypto.bytes_of_word ws)%list.
  rewrite length_app, IH. unfold NodeCrypto.bytes_of_word.
  cbn [length]. lia.
Qed.

Lemma sha256_length msg : length (NodeCrypto.sha256 msg) = 32%nat.
Proof.
  unfold NodeCrypto.sha256. cbv zeta.
  rewrite bytes_of_words_length, hash_length; reflexivity.
Qed.

Lemma hex_length bs :
  String.length (NodeCrypto.hex bs) = (2 * length bs)%nat.
Proof.
  unfold NodeCrypto.hex.
  assert (H : forall l, String.length (string_of_list_ascii l) = length l).
  { induction l as [|c l IH]; simpl; [reflexivity|now rewrite IH]. }
  rewrite H. induction bs as [|b bs IH]; simpl; [reflexivity|].
  rewrite IH. lia.
Qed.

Lemma digest_length key data :
  String.length (NodeCrypto.createHmac_sha256_hex key data) = 64%nat.
Proof.
  unfold NodeCrypto.createHmac_sha256_hex, NodeCrypto.hmac_sha256.
  rewrite hex_length, sha256_length. reflexivity.
Qed.

Lemma digest_not_empty key data :
  NodeCrypto.createHmac_sha256_hex key data <> EmptyString.
Proof.
  intros H. pose proof (digest_length key data) as Hl.
  rewrite H in Hl. discriminate Hl.
Qed.

Lemma hex_digit_lower n :
  In (NodeCrypto.hex_digit n) (list_ascii_of_string "0123456789abcdef").
Proof.
  unfold NodeCrypto.hex_digit.
  set (l := list_ascii_of_string "0123456789abcdef").
  destruct (Nat.lt_ge_cases (Z.to_nat n) (length l)) as [Hlt|Hge].
  - now apply nth_In.
  - rewrite nth_overflow by exact Hge. simpl. now left.
Qed.

(** X13. The signature the confirm route expects is always 64 characters
    long, each one of [0123456789abcdef].  So a confirmation whose order
    id, payment id and signature are present and whose signature has any
    other length is answered 400 "Invalid signature", whatever the key, and
    nothing is changed. *)
Theorem expected_signature_shape key_secret userId req o p s w :
  (String.length (expected_signature key_secret req) = 64%nat
   /\ Forall (fun c => In c (list_ascii_of_string "0123456789abcdef"))
        (list_ascii_of_string (expected_signature key_secret req)))
  /\ (razorpay_order_id req = Some o -> o <> EmptyString ->
      razorpay_payment_id req = Some p -> p <> EmptyString ->
      razorpay_signature req = Some s -> s <> EmptyString ->
      String.length s <> 64%nat ->
      confirm key_secret userId req w
      = (Ok (status_json 400 (ErrorBody "Invalid signature")), w)).
Proof.
  split.
  - split; [apply digest_length|].
    unfold expected_signature, NodeCrypto.createHmac_sha256_hex.
    generalize (NodeCrypto.hmac_sha256 (NodeCrypto.bytes_of_string key_secret)
                  (NodeCrypto.bytes_of_string
                     (default EmptyString (razorpay_order_id req) ++ "|"
                      ++ default EmptyString (razorpay_payment_id req)))).
    intros bs. unfold NodeCrypto.hex.
    rewrite list_ascii_of_string_of_list_ascii.
    induction bs as [|b bs IH]; simpl; [constructor|].
    constructor; [apply hex_digit_lower|].
    constructor; [apply hex_digit_lower|exact IH].
  - intros Ho Ho' Hp Hp' Hs Hs' Hlen.
    apply (confirm_invalid_signature key_secret userId req o p s w
             Ho Ho' Hp Hp' Hs Hs').
    intros ->. apply Hlen, digest_length.
Qed.

(** ** Confirmed payments *)

Lemma not_number_nonzero (q : Q) : ~ (q == 0)%Q -> not_number (Some q) = false.
Proof.
  intros H. cbn [not_number].
  destruct (Qeq_bool q 0) eqn:E; [|reflexivity].
  apply Qeq_bool_iff in E. contradiction.
Qed.

Lemma Qltb_false_of_le (a : Q) : (0 <= a)%Q -> Qltb a 0 = false.
Proof.
  intros H. destruct (Qltb a 0) eqn:E; [|reflexivity].
  apply Qltb_true in E. lra.
Qed.

(** X14. A confirmed plan purchase replaces the plan.  For a stored account
    and a confirmation with the expected signature, intent "plan" and a
    plan id of the catalogue, the answer is 200 with the stored record, and
    that record has a plan activated at the time of the request, expiring
    thirty days later, with exactly the minutes of the catalogue entry:
    minutes left on a previous plan are not carried over.  The payment is
    put in front of the history at the catalogue price, whatever amount the
    request names; wallet and trial are as before. *)
Theorem confirm_plan_purchase key_secret userId req o p planId plan user w :
  razorpay_order_id req = Some o -> o <> EmptyString ->
  razorpay_payment_id req = Some p -> p <> EmptyString ->
  razorpay_signature req
  = Some (NodeCrypto.createHmac_sha256_hex key_secret (o ++ "|" ++ p)) ->
  intent req = Some "plan" ->
  c_planId req = Some planId ->
  PLANS planId = Some plan ->
  disk w !! userId = Some user ->
  let now := clock w (reads w) in
  exists user' w1,
    confirm key_secret userId req w
    = (Ok (json (UserBody (Some (publicUser user')))), w1)
    /\ disk w1 = <[userId := user']> (disk w)
    /\ UserAccount.activePlan user'
       = Some (ActivePlan.mk (plan_id plan) now
                 (Some (now + THIRTY_DAYS_MS)%Z) (minutesIncluded plan))
    /\ UserAccount.paymentHistory user'
       = take 50
           (PaymentRecord.mk plan_payment o p (priceInPaise plan)
              (Some (plan_id plan)) (clock w (2 + reads w))
            :: UserAccount.paymentHistory user)
    /\ UserAccount.walletBalancePaise user'
       = UserAccount.walletBalancePaise user
    /\ UserAccount.trial user' = UserAccount.trial user.
Proof.
  intros Ho Ho' Hp Hp' Hs Hi Hid Hplan Hl now0. unfold confirm.
  rewrite Ho, Hp, Hs, (not_string_present o Ho'), (not_string_present p Hp'),
    (not_string_present _ (digest_not_empty _ _)).
  cbn [orb default from_option id].
  rewrite bool_decide_eq_true_2 by reflexivity. cbn [negb].
  rewrite Hi, Hid. rewrite bool_decide_eq_true_2 by reflexivity.
  cbn [mbind option_bind]. rewrite Hplan.
  unfold try_catch, mbind, M_mbind. cbn [Date_now].
  unfold activatePlan, recordPayment. rewrite updateUser_unfold.
  cbn [disk tick]. rewrite Hl. simpl.
  rewrite updateUser_unfold. simpl. rewrite lookup_insert_eq. simpl.
  rewrite lookup_insert_eq. simpl.
  eexists _, _. split; [reflexivity|]. simpl.
  split; [apply insert_insert_eq|]. repeat split.
Qed.

(** X15. A confirmed top-up credits the amount the request names, and does
    so again when the same confirmation is sent again.  For a stored
    account and a confirmation with the expected signature, intent "wallet"
    and a non-zero amount that does not make the balance negative, the
    answer is 200, the stored balance is the old one plus the amount, and
    the payment is put in front of the history.  Nothing ties the amount to
    the signature or remembers the payment id: the same request served
    right after is answered 200 too and the balance is then the old one
    plus twice the amount. *)
Theorem confirm_wallet_topup key_secret userId req o p amount user w :
  razorpay_order_id req = Some o -> o <> EmptyString ->
  razorpay_payment_id req = Some p -> p <> EmptyString ->
  razorpay_signature req
  = Some (NodeCrypto.createHmac_sha256_hex key_secret (o ++ "|" ++ p)) ->
  intent req = Some "wallet" ->
  c_amountInPaise req = Some amount ->
  ~ (amount == 0)%Q ->
  (0 <= UserAccount.walletBalancePaise user + amount)%Q ->
  disk w !! userId = Some user ->
  exists user' w1,
    confirm key_secret userId req w
    = (Ok (json (UserBody (Some (publicUser user')))), w1)
    /\ disk w1 = <[userId := user']> (disk w)
    /\ UserAccount.walletBalancePaise user'
       = (UserAccount.walletBalancePaise user + amount)%Q
    /\ UserAccount.paymentHistory user'
       = take 50
           (PaymentRecord.mk wallet_payment o p amount None
              (clock w (1 + reads w))
            :: UserAccount.paymentHistory user)
    /\ ((0 <= UserAccount.walletBalancePaise user + amount + amount)%Q ->
        exists user'' w2,
          confirm key_secret userId req w1
          = (Ok (json (UserBody (Some (publicUser user'')))), w2)
          /\ disk w2 !! userId = Some user''
          /\ UserAccount.walletBalancePaise user''
             = (UserAccount.walletBalancePaise user + amount + amount)%Q).
Proof.
  intros Ho Ho' Hp Hp' Hs Hi Ha Hnz Hbal Hl.
  assert (Hstep : forall w0 u,
    disk w0 !! userId = Some u ->
    (0 <= UserAccount.walletBalancePaise u + amount)%Q ->
    let u' :=
      UserAccount.set_updatedAt (clock w0 (2 + reads w0))
        (UserAccount.set_paymentHistory
           (take 50
              (PaymentRecord.mk wallet_payment o p amount None
                 (clock w0 (1 + reads w0))
               :: UserAccount.paymentHistory u))
           (UserAccount.set_updatedAt (clock w0 (reads w0))
              (UserAccount.set_walletBalancePaise
                 (UserAccount.walletBalancePaise u + amount)%Q u))) in
    confirm key_secret userId req w0
    = (Ok (json (UserBody (Some (publicUser u')))),
       set_disk (<[userId := u']> (disk w0)) (tick (tick (tick w0))))).
  { intros w0 u Hl0 Hb0 u'. unfold confirm.
    rewrite Ho, Hp, Hs, (not_string_present o Ho'),
      (not_string_present p Hp'),
      (not_string_present _ (digest_not_empty _ _)).
    cbn [orb default from_option id].
    rewrite bool_decide_eq_true_2 by reflexivity. cbn [negb].
    rewrite Hi, Ha. rewrite bool_decide_eq_false_2 by discriminate.
    rewrite bool_decide_eq_true_2 by reflexivity.
    rewrite (not_number_nonzero _ Hnz). cbn [default from_option id].
    unfold try_catch, mbind, M_mbind.
    rewrite adjustWallet_unfold, Hl0. cbv zeta.
    rewrite (Qltb_false_of_le _ Hb0).
    unfold recordPayment. rewrite updateUser_unfold.
    cbn [disk set_disk tick]. rewrite lookup_insert_eq.
    simpl. rewrite lookup_insert_eq. rewrite insert_insert_eq.
    reflexivity. }
  eexists _, _. split; [exact (Hstep w user Hl Hbal)|].
  split; [reflexivity|]. split; [reflexivity|]. split; [reflexivity|].
  intros Hbal2. eexists _, _. split.
  - apply Hstep; [cbn [disk set_disk]; apply lookup_insert_eq|].
    simpl. exact Hbal2.
  - split; [cbn [disk set_disk]; apply lookup_insert_eq|reflexivity].
Qed.

(** ** The trial branch of the consume route *)

Lemma consume_trial_branch w userId m user trial :
  disk w !! userId = Some user ->
  (0 < m)%Q ->
  plan_covers user m = false ->
  UserAccount.trial user = Some trial ->
  trial_covers user m (clock w (reads w)) = true ->
  usage_consume userId (Some m) w
  = match consumeTrialMinutes userId m (tick w) with
    | (Ok _, w1) =>
        (Ok (json (UsageBody "trial" (publicUser <$> disk w1 !! userId)
                     None)), w1)
    | (Err e, w1) => (Ok (status_json 400 (ErrorBody e)), w1)
    end.
Proof.
  intros Hl Hm Hp Ht Hc. unfold usage_consume. simpl.
  rewrite (Qleb_pos_false _ Hm).
  unfold mbind at 1. unfold M_mbind at 1. rewrite loadUser_unfold, Hl.
  unfold plan_covers in Hp. unfold trial_covers in Hc. rewrite Ht in Hc.
  apply andb_true_iff in Hc as [Hc Hcap].
  apply andb_true_iff in Hc as [Hact Hexp].
  rewrite Ht, Hact.
  destruct (UserAccount.activePlan user) as [plan|]; rewrite ?Hp;
    unfold try_catch, mbind, M_mbind; cbn [Date_now];
    rewrite Hexp, Hcap;
    destruct (consumeTrialMinutes userId m (tick w)) as [[u|e] w1];
    reflexivity.
Qed.

(** X16. The consume route and the store read the clock separately.  When
    a trial that covers the request is still running at the route's
    reading but has run out at the store's reading, [consumeTrialMinutes]
    throws and the request is answered 400 "Trial expired": the route does
    not go on to the wallet, whatever it holds, and the file is unchanged. *)
Theorem consume_trial_expiring_between_checks w userId m user trial :
  disk w !! userId = Some user ->
  (0 < m)%Q ->
  plan_covers user m = false ->
  UserAccount.trial user = Some trial ->
  TrialInfo.active trial = true ->
  (TrialInfo.consumedMinutes trial + m <= TrialInfo.maxMinutes trial)%Q ->
  (clock w (reads w) < TrialInfo.expiresAt trial)%Z ->
  (TrialInfo.expiresAt trial < clock w (S (reads w)))%Z ->
  usage_consume userId (Some m) w
  = (Ok (status_json 400 (ErrorBody "Trial expired")), tick (tick w)).
Proof.
  intros Hl Hm Hp Ht Hact Hcap Hroute Hstore.
  rewrite (consume_trial_branch w userId m user trial Hl Hm Hp Ht).
  - rewrite consumeTrialMinutes_unfold. cbn [disk tick reads clock].
    rewrite Hl, Ht, Hact. cbn [negb].
    apply Z.ltb_lt in Hstore. rewrite Hstore. reflexivity.
  - unfold trial_covers. rewrite Ht, Hact.
    apply Z.gtb_lt in Hroute. rewrite Hroute.
    apply Qleb_true in Hcap. rewrite Hcap. reflexivity.
Qed.

Lemma Qleb_false_pos (m : Q) : Qleb m 0 = false -> (0 < m)%Q.
Proof.
  intros H. apply Qnot_le_lt. intros Hle.
  apply Qleb_true in Hle. congruence.
Qed.

(** X17. What a consume request takes is what its answer says.  When the
    request of a stored account is answered 200, the answer shows the
    record that is now stored, and either it names a debit, the source is
    "wallet", the debit is [ceil(minutes) * 100] and the stored balance is
    the old one less the debit, with plan and trial as before; or it names
    no debit, the source is "plan" or "trial" and the balance is as
    before. *)
Theorem consume_charge_is_reported w userId minutes user resp w1 :
  disk w !! userId = Some user ->
  usage_consume userId minutes w = (Ok resp, w1) ->
  status resp = 200%nat ->
  exists source user' debited,
    body resp = UsageBody source (Some (publicUser user')) debited
    /\ disk w1 = <[userId := user']> (disk w)
    /\ match debited with
       | Some cost =>
           source = "wallet"
           /\ (exists m, minutes = Some m /\ cost = wallet_cost m)
           /\ UserAccount.walletBalancePaise user'
              = (UserAccount.walletBalancePaise user + - cost)%Q
           /\ UserAccount.activePlan user' = UserAccount.activePlan user
           /\ UserAccount.trial user' = UserAccount.trial user
       | None =>
           (source = "plan" \/ source = "trial")
           /\ UserAccount.walletBalancePaise user'
              = UserAccount.walletBalancePaise user
       end.
Proof.
  intros Hl. destruct minutes as [m|]; [|intros [= <- _]; discriminate].
  destruct (Qleb m 0) eqn:Hpos.
  { unfold usage_consume. simpl. rewrite Hpos.
    intros [= <- _]; discriminate. }
  apply Qleb_false_pos in Hpos.
  destruct (plan_covers user m) eqn:Hp.
  - unfold plan_covers in Hp.
    destruct (UserAccount.activePlan user) as [plan|] eqn:Hplan;
      [|discriminate].
    apply Qgeb_true in Hp.
    rewrite (consume_plan w userId m user plan Hl Hpos Hplan Hp).
    intros [= <- <-] _. eexists _, _, _. split; [reflexivity|].
    split; [reflexivity|]. simpl. auto.
  - destruct (trial_covers user m (clock w (reads w))) eqn:Hc.
    + assert (Ht : exists trial, UserAccount.trial user = Some trial).
      { unfold trial_covers in Hc.
        destruct (UserAccount.trial user); [eauto|discriminate]. }
      destruct Ht as [trial Ht].
      rewrite (consume_trial_branch w userId m user trial Hl Hpos Hp Ht Hc).
      rewrite consumeTrialMinutes_unfold. cbn [disk tick reads clock].
      rewrite Hl, Ht.
      destruct (negb _); [intros [= <- _]; discriminate|].
      destruct (_ <? _)%Z; [intros [= <- _]; discriminate|].
      destruct (Qgtb _ _); [intros [= <- _]; discriminate|].
      cbv zeta. cbn [disk set_disk]. rewrite lookup_insert_eq.
      intros [= <- <-] _. eexists _, _, _. split; [reflexivity|].
      split; [reflexivity|]. simpl. auto.
    + rewrite (consume_falls_to_wallet w userId m user Hl Hpos Hp Hc).
      unfold wallet_outcome.
      destruct (Qgeb _ _); [|intros [= <- _]; discriminate].
      intros [= <- <-] _. eexists _, _, _. split; [reflexivity|].
      split; [cbn [disk set_disk]; now rewrite disk_after_trial_check|].
      simpl. eauto 10.
Qed.

(** ** Starting a trial and using it *)

(** X18. A trial that has just been granted pays for the next request.
    For a stored account without a trial and without a plan that covers
    the request, start-trial followed by a consume request for a positive
    quantity of at most sixty minutes, both clock readings of the consume
    request falling before the end of the trial, is answered 200 with
    source "trial"; the stored trial then has consumed the requested
    minutes and the wallet is as before. *)
Theorem granted_trial_pays_next_request w userId m user :
  disk w !! userId = Some user ->
  UserAccount.trial user = None ->
  plan_covers user m = false ->
  (0 < m)%Q -> (m <= TRIAL_MINUTES)%Q ->
  let expiry := (clock w (reads w) + TRIAL_DURATION_MS)%Z in
  (clock w (2 + reads w) < expiry)%Z ->
  (clock w (3 + reads w) <= expiry)%Z ->
  exists w1 user' w2,
    start_trial userId w
    = (Ok (json (TrialBody
                   (TrialInfo.mk (clock w (reads w)) expiry 0 true
                      TRIAL_MINUTES) None)), w1)
    /\ usage_consume userId (Some m) w1
       = (Ok (json (UsageBody "trial" (Some (publicUser user')) None)), w2)
    /\ disk w2 !! userId = Some user'
    /\ UserAccount.trial user'
       = Some (TrialInfo.mk (clock w (reads w)) expiry (0 + m) true
                 TRIAL_MINUTES)
    /\ UserAccount.walletBalancePaise user'
       = UserAccount.walletBalancePaise user.
Proof.
  intros Hl Ht Hp Hm Hcap expiry Hroute Hstore.
  rewrite (start_trial_grant_eq w userId user Hl Ht). cbv zeta.
  fold expiry.
  set (trial := TrialInfo.mk (clock w (reads w)) expiry 0 true
                  TRIAL_MINUTES).
  set (user1 := UserAccount.set_updatedAt (clock w (S (reads w)))
                  (UserAccount.set_trial (Some trial) user)).
  set (w1 := set_disk (<[userId := user1]> (disk w)) (tick (tick w))).
  assert (Hl1 : disk w1 !! userId = Some user1) by apply lookup_insert_eq.
  assert (Hcov : Qleb (0 + m) TRIAL_MINUTES = true).
  { apply Qleb_true. lra. }
  eexists w1, _, _. split; [reflexivity|].
  rewrite (consume_trial_branch w1 userId m user1 trial Hl1 Hm Hp eq_refl).
  - rewrite consumeTrialMinutes_unfold. cbn [disk tick reads clock w1 set_disk].
    rewrite lookup_insert_eq. cbn [UserAccount.trial user1
      UserAccount.set_updatedAt UserAccount.set_trial TrialInfo.active trial
      TrialInfo.expiresAt TrialInfo.consumedMinutes TrialInfo.maxMinutes negb].
    replace (expiry <? clock w (S (S (S (reads w)))))%Z with false
      by (symmetry; apply Z.ltb_ge; exact Hstore).
    unfold Qgtb, Qleb in *. rewrite Hcov. cbn [negb].
    cbv zeta. cbn [disk set_disk]. rewrite lookup_insert_eq.
    split; [reflexivity|]. split; [apply lookup_insert_eq|].
    split; reflexivity.
  - unfold trial_covers. simpl. apply andb_true_iff.
    split; [apply Z.gtb_lt; exact Hroute|exact Hcov].
Qed.

(** X19. [clearTrial] gives the account its trial back.  After
    [clearTrial] on a stored account, whatever its trial was, start-trial
    grants a fresh trial of sixty minutes running for two days from the
    time of the request. *)
Theorem clearTrial_allows_new_trial w userId user :
  disk w !! userId = Some user ->
  exists user1 w1,
    clearTrial userId w = (Ok user1, w1)
    /\ UserAccount.trial user1 = None
    /\ fst (start_trial userId w1)
       = Ok (json (TrialBody
                     (TrialInfo.mk (clock w (1 + reads w))
                        (clock w (1 + reads w) + TRIAL_DURATION_MS)%Z 0 true
                        TRIAL_MINUTES) None)).
Proof.
  intros Hl. unfold clearTrial. rewrite updateUser_unfold, Hl. simpl.
  eexists _, _. split; [reflexivity|]. split; [reflexivity|].
  erewrite start_trial_grant_eq;
    [reflexivity|apply lookup_insert_eq|reflexivity].
Qed.

(** ** A session without an account *)


(** ** What the client asks for *)

Lemma whole_minutes_finite q :
  exists n : Z,
    (1 <= n)%Z /\ whole_minutes (Finite q) = Finite (inject_Z n)
    /\ (q <= 60 * inject_Z n)%Q.
Proof.
  unfold whole_minutes. cbv zeta.
  pose proof (Qle_ceiling (q / 60)) as Hc.
  assert (Hq : (q == 60 * (q / 60))%Q) by (field; discriminate).
  destruct (Qltb 1 (inject_Z (Qceiling (q / 60)))) eqn:E.
  - exists (Qceiling (q / 60)). apply Qltb_true in E.
    split; [|split; [reflexivity|]].
    + change 1%Q with (inject_Z 1) in E. rewrite <- Zlt_Qlt in E. lia.
    + rewrite Hq at 1. apply Qmult_le_l; [reflexivity|exact Hc].
  - exists 1%Z. apply Qltb_false in E.
    split; [lia|split; [reflexivity|]].
    rewrite Hq at 1. apply Qmult_le_l; [reflexivity|].
    eapply Qle_trans; [exact Hc|exact E].
Qed.

(** X21. The client asks for whole minutes.  For durations that are not
    [Infinity], the quantity [handleGenerate] sends to the consume route is
    a whole number of minutes, at least one, and when it bills a finite
    duration that number of minutes covers it.  For such a quantity the
    price the wallet branch of the server computes is exactly one hundred
    paise a minute. *)
Theorem client_asks_whole_minutes audioDuration duration :
  audioDuration <> Infinity ->
  duration <> Some Infinity ->
  exists n : Z,
    (1 <= n)%Z
    /\ minutesRequired audioDuration duration = Finite (inject_Z n)
    /\ (forall seconds,
          billed_duration audioDuration duration = Finite seconds ->
          (seconds <= 60 * inject_Z n)%Q)
    /\ (0 < inject_Z n)%Q
    /\ (wallet_cost (inject_Z n) == inject_Z (100 * n))%Q.
Proof.
  intros Ha Hd.
  assert (Hfin : forall n : Z,
             (1 <= n)%Z ->
             (0 < inject_Z n)%Q
             /\ (wallet_cost (inject_Z n) == inject_Z (100 * n))%Q).
  { intros n Hn. split.
    - change 0%Q with (inject_Z 0). rewrite <- Zlt_Qlt. lia.
    - unfold wallet_cost, WALLET_COST_PER_MINUTE_PAISE.
      rewrite Qceiling_Z. rewrite inject_Z_mult.
      change (inject_Z 100) with 100%Q. ring. }
  unfold minutesRequired, billed_duration.
  destruct (positive audioDuration) eqn:Hpos.
  - destruct audioDuration as [q| |]; [|contradiction|discriminate].
    destruct (whole_minutes_finite q) as (n & Hn & Hw & Hcov).
    exists n. split; [exact Hn|]. split; [exact Hw|].
    split; [intros s [= <-]; exact Hcov|apply Hfin, Hn].
  - destruct duration as [[q| |]|]; simpl.
    + destruct (Qeq_bool q 0) eqn:E; simpl.
      * exists 1%Z. split; [lia|]. split; [reflexivity|].
        split; [|apply Hfin; lia]. intros s [= <-].
        apply Qeq_bool_iff in E. rewrite E. discriminate.
      * destruct (whole_minutes_finite q) as (n & Hn & Hw & Hcov).
        exists n. split; [exact Hn|]. split; [exact Hw|].
        split; [intros s [= <-]; exact Hcov|apply Hfin, Hn].
    + contradiction.
    + exists 1%Z. split; [lia|]. split; [reflexivity|].
      split; [discriminate|apply Hfin; lia].
    + exists 1%Z. split; [lia|]. split; [reflexivity|].
      split; [discriminate|apply Hfin; lia].
Qed.

(** ** A trial is granted once *)

Lemma trial_continues_refl t : trial_continues t t.
Proof. repeat split. apply Qle_refl. Qed.

Lemma trial_continues_trans t0 t1 t2 :
  trial_continues t0 t1 -> trial_continues t1 t2 -> trial_continues t0 t2.
Proof.
  intros (Hs & He & Hm & Ha & Hc) (Hs' & He' & Hm' & Ha' & Hc').
  repeat split; try congruence. eapply Qle_trans; eassumption.
Qed.

Section KeepsTrial.
Variable userId : string.
Variable t0 : TrialInfo.t.

Lemma keeps_trial_updateUser b (mutator : Mutator) :
  mutator_local mutator ->
  (forall u u1 w w1 t,
      run (mutator u) w = (Ok u1, w1) ->
      UserAccount.trial u = Some t ->
      exists t1, UserAccount.trial u1 = Some t1 /\ trial_continues t t1) ->
  preserves (keeps_trial userId t0) (updateUser b mutator).
Proof.
  intros Hloc Hmut. apply preserves_updateUser; [exact Hloc|].
  intros users u u1 w w1 t (v & tv & Hv & Htv & Hcont) Hl Hr.
  unfold keeps_trial. destruct (decide (b = userId)) as [->|Hne].
  - rewrite lookup_insert_eq. rewrite Hl in Hv. injection Hv as ->.
    destruct (Hmut _ _ _ _ _ Hr Htv) as (t1 & Ht1 & Hc1).
    eexists _, t1. split; [reflexivity|]. split; [exact Ht1|].
    eapply trial_continues_trans; eassumption.
  - rewrite lookup_insert_ne by exact Hne. eauto.
Qed.

Lemma keeps_trial_same b (mutator : Mutator) :
  mutator_local mutator ->
  (forall u u1 w w1,
      run (mutator u) w = (Ok u1, w1) ->
      UserAccount.trial u1 = UserAccount.trial u) ->
  preserves (keeps_trial userId t0) (updateUser b mutator).
Proof.
  intros Hloc Hsame. apply keeps_trial_updateUser; [exact Hloc|].
  intros u u1 w w1 t Hr Ht. exists t.
  rewrite (Hsame _ _ _ _ Hr). split; [exact Ht|apply trial_continues_refl].
Qed.

Lemma keeps_trial_recordPayment b data :
  preserves (keeps_trial userId t0) (recordPayment b data).
Proof.
  apply keeps_trial_same; [auto with ledger|].
  intros u u1 w w1 [= <- _]. reflexivity.
Qed.

Lemma keeps_trial_activatePlan b plan :
  preserves (keeps_trial userId t0) (activatePlan b plan).
Proof.
  apply keeps_trial_same; [auto with ledger|].
  intros u u1 w w1 [= <- _]. reflexivity.
Qed.

Lemma keeps_trial_adjustWallet b delta :
  preserves (keeps_trial userId t0) (adjustWallet b delta).
Proof.
  apply keeps_trial_same; [auto with ledger|].
  intros u u1 w w1. unfold adjustWallet_mutator.
  destruct (Qltb _ _); [discriminate|]. intros [= <- _]. reflexivity.
Qed.

Lemma keeps_trial_consumeTrialMinutes b minutes :
  (0 <= minutes)%Q ->
  preserves (keeps_trial userId t0) (consumeTrialMinutes b minutes).
Proof.
  intros Hm. apply keeps_trial_updateUser; [auto with ledger|].
  intros u u1 w w1 t. unfold consumeTrialMinutes_mutator.
  intros Hr Ht. rewrite Ht in Hr.
  destruct (TrialInfo.active t); [|discriminate]. simpl in Hr.
  destruct (_ <? _)%Z; [discriminate|].
  destruct (Qgtb _ _); [discriminate|]. injection Hr as <- _.
  eexists. split; [reflexivity|]. repeat split. simpl. lra.
Qed.

Lemma keeps_trial_getOrCreateUser b profile :
  preserves (keeps_trial userId t0) (getOrCreateUser b profile).
Proof.
  intros w (v & tv & Hv & Htv & Hcont). rewrite getOrCreateUser_unfold.
  unfold keeps_trial.
  destruct (disk w !! b) as [existing|] eqn:Hl.
  - destruct profile as [p|]; simpl; [|eauto].
    destruct (decide (b = userId)) as [->|Hne].
    + rewrite lookup_insert_eq. rewrite Hl in Hv. injection Hv as ->.
      eexists _, tv. split; [reflexivity|]. split; [exact Htv|exact Hcont].
    + rewrite lookup_insert_ne by exact Hne. eauto.
  - simpl. rewrite lookup_insert_ne by congruence. eauto.
Qed.

Lemma keeps_trial_start_trial b :
  preserves (keeps_trial userId t0) (start_trial b).
Proof.
  intros w HI. destruct (disk w !! b) as [user|] eqn:Hl.
  - destruct (UserAccount.trial user) as [trial|] eqn:Ht.
    + destruct (start_trial_existing w b user trial Hl Ht) as [_ Hd].
      rewrite Hd. exact HI.
    + destruct (start_trial_grant w b user Hl Ht) as [_ Hd].
      rewrite Hd. destruct HI as (v & tv & Hv & Htv & Hcont).
      unfold keeps_trial. rewrite lookup_insert_ne by congruence. eauto.
  - unfold start_trial, mbind, M_mbind. rewrite loadUser_unfold, Hl.
    exact HI.
Qed.

Ltac keeps_trial_call :=
  match goal with
  | |- preserves _ (recordPayment _ _) => apply keeps_trial_recordPayment
  | |- preserves _ (activatePlan _ _) => apply keeps_trial_activatePlan
  | |- preserves _ (adjustWallet _ _) => apply keeps_trial_adjustWallet
  | |- preserves _ (consumeTrialMinutes _ _) =>
      apply keeps_trial_consumeTrialMinutes
  end.

Lemma keeps_trial_handle key_id key_secret r :
  preserves (keeps_trial userId t0) (handle key_id key_secret r).
Proof.
  destruct r as [sub payload|[a|]|[a|]|[a|] req|[a|] minutes]; simpl;
    try apply preserves_ret.
  - unfold auth_google. apply preserves_bind; [|intros ?; apply preserves_ret].
    apply keeps_trial_getOrCreateUser.
  - unfold get_status. preserves_route.
  - apply keeps_trial_start_trial.
  - unfold confirm. preserves_route; keeps_trial_call.
  - unfold usage_consume. preserves_guarded; keeps_trial_call.
    all: match goal with
    | H : Qleb _ 0 = false |- _ => apply Qleb_false_pos in H
    end.
    all: apply Qlt_le_weak; assumption.
Qed.
End KeepsTrial.

(** X22. No request restarts or extends a trial.  Once an account has a
    trial, then after each request of any sequence of requests, by this
    session or any other, the account still has a trial with the same
    start, the same end, the same cap and the same flag, and with at least
    as many minutes consumed: the routes can only use a trial up. *)
Theorem requests_never_reset_trial key_id key_secret rs w userId user t0 :
  disk w !! userId = Some user ->
  UserAccount.trial user = Some t0 ->
  Forall (fun w' => keeps_trial userId t0 (disk w'))
    (trace (map (Serve key_id key_secret) rs) w).
Proof.
  intros Hl Ht.
  assert (H : keeps_trial userId t0 (disk w)).
  { exists user, t0. split; [exact Hl|]. split; [exact Ht|].
    apply trial_continues_refl. }
  clear Hl Ht. revert w H.
  induction rs as [|r rs IH]; intros w H; simpl; constructor.
  - exact (keeps_trial_handle userId t0 key_id key_secret r w H).
  - apply IH. exact (keeps_trial_handle userId t0 key_id key_secret r w H).
Qed.

(** ** What each route can change *)

Section Footprint.
Context {A : Type}.
Variable f : UserAccount.t -> A.
Variable userId : string.
Variable v : A.
Hypothesis f_updatedAt : forall t u, f (UserAccount.set_updatedAt t u) = f u.

Lemma keeps_field_updateUser b (mutator : Mutator) :
  mutator_local mutator ->
  (forall u u1 w w1, run (mutator u) w = (Ok u1, w1) -> f u1 = f u) ->
  preserves (keeps_field f userId v) (updateUser b mutator).
Proof.
  intros Hloc Hmut. apply preserves_updateUser; [exact Hloc|].
  intros users u u1 w w1 t (x & Hx & Hfx) Hl Hr. unfold keeps_field.
  destruct (decide (b = userId)) as [->|Hne].
  - rewrite lookup_insert_eq. eexists. split; [reflexivity|].
    rewrite f_updatedAt, (Hmut _ _ _ _ Hr). congruence.
  - rewrite lookup_insert_ne by exact Hne. eauto.
Qed.

Lemma keeps_field_recordPayment b data :
  (forall h u, f (UserAccount.set_paymentHistory h u) = f u) ->
  preserves (keeps_field f userId v) (recordPayment b data).
Proof.
  intros Hf. apply keeps_field_updateUser; [auto with ledger|].
  intros u u1 w w1 [= <- _]. apply Hf.
Qed.

Lemma keeps_field_activatePlan b plan :
  (forall p u, f (UserAccount.set_activePlan p u) = f u) ->
  preserves (keeps_field f userId v) (activatePlan b plan).
Proof.
  intros Hf. apply keeps_field_updateUser; [auto with ledger|].
  intros u u1 w w1 [= <- _]. apply Hf.
Qed.

Lemma keeps_field_setTrialInfo b trial :
  (forall t u, f (UserAccount.set_trial t u) = f u) ->
  preserves (keeps_field f userId v) (setTrialInfo b trial).
Proof.
  intros Hf. apply keeps_field_updateUser; [auto with ledger|].
  intros u u1 w w1 [= <- _]. apply Hf.
Qed.

Lemma keeps_field_consumeTrialMinutes b minutes :
  (forall t u, f (UserAccount.set_trial t u) = f u) ->
  preserves (keeps_field f userId v) (consumeTrialMinutes b minutes).
Proof.
  intros Hf. apply keeps_field_updateUser; [auto with ledger|].
  intros u u1 w w1. unfold consumeTrialMinutes_mutator.
  destruct (UserAccount.trial u) as [trial|]; [|discriminate].
  destruct (TrialInfo.active trial); [|discriminate]. simpl.
  destruct (_ <? _)%Z; [discriminate|].
  destruct (Qgtb _ _); [discriminate|]. intros [= <- _]. apply Hf.
Qed.

Lemma keeps_field_adjustWallet b delta :
  (forall q u, f (UserAccount.set_walletBalancePaise q u) = f u) ->
  preserves (keeps_field f userId v) (adjustWallet b delta).
Proof.
  intros Hf. apply keeps_field_updateUser; [auto with ledger|].
  intros u u1 w w1. unfold adjustWallet_mutator.
  destruct (Qltb _ _); [discriminate|]. intros [= <- _]. apply Hf.
Qed.

Lemma keeps_field_getOrCreateUser b profile :
  (forall e n p u, f (UserAccount.set_profile e n p u) = f u) ->
  preserves (keeps_field f userId v) (getOrCreateUser b profile).
Proof.
  intros Hf w (x & Hx & Hfx). rewrite getOrCreateUser_unfold.
  unfold keeps_field.
  destruct (disk w !! b) as [existing|] eqn:Hl.
  - destruct profile as [p|]; simpl; [|eauto].
    destruct (decide (b = userId)) as [->|Hne].
    + rewrite lookup_insert_eq. eexists. split; [reflexivity|].
      rewrite f_updatedAt, Hf. congruence.
    + rewrite lookup_insert_ne by exact Hne. eauto.
  - simpl. rewrite lookup_insert_ne by congruence. eauto.
Qed.
End Footprint.

Ltac footprint_route :=
  cbv zeta;
  repeat match goal with
    | |- preserves _ (mret _) => apply preserves_ret
    | |- preserves _ Date_now => apply preserves_Date_now
    | |- preserves _ (loadUser _) => apply preserves_loadUser
    | |- preserves _ (recordPayment _ _) =>
        apply keeps_field_recordPayment; reflexivity
    | |- preserves _ (activatePlan _ _) =>
        apply keeps_field_activatePlan; reflexivity
    | |- preserves _ (setTrialInfo _ _) =>
        apply keeps_field_setTrialInfo; reflexivity
    | |- preserves _ (consumeTrialMinutes _ _) =>
        apply keeps_field_consumeTrialMinutes; reflexivity
    | |- preserves _ (adjustWallet _ _) =>
        apply keeps_field_adjustWallet; reflexivity
    | |- preserves _ (getOrCreateUser _ _) =>
        apply keeps_field_getOrCreateUser; reflexivity
    | |- preserves _ (_ ≫= _) => apply preserves_bind; [|intros ?]
    | |- preserves _ (try_catch _ _) => apply preserves_try_catch; [|intros ?]
    | |- preserves _ (match ?x with _ => _ end) => destruct x
    end.

Lemma wallet_footprint key_id key_secret r userId v :
  touches_wallet r = false ->
  preserves (keeps_field UserAccount.walletBalancePaise userId v)
    (handle key_id key_secret r).
Proof.
  intros Hr.
  destruct r as [sub payload|[a|]|[a|]|[a|] req|[a|] minutes];
    try discriminate; simpl; try apply preserves_ret.
  - unfold auth_google. footprint_route.
  - unfold get_status. footprint_route.
  - unfold start_trial. footprint_route.
  - unfold confirm. simpl in Hr. rewrite Hr. footprint_route.
Qed.

Lemma history_footprint key_id key_secret r userId v :
  records_payment r = false ->
  preserves (keeps_field UserAccount.paymentHistory userId v)
    (handle key_id key_secret r).
Proof.
  intros Hr.
  destruct r as [sub payload|[a|]|[a|]|[a|] req|[a|] minutes];
    try discriminate; simpl; try apply preserves_ret.
  - unfold auth_google. footprint_route.
  - unfold get_status. footprint_route.
  - unfold start_trial. footprint_route.
  - unfold usage_consume. footprint_route.
Qed.

Lemma profile_footprint key_id key_secret r userId v :
  creates_account (Serve key_id key_secret r) = false ->
  preserves
    (keeps_field
       (fun u => (UserAccount.email u, UserAccount.name u,
                  UserAccount.picture u)) userId v)
    (handle key_id key_secret r).
Proof.
  intros Hr.
  destruct r as [sub payload|[a|]|[a|]|[a|] req|[a|] minutes];
    try discriminate; simpl; try apply preserves_ret.
  - unfold get_status. footprint_route.
  - unfold start_trial. footprint_route.
  - unfold confirm. footprint_route.
  - unfold usage_consume. footprint_route.
Qed.

Lemma identity_footprint key_id key_secret r userId v :
  preserves
    (keeps_field (fun u => (UserAccount.userId u, UserAccount.createdAt u))
       userId v)
    (handle key_id key_secret r).
Proof.
  destruct r as [sub payload|[a|]|[a|]|[a|] req|[a|] minutes];
    simpl; try apply preserves_ret.
  - unfold auth_google. footprint_route.
  - unfold get_status. footprint_route.
  - unfold start_trial. footprint_route.
  - unfold confirm. footprint_route.
  - unfold usage_consume. footprint_route.
Qed.

(** X23. What a request can change in a stored account depends on its
    route.  The wallet balance changes only through the consume route and
    confirmations with intent "wallet"; the payment history only through
    the confirm route; email, name and picture only through the login; the
    id and the creation time through no route.  For every request, an
    account that is in the file is still in it afterwards with each of
    these fields as it was, unless the request is of a kind that may change
    the field. *)
Theorem request_footprint key_id key_secret r w userId u :
  disk w !! userId = Some u ->
  exists u',
    disk (snd (handle key_id key_secret r w)) !! userId = Some u'
    /\ UserAccount.userId u' = UserAccount.userId u
    /\ UserAccount.createdAt u' = UserAccount.createdAt u
    /\ (touches_wallet r = false ->
        UserAccount.walletBalancePaise u' = UserAccount.walletBalancePaise u)
    /\ (records_payment r = false ->
        UserAccount.paymentHistory u' = UserAccount.paymentHistory u)
    /\ (creates_account (Serve key_id key_secret r) = false ->
        UserAccount.email u' = UserAccount.email u
        /\ UserAccount.name u' = UserAccount.name u
        /\ UserAccount.picture u' = UserAccount.picture u).
Proof.
  intros Hl.
  destruct (identity_footprint key_id key_secret r userId _ w
              (ex_intro _ u (conj Hl eq_refl))) as (u' & Hl' & Hid).
  exists u'. split; [exact Hl'|]. injection Hid as Hid Hcr.
  split; [exact Hid|]. split; [exact Hcr|]. split; [|split].
  - intros Hr.
    destruct (wallet_footprint key_id key_secret r userId _ Hr w
                (ex_intro _ u (conj Hl eq_refl))) as (x & Hx & Hf).
    congruence.
  - intros Hr.
    destruct (history_footprint key_id key_secret r userId _ Hr w
                (ex_intro _ u (conj Hl eq_refl))) as (x & Hx & Hf).
    congruence.
  - intros Hr.
    destruct (profile_footprint key_id key_secret r userId _ Hr w
                (ex_intro _ u (conj Hl eq_refl))) as (x & Hx & Hf).
    rewrite Hl' in Hx. injection Hx as <-. injection Hf as He Hn Hp. auto.
Qed.

(** ** Local requests *)

Lemma substring_all s : String.substring 0 (String.length s) s = s.
Proof. induction s as [|c s IH]; simpl; [reflexivity|now rewrite IH]. Qed.

Lemma prefix_split p s :
  String.prefix p s = true ->
  s = p ++ substring_from (String.length p) s.
Proof.
  revert s. induction p as [|a p IH]; intros s H.
  - unfold substring_from. simpl. rewrite Nat.sub_0_r.
    now rewrite substring_all.
  - destruct s as [|b s]; [discriminate H|]. simpl in H.
    destruct (ascii_dec a b) as [<-|]; [|discriminate H].
    change (String a s
            = String a (p ++ substring_from (String.length p) s)).
    f_equal. exact (IH s H).
Qed.

(** X24. [isLocalRequest] accepts exactly four addresses.  The address is
    [req.ip], or the socket's remote address when [req.ip] is undefined; the
    request counts as local exactly when that address is 127.0.0.1 or ::1,
    bare or behind the prefix ::ffff: of an IPv4-mapped address.  An empty
    [req.ip] is not replaced by the socket address and is refused. *)
Theorem isLocalRequest_accepts ip remoteAddress :
  isLocalRequest ip remoteAddress = true
  <-> In (nullish ip remoteAddress)
        [Some "127.0.0.1"; Some "::1"; Some "::ffff:127.0.0.1";
         Some "::ffff:::1"].
Proof.
  unfold isLocalRequest. cbv zeta.
  destruct (nullish ip remoteAddress) as [address|]; cycle 1.
  { simpl. split; [discriminate|]. intros H.
    repeat (destruct H as [H|H]; [discriminate H|]). destruct H. }
  cbn [default from_option id]. split.
  - destruct (String.eqb address EmptyString); [discriminate|].
    destruct (String.prefix "::ffff:" address) eqn:Hp.
    + apply prefix_split in Hp.
      change (String.length "::ffff:") with 7%nat in Hp.
      intros H. apply orb_true_iff in H as [H|H];
        apply String.eqb_eq in H; rewrite H in Hp; subst address; simpl; auto.
    + intros H. apply orb_true_iff in H as [H|H];
        apply String.eqb_eq in H; subst address; simpl; auto.
  - intros H.
    repeat (destruct H as [H|H]; [injection H as <-; reflexivity|]).
    destruct H.
Qed.

(** ** The last millisecond of a trial *)

(** X25. The routes and the store disagree about the millisecond at which
    a trial ends.  For an account with an active trial whose [expiresAt]
    is the current time and no plan that covers the request: the status
    route still shows the trial as active, since it tests [expiresAt < now];
    start-trial answers 403 "Trial already used" and the consume route goes
    on to the wallet, since both test [expiresAt > now]; and the store's
    [consumeTrialMinutes], which tests [expiresAt < now], would still take
    the minutes from the trial. *)
Theorem trial_last_millisecond key_id w userId m user trial :
  disk w !! userId = Some user ->
  UserAccount.trial user = Some trial ->
  TrialInfo.active trial = true ->
  (forall n, clock w n = TrialInfo.expiresAt trial) ->
  (0 < m)%Q ->
  plan_covers user m = false ->
  (TrialInfo.consumedMinutes trial + m <= TrialInfo.maxMinutes trial)%Q ->
  fst (get_status key_id userId w) = Ok (json (session_body key_id user))
  /\ fst (start_trial userId w)
     = Ok (status_json 403 (ErrorBody "Trial already used"))
  /\ usage_consume userId (Some m) w = wallet_outcome userId user m (tick w)
  /\ exists user',
      fst (consumeTrialMinutes userId m w) = Ok user'
      /\ UserAccount.trial user'
         = Some (TrialInfo.set_consumedMinutes
                   (TrialInfo.consumedMinutes trial + m)%Q trial).
Proof.
  intros Hl Ht Hact Hnow Hm Hp Hcap.
  assert (Hlt : (TrialInfo.expiresAt trial <? clock w (reads w))%Z = false).
  { rewrite Hnow. apply Z.ltb_irrefl. }
  assert (Hgt : (TrialInfo.expiresAt trial >? clock w (reads w))%Z = false).
  { rewrite Hnow, Z.gtb_ltb. apply Z.ltb_irrefl. }
  split; [|split; [|split]].
  - unfold get_status, mbind, M_mbind. rewrite loadUser_unfold, Hl, Ht.
    cbn [Date_now]. rewrite Hlt. reflexivity.
  - rewrite (start_trial_existing_eq w userId user trial Hl Ht).
    rewrite Hact, Hgt. reflexivity.
  - rewrite (consume_falls_to_wallet w userId m user Hl Hm Hp).
    + unfold after_trial_check. now rewrite Ht, Hact.
    + unfold trial_covers. rewrite Ht, Hact, Hgt. reflexivity.
  - rewrite consumeTrialMinutes_unfold, Hl, Ht, Hact, Hlt. cbn [negb].
    assert (Hc : Qgtb (TrialInfo.consumedMinutes trial + m)
                   (TrialInfo.maxMinutes trial) = false).
    { destruct (Qgtb _ _) eqn:E; [|reflexivity].
      apply Qgtb_true in E. lra. }
    rewrite Hc. eexists. split; reflexivity.
Qed.

(** ** The further properties at concrete inputs *)

Lemma history_ok_saver_world : history_ok (disk saver_world).
Proof.
  intros userId u Hl. unfold saver_world, disk in Hl.
  apply lookup_singleton_Some in Hl as [_ <-]. simpl. lia.
Qed.

Lemma keys_ok_saver_world : keys_ok (disk saver_world).
Proof.
  intros userId u Hl. unfold saver_world, disk in Hl.
  apply lookup_singleton_Some in Hl as [<- <-]. reflexivity.
Qed.

Lemma plan_ok_expired_plan_world : plan_ok (disk expired_plan_world).
Proof.
  intros userId u plan Hl. unfold expired_plan_world, disk in Hl.
  apply lookup_singleton_Some in Hl as [_ <-].
  intros [= <-]. simpl. discriminate.
Qed.

Lemma payment_history_capped_witness :
  Forall (fun w' => history_ok (disk w'))
    (trace [Call (RecordPayment "u5" topup_payment);
            Serve "key" "s3cret" (UsageConsume (Some "u5") (Some 3%Q))]
           saver_world).
Proof.
  apply payment_history_capped. exact history_ok_saver_world.
Defined.

Lemma recordPayment_newest_first_witness :
  exists u1 w1,
    recordPayment "u5" topup_payment saver_world = (Ok u1, w1)
    /\ UserAccount.paymentHistory u1 !! 0%nat
       = Some (PaymentRecord.mk wallet_payment "order_1" "pay_1" 10000 None
                 100).
Proof.
  destruct (recordPayment_newest_first saver_world "u5" topup_payment saver
              eq_refl) as (u1 & w1 & Hr & _ & Hhead & _).
  exists u1, w1. split; [exact Hr|exact Hhead].
Defined.

Lemma accounts_keyed_by_id_witness :
  Forall (fun w' => keys_ok (disk w'))
    (trace [Call (GetOrCreateUser "u7" None);
            Serve "key" "s3cret" (StartTrial (Some "u7"))]
           saver_world).
Proof.
  apply accounts_keyed_by_id. exact keys_ok_saver_world.
Defined.

Lemma accounts_only_added_witness :
  is_Some (disk (step (Call (AdjustWallet "u5" 500)) saver_world) !! "u5")
  /\ disk (step (Call (AdjustWallet "u7" 500)) saver_world) !! "u7" = None.
Proof.
  split.
  - apply (proj1 (accounts_only_added (Call (AdjustWallet "u5" 500))
                    saver_world "u5")).
    exists saver. reflexivity.
  - apply (proj2 (accounts_only_added (Call (AdjustWallet "u7" 500))
                    saver_world "u7")); reflexivity.
Defined.

Lemma other_accounts_untouched_witness :
  disk (step (Serve "key" "s3cret" (UsageConsume (Some "u3") (Some 2%Q)))
          fraction_world) !! "u4"
  = Some trial_user.
Proof.
  rewrite (other_accounts_untouched
             (Serve "key" "s3cret" (UsageConsume (Some "u3") (Some 2%Q)))
             fraction_world "u4").
  - reflexivity.
  - simpl. discriminate.
Defined.

Lemma failed_request_changes_nothing_witness :
  disk (snd (handle "key" "s3cret" (UsageConsume (Some "u0") (Some 2%Q))
               scenario_world))
  = disk scenario_world.
Proof.
  apply (failed_request_changes_nothing "key" "s3cret"
           (UsageConsume (Some "u0") (Some 2%Q)) scenario_world
           (status_json 402 (InsufficientBody "Insufficient balance" 200))).
  - reflexivity.
  - simpl. discriminate.
Defined.

Lemma getOrCreateUser_merges_witness :
  exists u w1,
    getOrCreateUser "u7" (Some no_hints) empty_world = (Ok u, w1)
    /\ loadUser "u7" w1 = (Ok (Some u), w1).
Proof.
  destruct (getOrCreateUser_merges "u7" (Some no_hints) empty_world
              (or_intror eq_refl)) as (u & w1 & Hr & Hload & _).
  exists u, w1. split; [exact Hr|exact Hload].
Defined.

Lemma updateUser_all_or_nothing_witness :
  disk (snd (updateUser "u5" (adjustWallet_mutator (-5000)) saver_world))
  = disk saver_world.
Proof.
  pose proof (updateUser_all_or_nothing "u5" (adjustWallet_mutator (-5000))
                saver_world (sm_adjustWallet (-5000))
                (or_intror eq_refl)) as H.
  simpl in H. exact (proj1 H).
Defined.

Lemma plan_branch_matches_ensureActivePlanMinutes_witness :
  exists u' w1,
    ensureActivePlanMinutes "u6" 3 expired_plan_world = (Ok u', w1)
    /\ usage_consume "u6" (Some 3%Q) expired_plan_world
       = (Ok (json (UsageBody "plan" (Some (publicUser u')) None)), w1).
Proof.
  apply (plan_branch_matches_ensureActivePlanMinutes expired_plan_world "u6"
           3%Q expired_plan_holder); reflexivity.
Defined.

Lemma plan_minutes_never_negative_witness :
  Forall (fun w' => plan_ok (disk w'))
    (trace [Serve "key" "s3cret" (UsageConsume (Some "u6") (Some 3%Q));
            Call (EnsureActivePlanMinutes "u6" 600)]
           expired_plan_world).
Proof.
  apply plan_minutes_never_negative.
  - repeat constructor.
  - reflexivity.
  - exact plan_ok_expired_plan_world.
Defined.


Lemma consume_trial_expiring_between_checks_witness :
  usage_consume "u2" (Some 5%Q) before_expiry
  = (Ok (status_json 400 (ErrorBody "Trial expired")),
     tick (tick before_expiry)).
Proof.
  apply (consume_trial_expiring_between_checks before_expiry "u2" 5%Q
           lapsed_holder (TrialInfo.mk 0 1000 10 true 60));
    first [reflexivity | unfold Qle; simpl; lia].
Defined.

Lemma consume_charge_is_reported_witness :
  exists source user' debited,
    body (json (UsageBody "wallet"
                  (Some (publicUser
                           (UserAccount.set_updatedAt 100
                              (UserAccount.set_walletBalancePaise
                                 (1000 + - wallet_cost 3)%Q saver))))
                  (Some (wallet_cost 3))))
    = UsageBody source (Some (publicUser user')) debited
    /\ disk (snd (usage_consume "u5" (Some 3%Q) saver_world))
       = <["u5" := user']> (disk saver_world).
Proof.
  destruct (consume_charge_is_reported saver_world "u5" (Some 3%Q) saver
              (json (UsageBody "wallet"
                       (Some (publicUser
                                (UserAccount.set_updatedAt 100
                                   (UserAccount.set_walletBalancePaise
                                      (1000 + - wallet_cost 3)%Q saver))))
                       (Some (wallet_cost 3))))
              (snd (usage_consume "u5" (Some 3%Q) saver_world))
              eq_refl eq_refl eq_refl)
    as (source & user' & debited & Hb & Hd & _).
  exists source, user', debited. split; [exact Hb|exact Hd].
Defined.

Lemma client_asks_whole_minutes_witness :
  exists n : Z,
    (1 <= n)%Z /\ minutesRequired (Finite 125) None = Finite (inject_Z n).
Proof.
  destruct (client_asks_whole_minutes (Finite 125) None)
    as (n & Hn & Hm & _); [discriminate|discriminate|].
  exists n. split; [exact Hn|exact Hm].
Defined.

Lemma expected_signature_shape_witness :
  confirm "s3cret" "u5" forged_confirmation saver_world
  = (Ok (status_json 400 (ErrorBody "Invalid signature")), saver_world).
Proof.
  apply (proj2 (expected_signature_shape "s3cret" "u5" forged_confirmation
                  "order_1" "pay_1" "deadbeef" saver_world));
    first [reflexivity | discriminate].
Defined.

Lemma granted_trial_pays_next_request_witness :
  exists w1 user' w2,
    start_trial "u5" saver_world
    = (Ok (json (TrialBody (TrialInfo.mk 100 172800100 0 true 60) None)), w1)
    /\ usage_consume "u5" (Some 5%Q) w1
       = (Ok (json (UsageBody "trial" (Some (publicUser user')) None)), w2).
Proof.
  destruct (granted_trial_pays_next_request saver_world "u5" 5%Q saver
              eq_refl eq_refl eq_refl eq_refl
              ltac:(vm_compute; discriminate) ltac:(vm_compute; reflexivity)
              ltac:(vm_compute; discriminate))
    as (w1 & user' & w2 & Hs & Hc & _).
  exists w1, user', w2. split; [exact Hs|exact Hc].
Defined.

Lemma clearTrial_allows_new_trial_witness :
  exists user1 w1,
    clearTrial "u1" during_trial = (Ok user1, w1)
    /\ UserAccount.trial user1 = None.
Proof.
  destruct (clearTrial_allows_new_trial during_trial "u1" trial_holder
              eq_refl) as (user1 & w1 & Hc & Ht & _).
  exists user1, w1. split; [exact Hc|exact Ht].
Defined.


Lemma requests_never_reset_trial_witness :
  Forall (fun w' =>
            keeps_trial "u1" (TrialInfo.mk 1000 172801000 0 true 60) (disk w'))
    (trace (map (Serve "key" "s3cret") trial_requests) during_trial).
Proof.
  apply (requests_never_reset_trial "key" "s3cret" trial_requests
           during_trial "u1" trial_holder); reflexivity.
Defined.

Lemma scenario_signed :
  Some scenario_signature
  = Some (NodeCrypto.createHmac_sha256_hex "s3cret"
            ("order_1" ++ "|" ++ "pay_1")).
Proof. rewrite scenario_digest. reflexivity. Qed.

Lemma confirm_plan_purchase_witness :
  exists user' w1,
    confirm "s3cret" "u5" plan_confirmation saver_world
    = (Ok (json (UserBody (Some (publicUser user')))), w1)
    /\ UserAccount.activePlan user'
       = Some (ActivePlan.mk "creator-pro" 100 (Some 2592000100%Z) 500).
Proof.
  destruct (confirm_plan_purchase "s3cret" "u5" plan_confirmation
              "order_1" "pay_1" "creator-pro"
              (mkPlan "creator-pro" "Creator Pro" 500 59900
                 "Freelancers handling 20-40 reels/month")
              saver saver_world
              eq_refl ltac:(discriminate) eq_refl ltac:(discriminate)
              scenario_signed eq_refl eq_refl eq_refl eq_refl)
    as (user' & w1 & Hc & _ & Hp & _).
  exists user', w1. split; [exact Hc|exact Hp].
Defined.

Lemma confirm_wallet_topup_witness :
  exists user' w1,
    confirm "s3cret" "u5" topup_confirmation saver_world
    = (Ok (json (UserBody (Some (publicUser user')))), w1)
    /\ UserAccount.walletBalancePaise user' = (1000 + 15000)%Q.
Proof.
  destruct (confirm_wallet_topup "s3cret" "u5" topup_confirmation
              "order_1" "pay_1" 15000%Q saver saver_world
              eq_refl ltac:(discriminate) eq_refl ltac:(discriminate)
              scenario_signed eq_refl eq_refl
              ltac:(vm_compute; discriminate)
              ltac:(vm_compute; discriminate) eq_refl)
    as (user' & w1 & Hc & _ & Hb & _).
  exists user', w1. split; [exact Hc|exact Hb].
Defined.

Lemma request_footprint_witness :
  exists u',
    disk (snd (handle "key" "s3cret" (StartTrial (Some "u5")) saver_world))
      !! "u5" = Some u'
    /\ UserAccount.walletBalancePaise u' = 1000%Q.
Proof.
  destruct (request_footprint "key" "s3cret" (StartTrial (Some "u5"))
              saver_world "u5" saver eq_refl)
    as (u' & Hl & _ & _ & Hw & _).
  exists u'. split; [exact Hl|exact (Hw eq_refl)].
Defined.

Lemma isLocalRequest_accepts_witness :
  isLocalRequest (Some "::ffff:127.0.0.1") None = true
  /\ In (nullish (Some "::1") (Some "10.0.0.7"))
        [Some "127.0.0.1"; Some "::1"; Some "::ffff:127.0.0.1";
         Some "::ffff:::1"].
Proof.
  split.
  - apply (proj2 (isLocalRequest_accepts (Some "::ffff:127.0.0.1") None)).
    simpl. auto.
  - apply (proj1 (isLocalRequest_accepts (Some "::1") (Some "10.0.0.7"))).
    reflexivity.
Defined.

Lemma trial_last_millisecond_witness :
  fst (get_status "key" "u2" at_expiry)
  = Ok (json (session_body "key" lapsed_holder))
  /\ fst (start_trial "u2" at_expiry)
     = Ok (status_json 403 (ErrorBody "Trial already used")).
Proof.
  destruct (trial_last_millisecond "key" at_expiry "u2" 5%Q lapsed_holder
              (TrialInfo.mk 0 1000 10 true 60)
              eq_refl eq_refl eq_refl (fun _ => eq_refl) eq_refl eq_refl
              ltac:(vm_compute; discriminate))
    as (Hs & Ht & _).
  split; [exact Hs|exact Ht].
Defined.
